(** * Ranking evaluation and model selection of [train.py]

    A shallow embedding of the evaluation pass ([test], [get_metrics],
    [get_recall], [get_ndcg]), of the checkpoint policy ([log_metrics],
    [init_best_metrics]) and of the edge-dropout schedule of [main].

    Conventions of the embedding.
    - A Python exception is a value [Raise e] of the [result] monad.
    - A tensor of shape [n, m] is the list of its [n] rows; a batch holds at
      least one user, as a [DataLoader] yields it.  Ground truth and train
      mask hold the entries 0 and 1 and are rows of booleans.
    - Scores are the rationals that are binary32 numbers; the subtraction of
      the mask penalty rounds to binary32 as the tensor arithmetic does.
    - [torch.topk] leaves the order of equal scores open; the embedding
      ranks them by their column.
    - The interval of the edge-dropout schedule is the binary64 product of
      [main], truncated; a product that is not finite, on which [int]
      raises, is left out.
    - Metric values are real numbers in the exact model ([get_recall],
      [get_ndcg], [test]); rounding is modelled in [Binary32], which
      interprets the recall path in IEEE 754 binary32 and binary64.
    - Files and the tensorboard writer are an output trace of [io_event]s;
      time stamps are left out of the log lines. *)

From Stdlib Require Import ZArith QArith Qpower Reals Psatz Bool.
From Stdlib Require Import Sorting.Sorted Floats.SpecFloat.
From stdpp Require Import gmap strings list fin_maps.

#[local] Close Scope R_scope.
#[local] Close Scope Q_scope.
#[local] Close Scope Z_scope.
#[local] Open Scope nat_scope.

(** ** Exceptions *)

Inductive PyError : Set :=
  | ZeroDivisionError
  | KeyError
  | IndexError
  | RuntimeError
  | ValueError.

#[global] Instance PyError_eq_dec : EqDecision PyError.
Proof. solve_decision. Defined.

Inductive result (A : Type) : Type :=
  | OK (a : A)
  | Raise (e : PyError).

Arguments OK {A} a.
Arguments Raise {A} e.

#[global] Instance result_ret : MRet result := fun A a => OK a.

#[global] Instance result_bind : MBind result :=
  fun A B f m => match m with OK a => f a | Raise e => Raise e end.

#[global] Instance result_fmap : FMap result :=
  fun A B f m => match m with OK a => OK (f a) | Raise e => Raise e end.

Fixpoint foldlM {A B} (f : B -> A -> result B) (b : B) (l : list A) : result B :=
  match l with
  | [] => OK b
  | x :: l' => b' ← f b x; foldlM f b' l'
  end.

(** ** Tensors *)

Abbreviation matrix A := (list (list A)).

(** One user of an evaluation batch: the user id the loader yields, the
    user's row of [model.evaluate(rs, users)], of [ground_truth_u_b] and of
    [train_mask_u_b].  A batch is the list of its users, so the four tensors
    of one batch agree on their first dimension. *)
Record user_row : Type := {
  user : Z;
  pred_row : list Q;
  grd_row : list bool;
  mask_row : list bool }.

Abbreviation batch := (list user_row).

Definition users_of (b : batch) : list Z := map user b.
Definition grd_of (b : batch) : matrix bool := map grd_row b.

(** [t.sum(dim=1)] of a 0/1 tensor, one row. *)
Definition row_sum (l : list bool) : nat :=
  foldr (fun (b : bool) n => if b then S n else n) 0 l.

(** [(num_pos == 0).sum().item()] *)
Definition count_zero (num_pos : list nat) : nat :=
  length (List.filter (fun n => n =? 0) num_pos).

(** *** Rounding

    The number of precision [prec] and exponent bound [emax] nearest to a
    rational, ties to even: the quotient of numerator and denominator, as
    [SFdiv] rounds it. *)
Definition round_Q (prec emax : Z) (q : Q) : spec_float :=
  match Qnum q with
  | Z0 => S754_zero false
  | Zpos n => SFdiv prec emax (S754_finite false n 0) (S754_finite false (Qden q) 0)
  | Zneg n => SFdiv prec emax (S754_finite true n 0) (S754_finite false (Qden q) 0)
  end.

(** The rational a finite number is. *)
Definition Q_of_float (x : spec_float) : Q :=
  match x with
  | S754_finite s m e =>
      Qred (inject_Z (if s then Zneg m else Zpos m) * Qpower (2 # 1) e)%Q
  | _ => (0 # 1)%Q
  end.

Definition is_finite (x : spec_float) : bool :=
  match x with
  | S754_zero _ | S754_finite _ _ _ => true
  | _ => false
  end.

Definition is_negative (x : spec_float) : bool :=
  match x with
  | S754_finite true _ _ => true
  | _ => false
  end.

(** Subtraction of binary32 tensors, one entry. *)
Definition f32_sub (x y : Q) : Q := Q_of_float (round_Q 24 128 (x - y)%Q).

(** *** [pred_b -= 1e8 * train_mask_u_b]

    The mask has the shape of the scores, or one column, which is
    broadcast. *)

Definition mask_penalty : Q := (100000000 # 1)%Q.

Definition b2q (b : bool) : Q := if b then (1 # 1)%Q else (0 # 1)%Q.

Definition sub_mask_row (scores : list Q) (mask : list bool) : result (list Q) :=
  if decide (length scores = length mask)
  then OK (zip_with (fun s m => f32_sub s (mask_penalty * b2q m)) scores mask)
  else match mask with
       | [m] => OK (map (fun s => f32_sub s (mask_penalty * b2q m)) scores)
       | _ => Raise RuntimeError
       end.

Definition sub_mask (b : batch) : result (matrix Q) :=
  mapM (fun u => sub_mask_row (pred_row u) (mask_row u)) b.

(** *** [torch.topk]

    The [k] largest entries of a row in descending order, as (index, value)
    pairs.  Among equal scores the lower index comes first; torch leaves the
    choice open.  A [k] above the row length raises. *)

Definition enumerate {A} (l : list A) : list (nat * A) :=
  zip (seq 0 (length l)) l.

Fixpoint insert_desc (x : nat * Q) (l : list (nat * Q)) : list (nat * Q) :=
  match l with
  | [] => [x]
  | y :: l' => if Qle_bool (snd y) (snd x) then x :: y :: l'
               else y :: insert_desc x l'
  end.

Definition sort_desc (l : list (nat * Q)) : list (nat * Q) :=
  foldr insert_desc [] l.

Definition ranking (row : list Q) : list (nat * Q) :=
  sort_desc (enumerate row).

Definition topk_row (row : list Q) (k : nat) : result (list (nat * Q)) :=
  if decide (k <= length row) then OK (take k (ranking row))
  else Raise RuntimeError.

(** Returns (values, indices) like [torch.topk(pred, k)]. *)
Definition torch_topk (pred : matrix Q) (k : nat) : result (matrix Q * matrix nat) :=
  rows ← mapM (fun row => topk_row row k) pred;
  OK (map (map snd) rows, map (map fst) rows).

(** *** [grd[row_indice, col_indice].view(-1, topk)] *)

Definition gather_row (grd : list bool) (cols : list nat) : result (list bool) :=
  mapM (fun c => match grd !! c with Some b => OK b | None => Raise IndexError end) cols.

Definition gather (grd : matrix bool) (col_indice : matrix nat) : result (matrix bool) :=
  mapM (fun gc => gather_row (fst gc) (snd gc)) (zip grd col_indice).

(** [t.view(-1, topk)] of the gathered entries, the rows they were gathered
    in; a [topk] of 0 leaves the number of rows open and is refused. *)
Definition view_rows {A} (rows : matrix A) (topk : nat) : result (matrix A) :=
  if decide (topk = 0) then Raise RuntimeError else OK rows.

(** [torch.cat]: an empty list of tensors is refused. *)
Definition torch_cat {A} (ts : list (list A)) : result (list A) :=
  match ts with
  | [] => Raise ValueError
  | _ => OK (concat ts)
  end.

(** ** Metric kernels in exact arithmetic *)

(** A dictionary with the two keys "recall" and "ndcg". *)
Record per_metric (A : Type) : Type := PerMetric { recall : A; ndcg : A }.

Arguments PerMetric {A} recall ndcg.
Arguments recall {A} p.
Arguments ndcg {A} p.

Definition epsilon : R := (/ 100000000)%R.

Definition Rsum (l : list R) : R := foldr Rplus 0%R l.

Definition log2 (x : R) : R := (ln x / ln 2)%R.

Definition b2r (b : bool) : R := if b then 1%R else 0%R.

(** [torch.arange(lo, hi, dtype=torch.float)] *)
Definition arange (lo hi : nat) : list R := map INR (seq lo (hi - lo)).

Definition clamp (lo hi x : nat) : nat := Nat.min (Nat.max x lo) hi.

Definition get_recall (pred : matrix Q) (grd is_hit : matrix bool) (topk : nat) : R * Z :=
  let hit_cnt := map row_sum is_hit in
  let num_pos := map row_sum grd in
  let denorm := (Z.of_nat (length pred) - Z.of_nat (count_zero num_pos))%Z in
  let nomina :=
    Rsum (zip_with (fun h n => (INR h / (INR n + epsilon))%R) hit_cnt num_pos) in
  (nomina, denorm).

Definition DCG (hit : list R) (topk : nat) : R :=
  Rsum (zip_with (fun h d => (h / log2 d)%R) hit (arange 2 (topk + 2))).

(** [hit = torch.zeros(topk); hit[:num_pos] = 1] *)
Definition IDCG (num_pos topk : nat) : R :=
  DCG (map (fun i => if i <? num_pos then 1%R else 0%R) (seq 0 topk)) topk.

(** [IDCGs[0] = 1] and [IDCGs[i] = IDCG(i, topk)] for [i] in [range(1, topk + 1)]. *)
Definition IDCGs (topk : nat) : list R :=
  1%R :: map (fun i => IDCG i topk) (seq 1 topk).

Definition get_ndcg (pred : matrix Q) (grd is_hit : matrix bool) (topk : nat) : R * Z :=
  let num_pos := map (fun row => clamp 0 topk (row_sum row)) grd in
  let dcg := map (fun hit => DCG (map b2r hit) topk) is_hit in
  let idcg := map (fun n => nth n (IDCGs topk) 0%R) num_pos in
  let ndcg := zip_with Rdiv dcg idcg in
  let denorm := (Z.of_nat (length pred) - Z.of_nat (count_zero num_pos))%Z in
  let nomina := Rsum ndcg in
  (nomina, denorm).

(** ** The aggregator

    [get_metrics] and [test], over the arithmetic of the Python floats of
    the accumulator and over the two kernels, which the source takes from
    the module scope. *)

Section Aggregator.
Context {num : Type}.
(** The initial [0], [+=] and the final [res[0] / res[1]] with a non-zero
    [res[1]]. *)
Variable py_zero : num.
Variable py_add : num -> num -> num.
Variable py_div : num -> Z -> num.
Variables kernel_recall kernel_ndcg :
  matrix Q -> matrix bool -> matrix bool -> nat -> num * Z.

(** [metrics[m][topk][i] += x] for the two entries of [res]. *)
Definition add_res (acc res : num * Z) : num * Z :=
  (py_add (fst acc) (fst res), (snd acc + snd res)%Z).

Definition add_entry (acc res : option (num * Z)) : option (num * Z) :=
  match acc with
  | Some a => Some (match res with Some x => add_res a x | None => a end)
  | None => None
  end.

(** The loop over [tmp[m].items()]; a key absent from [metrics[m]] is a
    [KeyError]. *)
Definition accumulate (metrics tmp : gmap nat (num * Z)) : result (gmap nat (num * Z)) :=
  if decide (dom tmp ⊆ dom metrics) then OK (merge add_entry metrics tmp)
  else Raise KeyError.

Definition tmp_step (grd : matrix bool) (pred : matrix Q)
    (tmp : per_metric (gmap nat (num * Z))) (topk : nat)
    : result (per_metric (gmap nat (num * Z))) :=
  vi ← torch_topk pred topk;
  gathered ← gather grd (snd vi);
  is_hit ← view_rows gathered topk;
  OK (PerMetric (<[topk := kernel_recall pred grd is_hit topk]> (recall tmp))
                (<[topk := kernel_ndcg pred grd is_hit topk]> (ndcg tmp))).

Definition get_metrics_with (metrics : per_metric (gmap nat (num * Z)))
    (grd : matrix bool) (pred : matrix Q) (topks : list nat)
    : result (per_metric (gmap nat (num * Z))) :=
  tmp ← foldlM (tmp_step grd pred) (PerMetric ∅ ∅) topks;
  r ← accumulate (recall metrics) (recall tmp);
  n ← accumulate (ndcg metrics) (ndcg tmp);
  OK (PerMetric r n).

(** [tmp_metrics[m][topk] = [0, 0]] *)
Definition init_tmp (topks : list nat) : gmap nat (num * Z) :=
  foldl (fun m topk => <[topk := (py_zero, 0%Z)]> m) ∅ topks.

(** The state of the loop over the dataloader. *)
Record pass_state : Type := PassState {
  tmp_metrics : per_metric (gmap nat (num * Z));
  user_list : list (list Z);
  bundle_list : list (matrix nat);
  score_list : list (matrix Q) }.

Definition pass_init (topks : list nat) : pass_state :=
  PassState (PerMetric (init_tmp topks) (init_tmp topks)) [] [] [].

Definition pass_step (topks : list nat) (st : pass_state) (b : batch) : result pass_state :=
  pred_b ← sub_mask b;
  tmp' ← get_metrics_with (tmp_metrics st) (grd_of b) pred_b topks;
  vi ← torch_topk pred_b 100;
  OK (PassState tmp' (user_list st ++ [users_of b])
                (bundle_list st ++ [snd vi]) (score_list st ++ [fst vi])).

(** [metrics[m][topk] = res[0] / res[1]] *)
Definition finalize (topk_res : gmap nat (num * Z)) : result (gmap nat num) :=
  if decide (map_Forall (fun _ res => snd res ≠ 0%Z) topk_res)
  then OK ((fun res => py_div (fst res) (snd res)) <$> topk_res)
  else Raise ZeroDivisionError.

Definition test_with (dataloader : list batch) (topks : list nat)
    : result (per_metric (gmap nat num) * list Z * matrix nat * matrix Q) :=
  st ← foldlM (pass_step topks) (pass_init topks) dataloader;
  users ← torch_cat (user_list st);
  bundles ← torch_cat (bundle_list st);
  scores ← torch_cat (score_list st);
  r ← finalize (recall (tmp_metrics st));
  n ← finalize (ndcg (tmp_metrics st));
  OK (PerMetric r n, users, bundles, scores).
End Aggregator.

Definition Rdiv_int (x : R) (d : Z) : R := (x / IZR d)%R.

Definition get_metrics := get_metrics_with Rplus get_recall get_ndcg.

Definition test := test_with 0%R Rplus Rdiv_int get_recall get_ndcg.

(** ** One user at a time

    The rows of a batch do not interact: these are the steps of [test] and
    [get_metrics] on the row of one user, in which the properties below are
    stated. *)

Definition is_ok {A} (r : result A) : bool :=
  match r with OK _ => true | Raise _ => false end.

Definition row_scores (u : user_row) : result (list Q) :=
  sub_mask_row (pred_row u) (mask_row u).

(** The entry of the train mask for a column, a mask of one column standing
    for every column. *)
Definition mask_entry (u : user_row) (c : nat) : option bool :=
  if decide (length (pred_row u) = length (mask_row u)) then mask_row u !! c
  else match mask_row u with [m] => Some m | _ => None end.

(** The column indices [torch.topk] selects for the user. *)
Definition row_top (u : user_row) (k : nat) : result (list nat) :=
  s ← row_scores u; r ← topk_row s k; OK (map fst r).

(** The row of [is_hit] of the user. *)
Definition row_hits (u : user_row) (k : nat) : result (list bool) :=
  cols ← row_top u k; gather_row (grd_row u) cols.

(** Nothing raises on the user's row: the mask has the shape of the scores
    or one column, every [k] and the 100 of the export are within the row,
    the selected columns are within the ground truth. *)
Definition row_ok (topks : list nat) (u : user_row) : bool :=
  forallb (fun k => is_ok (row_hits u k)) topks && is_ok (row_top u 100).

(** Nothing raises on the batch: no [k] is 0 and nothing raises on a row. *)
Definition batch_ok (topks : list nat) (b : batch) : bool :=
  forallb (fun k => negb (k =? 0)) topks && forallb (row_ok topks) b.

Definition scores_ok (b : batch) : bool :=
  forallb (fun u => is_ok (row_scores u)) b.

Definition hits_ok (b : batch) (k : nat) : bool :=
  negb (k =? 0) && forallb (fun u => is_ok (row_hits u k)) b.

Definition num_pos_of (u : user_row) : nat := row_sum (grd_row u).

(** The users of a batch with at least one ground-truth positive. *)
Definition count_pos (b : batch) : nat :=
  length (List.filter (fun u => 0 <? num_pos_of u) b).

Definition from_ok {A} (d : A) (r : result A) : A :=
  match r with OK a => a | Raise _ => d end.

(** The users of a batch that [get_ndcg] counts for [k]: their number of
    positives, clamped to [0, k], is not zero. *)
Definition count_pos_at (k : nat) (b : batch) : nat :=
  length (List.filter (fun u => 0 <? clamp 0 k (num_pos_of u)) b).

(** The tensors of a batch on which nothing raises. *)
Definition batch_pred (b : batch) : matrix Q :=
  map (fun u => from_ok [] (row_scores u)) b.

Definition batch_hits (b : batch) (k : nat) : matrix bool :=
  map (fun u => from_ok [] (row_hits u k)) b.

Definition batch_top (b : batch) (k : nat) : matrix (nat * Q) :=
  map (fun u => from_ok [] (s ← row_scores u; topk_row s k)) b.

(** The bundles of the first [n] ranks of the user, after masking, are all
    ground-truth positives. *)
Definition top_ranks_positive (u : user_row) (n : nat) : Prop :=
  exists s, row_scores u = OK s
    /\ Forall (fun c => grd_row u !! c = Some true) (take n (map fst (ranking s))).

(** The user's summand of [nomina] in [get_recall] and in [get_ndcg]. *)
Definition user_recall (u : user_row) (k : nat) : R :=
  (INR (row_sum (from_ok [] (row_hits u k))) / (INR (num_pos_of u) + epsilon))%R.

Definition user_ndcg (u : user_row) (k : nat) : R :=
  (DCG (map b2r (from_ok [] (row_hits u k))) k
   / nth (clamp 0 k (num_pos_of u)) (IDCGs k) 0)%R.

(** The order of a ranking: the score on the left is at least the score on
    the right. *)
Definition score_ge (x y : nat * Q) : Prop := (snd y <= snd x)%Q.

(** [DCG] on a row of hit indicators whose first entry has rank [r - 1]:
    the sum of [hit / log2 r], [hit / log2 (r + 1)], ... *)
Fixpoint dcg_at (r : nat) (hit : list bool) : R :=
  match hit with
  | [] => 0%R
  | h :: hit' => (b2r h / log2 (INR r) + dcg_at (S r) hit')%R
  end.

(** The largest [DCG] of [c] hits from rank [r - 1] on. *)
Fixpoint top_sum (r c : nat) : R :=
  match c with
  | 0 => 0%R
  | S c' => (/ log2 (INR r) + top_sum (S r) c')%R
  end.

Section AggregatorViews.
Context {num : Type}.
Variable py_zero : num.
Variable py_add : num -> num -> num.
Variable kernel : matrix Q -> matrix bool -> matrix bool -> nat -> num * Z.

(** What a batch adds to the entry of [k]. *)
Definition batch_res (b : batch) (k : nat) : num * Z :=
  kernel (batch_pred b) (grd_of b) (batch_hits b k) k.

(** The entry of [k] after the batches of [dataloader]. *)
Definition entry_after (dataloader : list batch) (k : nat) : num * Z :=
  foldl (add_res py_add) (py_zero, 0%Z) (map (fun b => batch_res b k) dataloader).
(** [t] is [t0] with the entries of the batch written over it, as [tmp] is
    filled in [get_metrics]. *)
Definition tmp_spec (b : batch) (topks : list nat) (t0 t : gmap nat (num * Z)) : Prop :=
  forall k, t !! k = if decide (k ∈ topks) then Some (batch_res b k) else t0 !! k.

(** The keys of an accumulator are the configured [k]s, with entries [e]. *)
Definition keyed (topks : list nat) (e : nat -> num * Z) (acc : gmap nat (num * Z)) : Prop :=
  forall k, acc !! k = if decide (k ∈ topks) then Some (e k) else None.
End AggregatorViews.

Section PassViews.
Context {num : Type}.
Variable py_zero : num.
Variable py_add : num -> num -> num.
Variable py_div : num -> Z -> num.
Variables kr kn : matrix Q -> matrix bool -> matrix bool -> nat -> num * Z.

(** The metrics [test] returns, and the passes on which it returns. *)
Definition pass_result (topks : list nat) (dataloader : list batch)
    (m : per_metric (gmap nat num)) : Prop :=
  (forall k, recall m !! k
     = if decide (k ∈ topks)
       then Some (py_div (fst (entry_after py_zero py_add kr dataloader k))
                         (snd (entry_after py_zero py_add kr dataloader k)))
       else None)
  /\ (forall k, ndcg m !! k
     = if decide (k ∈ topks)
       then Some (py_div (fst (entry_after py_zero py_add kn dataloader k))
                         (snd (entry_after py_zero py_add kn dataloader k)))
       else None).

Definition pass_runs (topks : list nat) (dataloader : list batch) : Prop :=
  forallb (batch_ok topks) dataloader = true /\ dataloader ≠ []
  /\ (forall k, k ∈ topks -> snd (entry_after py_zero py_add kr dataloader k) ≠ 0%Z)
  /\ (forall k, k ∈ topks -> snd (entry_after py_zero py_add kn dataloader k) ≠ 0%Z).

End PassViews.

(** ** The recall path in IEEE 754 arithmetic

    Tensor entries are binary32 ([torch.float]); [.item()] turns the batch
    sum into a Python float, binary64, which the accumulator adds and the
    final division divides.  [hit_cnt] and [num_pos] are sums of entries 0 and
    1, exact in binary32 below 2^24.  The reduction [sum()] is taken from the
    left; torch leaves its order open.  The logarithm of [get_ndcg] has no
    IEEE model here: the numerator of that kernel is a parameter, its
    denominator is the integer the exact kernel computes. *)

Module Binary32.
Definition prec : Z := 24%Z.
Definition emax : Z := 128%Z.

Definition f32_add : spec_float -> spec_float -> spec_float := SFadd prec emax.
Definition f32_div : spec_float -> spec_float -> spec_float := SFdiv prec emax.
Definition f32_of_nat (n : nat) : spec_float :=
  binary_normalize prec emax (Z.of_nat n) 0 false.
Definition f32_max (x y : spec_float) : spec_float :=
  if SFltb x y then y else x.

(** [1e-8] rounded to binary32. *)
Definition epsilon : spec_float := S754_finite false 11258999 (-50).

Definition f32_one : spec_float := S754_finite false 8388608 (-23).

(** A positive normal number of binary32 with an exponent of an integer
    or above. *)
Definition normal (x : spec_float) : Prop :=
  exists m e, x = S754_finite false m e
    /\ (2 ^ 23 <= Zpos m < 2 ^ 24)%Z /\ (-23 <= e <= 104)%Z.

Definition f64_add : spec_float -> spec_float -> spec_float := SFadd 53 1024.
Definition f64_of_Z (z : Z) : spec_float := binary_normalize 53 1024 z 0 false.
Definition f64_div_int (x : spec_float) (d : Z) : spec_float :=
  SFdiv 53 1024 x (f64_of_Z d).
Definition f64_one : spec_float := S754_finite false 4503599627370496 (-52).

(** [.item()] of a binary32 scalar: the same number as a binary64. *)
Definition item (x : spec_float) : spec_float :=
  match x with
  | S754_finite s m e => binary_round 53 1024 s m e
  | _ => x
  end.

Definition tensor_sum (l : list spec_float) : spec_float :=
  foldl f32_add (S754_zero false) l.

(** [hit_cnt / (num_pos + epsilon)], one user. *)
Definition recall_user (hit_cnt num_pos : nat) : spec_float :=
  f32_div (f32_of_nat hit_cnt) (f32_add (f32_of_nat num_pos) epsilon).

Definition get_recall (pred : matrix Q) (grd is_hit : matrix bool) (topk : nat)
    : spec_float * Z :=
  let hit_cnt := map row_sum is_hit in
  let num_pos := map row_sum grd in
  let denorm := (Z.of_nat (length pred) - Z.of_nat (count_zero num_pos))%Z in
  let nomina := item (tensor_sum (zip_with recall_user hit_cnt num_pos)) in
  (nomina, denorm).

Definition get_ndcg (nomina : matrix bool -> matrix bool -> nat -> spec_float)
    (pred : matrix Q) (grd is_hit : matrix bool) (topk : nat) : spec_float * Z :=
  (nomina grd is_hit topk, snd (get_ndcg pred grd is_hit topk)).

Definition test (nomina : matrix bool -> matrix bool -> nat -> spec_float) :=
  test_with (S754_zero false) f64_add f64_div_int get_recall (get_ndcg nomina).
End Binary32.

(** ** Model selection: [init_best_metrics], [write_log], [log_metrics] *)

Inductive pyval : Type :=
  | VInt (z : Z)
  | VFloat (q : Q)
  | VStr (s : string)
  | VInts (l : list Z)
  | VFloats (l : list Q)
  | VDevice (name : string).

(** The entries of [conf] the embedded functions read, typed, and the others
    as they are. *)
Record conf : Type := Conf {
  conf_topk : list nat;
  conf_topk_valid : nat;
  conf_dataset : string;
  conf_model : string;
  conf_device : string;
  conf_aug_type : string;
  conf_ed_interval : Q;
  conf_epochs : nat;
  conf_test_interval : Z;
  conf_rest : gmap string pyval }.

(** [dict(conf)] *)
Definition conf_dict (c : conf) : gmap string pyval :=
  <["topk" := VInts (map Z.of_nat (conf_topk c))]>
  (<["topk_valid" := VInt (Z.of_nat (conf_topk_valid c))]>
  (<["dataset" := VStr (conf_dataset c)]>
  (<["model" := VStr (conf_model c)]>
  (<["device" := VDevice (conf_device c)]>
  (<["aug_type" := VStr (conf_aug_type c)]>
  (<["ed_interval" := VFloat (conf_ed_interval c)]>
  (<["epochs" := VInt (Z.of_nat (conf_epochs c))]>
  (<["test_interval" := VInt (conf_test_interval c)]>
  (conf_rest c))))))))).

(** A dictionary with the two keys "val" and "test". *)
Record per_split (A : Type) : Type := PerSplit { on_val : A; on_test : A }.

Arguments PerSplit {A} on_val on_test.
Arguments on_val {A} p.
Arguments on_test {A} p.

Abbreviation snapshot := (per_split (per_metric (gmap nat R))).

Inductive split : Set := Val | Test.

Inductive metric_name : Set := Recall | Ndcg.

(** The lines of the textual log, without their time stamp. *)
Inductive log_line : Type :=
  | score_line (s : split) (topk : nat) (recall_v ndcg_v : R)
  | best_line (s : split) (epoch : Z) (topk : nat) (recall_v ndcg_v : R).

Section Selector.
Context {model_state : Type}.

Inductive io_event : Type :=
  | add_scalar (m : metric_name) (topk : nat) (s : split) (value : R) (step : Z)
  | log_write (path : string) (line : log_line)
  | save_users (path : string) (users : list Z)
  | save_bundles (path : string) (bundles : matrix nat)
  | save_scores (path : string) (scores : matrix Q)
  | save_model (path : string) (state : model_state)
  | dump_conf (path : string) (d : gmap string pyval).

Definition getitem (d : gmap nat R) (topk : nat) : result R :=
  match d !! topk with
  | Some v => OK v
  | None => Raise KeyError
  end.

Definition init_best_metrics (c : conf)
    : snapshot * per_split (gmap nat log_line) :=
  let zero := foldl (fun d topk => <[topk := 0%R]> d) ∅ (conf_topk c) in
  (PerSplit (PerMetric zero zero) (PerMetric zero zero), PerSplit ∅ ∅).

Definition write_log (log_path : string) (topk : nat) (step : Z)
    (metrics : snapshot) : result (list io_event) :=
  let val_scores := on_val metrics in
  let test_scores := on_test metrics in
  rv ← getitem (recall val_scores) topk;
  rt ← getitem (recall test_scores) topk;
  nv ← getitem (ndcg val_scores) topk;
  nt ← getitem (ndcg test_scores) topk;
  OK [add_scalar Recall topk Val rv step; add_scalar Recall topk Test rt step;
      add_scalar Ndcg topk Val nv step; add_scalar Ndcg topk Test nt step;
      log_write log_path (score_line Val topk rv nv);
      log_write log_path (score_line Test topk rt nt)].

Definition write_user_bundle_predict_list (c : conf) (users_list : list Z)
    (bundle_list : matrix nat) (score_list : matrix Q) : list io_event :=
  let log_path := "./log/" +:+ conf_dataset c +:+ "/" +:+ conf_model c in
  [save_users (log_path +:+ "/user_list.pt") users_list;
   save_bundles (log_path +:+ "/bundle_list.pt") bundle_list;
   save_scores (log_path +:+ "/score_list.pt") score_list].

(** The body of [for topk in conf['topk']] on an improvement. *)
Definition copy_topk (log_path : string) (metrics : snapshot) (best_epoch : Z)
    (st : snapshot * per_split (gmap nat log_line) * list io_event) (topk : nat)
    : result (snapshot * per_split (gmap nat log_line) * list io_event) :=
  let '(best_metrics, best_perform, out) := st in
  vr ← getitem (recall (on_val metrics)) topk;
  vn ← getitem (ndcg (on_val metrics)) topk;
  tr ← getitem (recall (on_test metrics)) topk;
  tn ← getitem (ndcg (on_test metrics)) topk;
  let best_metrics' :=
    PerSplit
      (PerMetric (<[topk := vr]> (recall (on_val best_metrics)))
                 (<[topk := vn]> (ndcg (on_val best_metrics))))
      (PerMetric (<[topk := tr]> (recall (on_test best_metrics)))
                 (<[topk := tn]> (ndcg (on_test best_metrics)))) in
  let test_line := best_line Test best_epoch topk tr tn in
  let val_line := best_line Val best_epoch topk vr vn in
  let best_perform' :=
    PerSplit (<[topk := val_line]> (on_val best_perform))
             (<[topk := test_line]> (on_test best_perform)) in
  OK (best_metrics', best_perform',
      out ++ [log_write log_path val_line; log_write log_path test_line]).

(** The test of [log_metrics]; [and] does not evaluate its right operand
    when the left one is false. *)
Definition improved (topk_ : nat) (metrics best_metrics : snapshot) : result bool :=
  r ← getitem (recall (on_val metrics)) topk_;
  rb ← getitem (recall (on_val best_metrics)) topk_;
  if Rgt_dec r rb then
    n ← getitem (ndcg (on_val metrics)) topk_;
    nb ← getitem (ndcg (on_val best_metrics)) topk_;
    OK (if Rgt_dec n nb then true else false)
  else OK false.

Definition log_metrics (c : conf) (model : model_state) (metrics : snapshot)
    (log_path checkpoint_model_path checkpoint_conf_path : string)
    (epoch batch_anchor : Z)
    (best_metrics : snapshot) (best_perform : per_split (gmap nat log_line))
    (best_epoch : Z)
    (user_list : list Z) (bundle_list : matrix nat) (score_list : matrix Q)
    : result (snapshot * per_split (gmap nat log_line) * Z * list io_event) :=
  logged ← mapM (fun topk => write_log log_path topk batch_anchor metrics) (conf_topk c);
  let topk_ := conf_topk_valid c in
  better ← improved topk_ metrics best_metrics;
  if (better : bool) then
    let exported := write_user_bundle_predict_list c user_list bundle_list score_list in
    let saved := [save_model checkpoint_model_path model;
                  dump_conf checkpoint_conf_path (delete "device" (conf_dict c))] in
    let best_epoch := epoch in
    st ← foldlM (copy_topk log_path metrics best_epoch)
                (best_metrics, best_perform, []) (conf_topk c);
    OK (fst (fst st), snd (fst st), best_epoch,
        concat logged ++ exported ++ saved ++ snd st)
  else OK (best_metrics, best_perform, best_epoch, concat logged).
End Selector.

Arguments io_event model_state : clear implicits.

(** The events that write a checkpoint file or a file of the prediction
    export. *)
Definition is_persist {model_state : Type} (e : io_event model_state) : bool :=
  match e with
  | save_users _ _ | save_bundles _ _ | save_scores _ _
  | save_model _ _ | dump_conf _ _ => true
  | add_scalar _ _ _ _ _ | log_write _ _ => false
  end.

(** The candidate has an entry for [topk] in each of its four dictionaries. *)
Definition has_topk (metrics : snapshot) (topk : nat) : Prop :=
  is_Some (recall (on_val metrics) !! topk) /\ is_Some (ndcg (on_val metrics) !! topk)
  /\ is_Some (recall (on_test metrics) !! topk) /\ is_Some (ndcg (on_test metrics) !! topk).

(** Two snapshots agree on the entries of [topk]. *)
Definition same_at (a b : snapshot) (topk : nat) : Prop :=
  recall (on_val a) !! topk = recall (on_val b) !! topk
  /\ ndcg (on_val a) !! topk = ndcg (on_val b) !! topk
  /\ recall (on_test a) !! topk = recall (on_test b) !! topk
  /\ ndcg (on_test a) !! topk = ndcg (on_test b) !! topk.

(** ** The edge-dropout schedule of [main] *)

(** [int(x)] of a float: truncation towards zero. *)
Definition py_int (x : Q) : Z := Z.quot (Qnum x) (Zpos (Qden x)).

(** [a % b] on integers: the sign of the divisor, and an error for zero. *)
Definition py_mod (a b : Z) : result Z :=
  if decide (b = 0%Z) then Raise ZeroDivisionError else OK (a mod b)%Z.

(** [batch_cnt * conf["ed_interval"]]: the integer as a binary64 number
    times the binary64 number of the configuration, rounded to binary64. *)
Definition ed_interval_float (batch_cnt : nat) (c : conf) : spec_float :=
  SFmul 53 1024 (binary_normalize 53 1024 (Z.of_nat batch_cnt) 0 false)
                (round_Q 53 1024 (conf_ed_interval c)).

(** [ed_interval_bs = int(batch_cnt * conf["ed_interval"])], for a finite
    product; [int] raises on the others, which are left out. *)
Definition ed_interval_bs (batch_cnt : nat) (c : conf) : Z :=
  py_int (Q_of_float (ed_interval_float batch_cnt c)).

(** [ED_drop] of one batch. *)
Definition ED_drop (c : conf) (interval_bs batch_anchor : Z) : result bool :=
  if decide (conf_aug_type c = "ED") then
    r ← py_mod (batch_anchor + 1) interval_bs;
    OK (r =? 0)%Z
  else OK false.

(** What the training loop does that the schedule decides: the call
    [model(batch, ED_drop=ED_drop)], from which the loss comes, and the
    evaluation of an epoch. *)
Inductive train_event : Set :=
  | forward (batch_anchor : Z) (drop : bool)
  | evaluate (epoch : Z).

(** A run: the events up to its end or up to the exception that ends it. *)
Definition run : Type := list train_event * option PyError.

Fixpoint run_seq {A} (f : A -> run) (l : list A) : run :=
  match l with
  | [] => ([], None)
  | x :: l' =>
      match f x with
      | (tr, Some e) => (tr, Some e)
      | (tr, None) => let r := run_seq f l' in (tr ++ fst r, snd r)
      end
  end.

Definition train_batch (c : conf) (interval_bs epoch_anchor : Z) (batch_i : nat) : run :=
  let batch_anchor := (epoch_anchor + Z.of_nat batch_i)%Z in
  match ED_drop c interval_bs batch_anchor with
  | Raise e => ([], Some e)
  | OK drop => ([forward batch_anchor drop], None)
  end.

Definition train_epoch (c : conf) (batch_cnt : nat) (interval_bs : Z) (epoch : nat) : run :=
  let epoch_anchor := (Z.of_nat epoch * Z.of_nat batch_cnt)%Z in
  match run_seq (train_batch c interval_bs epoch_anchor) (seq 0 batch_cnt) with
  | (tr, Some e) => (tr, Some e)
  | (tr, None) =>
      match py_mod (Z.of_nat epoch) (conf_test_interval c) with
      | Raise e => (tr, Some e)
      | OK r => if (r =? 0)%Z then (tr ++ [evaluate (Z.of_nat epoch)], None)
                else (tr, None)
      end
  end.

(** The epochs of [main] for one setting, [batch_cnt = len(dataset.train_loader)]. *)
Definition train (c : conf) (batch_cnt : nat) : run :=
  run_seq (train_epoch c batch_cnt (ed_interval_bs batch_cnt c)) (seq 0 (conf_epochs c)).

(** The schedule in the words of the specification: every
    [ceil(num_batches_per_epoch * interval_fraction)] steps. *)
Definition py_ceil (x : Q) : Z := (- ((- Qnum x) / Zpos (Qden x)))%Z.

Definition spec_ED_drop (c : conf) (batch_cnt : nat) (batch_anchor : Z) : bool :=
  if decide (conf_aug_type c = "ED") then
    ((batch_anchor + 1) mod
       py_ceil (Q_of_float (ed_interval_float batch_cnt c)) =? 0)%Z
  else false.

(** ** Sample inputs *)

(** A user over 100 bundles with the scores 100, 99, ..., 1, so that the
    bundles rank by their index, the given positives and the given bundles
    seen in training. *)
Definition sample_user (uid : Z) (positives seen : list nat) : user_row :=
  {| user := uid;
     pred_row := map (fun i => inject_Z (Z.of_nat (100 - i))) (seq 0 100);
     grd_row := map (fun i => existsb (Nat.eqb i) positives) (seq 0 100);
     mask_row := map (fun i => existsb (Nat.eqb i) seen) (seq 0 100) |}.

Definition sample_conf (aug_type : string) (ed_interval : Q) (epochs : nat) : conf :=
  Conf [20; 40; 80] 20 "Youshu" "BunCa" "cuda:0" aug_type ed_interval epochs 1 ∅.

(** Three bundles, all but the last seen in training. *)
Definition mostly_seen_user : user_row :=
  {| user := 0; pred_row := [inject_Z 5; inject_Z 4; inject_Z 3];
     grd_row := [false; false; true]; mask_row := [true; true; false] |}.

(** A seen bundle whose score is above the penalty. *)
Definition high_score_user : user_row :=
  {| user := 1; pred_row := [inject_Z 300000000; inject_Z 0];
     grd_row := [false; true]; mask_row := [true; false] |}.

(** A seen bundle whose masked score rounds to the score of the unseen
    one. *)
Definition rounded_level_user : user_row :=
  {| user := 3; pred_row := [inject_Z 5; inject_Z (-99999992)];
     grd_row := [false; true]; mask_row := [true; false] |}.

(** Two positives at the ranks 1 and 3. *)
Definition split_positives_user : user_row :=
  {| user := 2; pred_row := [inject_Z 3; inject_Z 1; inject_Z 2];
     grd_row := [true; true; false]; mask_row := [false; false; false] |}.

(** A snapshot with recall [r] and ndcg [n] on both splits for the K of
    [sample_conf]. *)
Definition sample_snapshot (r n : R) : snapshot :=
  let d := fun v : R => <[20 := v]> (<[40 := v]> (<[80 := v]> (∅ : gmap nat R))) in
  PerSplit (PerMetric (d r) (d n)) (PerMetric (d r) (d n)).

(** ** Shapes of an evaluation batch *)

(** What [test] needs of the row of a user: the train mask has the shape of
    the scores or a single column, which the subtraction broadcasts, and the
    row holds the 100 bundles of the export and the bundles of every K. *)
Definition row_shaped (topks : list nat) (u : user_row) : Prop :=
  (length (mask_row u) = length (pred_row u) \/ length (mask_row u) = 1)
  /\ 100 <= length (pred_row u)
  /\ Forall (fun k => k <= length (pred_row u)) topks.

(** No tie at the cut of the top [k]: the score at rank [k] is above the
    score at rank [k + 1], so that the bundles of the top [k] are the same
    whatever the order of equal scores. *)
Definition clear_cut (s : list Q) (k : nat) : bool :=
  match k with
  | 0 => true
  | S k' =>
      match ranking s !! k', ranking s !! k with
      | Some a, Some b => negb (Qle_bool (snd a) (snd b))
      | _, _ => true
      end
  end.

(** ** What [get_metrics] adds to an accumulator *)

Section GetMetricsViews.
Context {num : Type}.
Variable py_add : num -> num -> num.

(** [acc'] is [acc] with the result of the batch added to the entry of each
    K of [topks], once, and with its other entries as they were. *)
Definition added (kernel : matrix Q -> matrix bool -> matrix bool -> nat -> num * Z)
    (b : batch) (topks : list nat) (acc acc' : gmap nat (num * Z)) : Prop :=
  forall k, acc' !! k
    = if decide (k ∈ topks)
      then (fun a => add_res py_add a (batch_res kernel b k)) <$> acc !! k
      else acc !! k.
End GetMetricsViews.

(** ** The outputs of [write_log] and [log_metrics] *)

(** [d[topk]] of a dictionary that has the key. *)
Definition item (d : gmap nat R) (topk : nat) : R := default 0%R (d !! topk).

Section SelectorViews.
Context {model_state : Type}.

(** What [write_log] emits for [topk] on a candidate with the key: the four
    scalars and the two lines. *)
Definition score_events (log_path : string) (step : Z) (metrics : snapshot) (topk : nat)
    : list (io_event model_state) :=
  let rv := item (recall (on_val metrics)) topk in
  let rt := item (recall (on_test metrics)) topk in
  let nv := item (ndcg (on_val metrics)) topk in
  let nt := item (ndcg (on_test metrics)) topk in
  [add_scalar Recall topk Val rv step; add_scalar Recall topk Test rt step;
   add_scalar Ndcg topk Val nv step; add_scalar Ndcg topk Test nt step;
   log_write log_path (score_line Val topk rv nv);
   log_write log_path (score_line Test topk rt nt)].

(** The summary line of a split for [topk] on an improvement. *)
Definition best_perform_line (s : split) (metrics : snapshot) (epoch : Z) (topk : nat)
    : log_line :=
  let scores := match s with Val => on_val metrics | Test => on_test metrics end in
  best_line s epoch topk (item (recall scores) topk) (item (ndcg scores) topk).

(** The two lines [log_metrics] appends for [topk] on an improvement. *)
Definition best_events (log_path : string) (metrics : snapshot) (epoch : Z) (topk : nat)
    : list (io_event model_state) :=
  [log_write log_path (best_perform_line Val metrics epoch topk);
   log_write log_path (best_perform_line Test metrics epoch topk)].

(** ** The evaluation of an epoch in [main]

    The two calls of [test] and the call of [log_metrics]; the loaders carry
    the scores of the model of the epoch, [batch_anchor] is the variable the
    loop over the batches leaves behind. *)
Definition evaluate_epoch (c : conf) (model : model_state)
    (val_loader test_loader : list batch)
    (log_path checkpoint_model_path checkpoint_conf_path : string)
    (epoch batch_anchor : Z)
    (best_metrics : snapshot) (best_perform : per_split (gmap nat log_line))
    (best_epoch : Z)
    : result (snapshot * per_split (gmap nat log_line) * Z * list (io_event model_state)) :=
  on_v ← test val_loader (conf_topk c);
  on_t ← test test_loader (conf_topk c);
  let '(metrics_test, user_test_list, bundle_test_list, score_test_list) := on_t in
  let metrics := PerSplit (fst (fst (fst on_v))) metrics_test in
  log_metrics c model metrics log_path checkpoint_model_path checkpoint_conf_path
    epoch batch_anchor best_metrics best_perform best_epoch
    user_test_list bundle_test_list score_test_list.

(** An epoch that [main] evaluates: its number, the [batch_anchor] of its
    last batch, the model after its batches and the two loaders with the
    scores of that model. *)
Record evaluation : Type := Evaluation {
  ev_epoch : Z;
  ev_anchor : Z;
  ev_model : model_state;
  ev_val : list batch;
  ev_test : list batch }.

(** The state [main] carries from one evaluation to the next, with the
    output so far. *)
Definition selection : Type :=
  (snapshot * per_split (gmap nat log_line) * Z * list (io_event model_state))%type.

Definition evaluation_step (c : conf)
    (log_path checkpoint_model_path checkpoint_conf_path : string)
    (st : selection) (ev : evaluation) : result selection :=
  let '(best_metrics, best_perform, best_epoch, out) := st in
  r ← evaluate_epoch c (ev_model ev) (ev_val ev) (ev_test ev)
        log_path checkpoint_model_path checkpoint_conf_path
        (ev_epoch ev) (ev_anchor ev) best_metrics best_perform best_epoch;
  let '(best_metrics', best_perform', best_epoch', out') := r in
  OK (best_metrics', best_perform', best_epoch', out ++ out').

(** [best_metrics, best_perform = init_best_metrics(conf)], [best_epoch = 0]
    and the evaluations of one setting. *)
Definition evaluations (c : conf)
    (log_path checkpoint_model_path checkpoint_conf_path : string)
    (evs : list evaluation) : result selection :=
  foldlM (evaluation_step c log_path checkpoint_model_path checkpoint_conf_path)
         (fst (init_best_metrics c), snd (init_best_metrics c), 0%Z, []) evs.
End SelectorViews.

Arguments evaluation model_state : clear implicits.
Arguments selection model_state : clear implicits.

(** The candidate of an evaluation: the metrics of its two passes. *)
Definition evaluation_metrics {model_state : Type} (c : conf)
    (ev : evaluation model_state) : result snapshot :=
  on_v ← test (ev_val ev) (conf_topk c);
  on_t ← test (ev_test ev) (conf_topk c);
  OK (PerSplit (fst (fst (fst on_v))) (fst (fst (fst on_t)))).

(** [m] is above [best] both in validation recall and in validation ndcg at
    [topk_]. *)
Definition beats (topk_ : nat) (m best : snapshot) : Prop :=
  (item (recall (on_val m)) topk_ > item (recall (on_val best)) topk_)%R
  /\ (item (ndcg (on_val m)) topk_ > item (ndcg (on_val best)) topk_)%R.

(** What [main] holds after the evaluations [done]: a best snapshot with
    the configured keys that no candidate so far beats, and either the
    initial state with nothing saved, or the snapshot and the epoch of one
    of the candidates, whose checkpoint is the last file written. *)
Definition selected_from {model_state : Type} (c : conf)
    (checkpoint_model_path checkpoint_conf_path : string)
    (done : list (evaluation model_state)) (st : selection model_state) : Prop :=
  let '(best_metrics, best_perform, best_epoch, out) := st in
  Forall (has_topk best_metrics) (conf_topk c)
  /\ (forall ev m, ev ∈ done -> evaluation_metrics c ev = OK m ->
        ~ beats (conf_topk_valid c) m best_metrics)
  /\ ((best_metrics = fst (init_best_metrics c) /\ best_epoch = 0%Z
       /\ List.filter is_persist out = [])
      \/ exists ev m out1 out2,
           ev ∈ done /\ evaluation_metrics c ev = OK m /\ best_epoch = ev_epoch ev
           /\ (forall k, k ∈ conf_topk c -> same_at best_metrics m k)
           /\ out = out1 ++ [save_model checkpoint_model_path (ev_model ev);
                             dump_conf checkpoint_conf_path (delete "device" (conf_dict c))]
                         ++ out2
           /\ List.filter is_persist out2 = []).

(** ** Further sample inputs *)

(** A setting that evaluates at the K 1 and 2 and selects at 1. *)
Definition small_conf : conf :=
  Conf [1; 2] 1 "Youshu" "BunCa" "cuda:0" "ED" (1 # 4) 1 1 ∅.

(** A loader of two batches over 100 bundles. *)
Definition sample_loader : list batch :=
  [[sample_user 1 [0] []]; [sample_user 2 [0; 5] [1]; sample_user 7 [] [3]]].

(** ** Views of a run of the training loop *)

(** The [batch_anchor] of the calls of the model, in their order. *)
Definition forward_anchors (tr : list train_event) : list Z :=
  flat_map (fun ev => match ev with forward t _ => [t] | evaluate _ => [] end) tr.

(** The [batch_anchor] of the calls of the model with [ED_drop=True]. *)
Definition dropped_anchors (tr : list train_event) : list Z :=
  flat_map (fun ev => match ev with forward t true => [t] | _ => [] end) tr.

(** The epochs that are evaluated, in their order. *)
Definition evaluated_epochs (tr : list train_event) : list Z :=
  flat_map (fun ev => match ev with evaluate e => [e] | forward _ _ => [] end) tr.

(** The events of an epoch in which nothing raises. *)
Definition epoch_events (c : conf) (batch_cnt : nat) (epoch : nat) : list train_event :=
  map (fun i =>
         let t := (Z.of_nat epoch * Z.of_nat batch_cnt + Z.of_nat i)%Z in
         forward t (from_ok false (ED_drop c (ed_interval_bs batch_cnt c) t)))
      (seq 0 batch_cnt)
  ++ (if (Z.of_nat epoch mod conf_test_interval c =? 0)%Z
      then [evaluate (Z.of_nat epoch)] else []).

(** * Properties *)

(** ** The result monad *)

Lemma OK_from_ok {A} (d : A) (r : result A) : is_ok r = true -> r = OK (from_ok d r).
Proof. destruct r; cbn; [reflexivity|discriminate]. Qed.

Lemma bind_OK_inv {A B} (m : result A) (f : A -> result B) (b : B) :
  m ≫= f = OK b <-> exists a, m = OK a /\ f a = OK b.
Proof.
  destruct m as [a|e]; cbn; split.
  - intros H. exists a. split; [reflexivity|exact H].
  - intros (a' & [= <-] & H). exact H.
  - discriminate.
  - intros (a' & H & _). discriminate H.
Qed.

Section MapM.
Context {A B : Type} (f : A -> result B) (d : B).

Lemma is_ok_mapM (l : list A) :
  is_ok (mapM f l) = forallb (fun x => is_ok (f x)) l.
Proof.
  induction l as [|x l IH]; [reflexivity|].
  cbn. destruct (f x); cbn; [|reflexivity].
  rewrite <- IH. destruct (mapM f l); reflexivity.
Qed.

Lemma mapM_from_ok (l : list A) :
  forallb (fun x => is_ok (f x)) l = true ->
  mapM f l = OK (map (fun x => from_ok d (f x)) l).
Proof.
  induction l as [|x l IH]; [reflexivity|].
  cbn. intros H. apply andb_true_iff in H as [Hx Hl].
  destruct (f x); [|discriminate]. cbn.
  rewrite (IH Hl). reflexivity.
Qed.

Lemma mapM_OK (l : list A) (k : list B) :
  mapM f l = OK k <->
  forallb (fun x => is_ok (f x)) l = true /\ k = map (fun x => from_ok d (f x)) l.
Proof.
  split.
  - intros H. assert (Hok : forallb (fun x => is_ok (f x)) l = true).
    { rewrite <- is_ok_mapM, H. reflexivity. }
    split; [exact Hok|]. rewrite (mapM_from_ok l Hok) in H. congruence.
  - intros [Hok ->]. apply mapM_from_ok, Hok.
Qed.
End MapM.

Lemma mapM_map {A B C} (g : A -> B) (f : B -> result C) (l : list A) :
  mapM f (map g l) = mapM (fun x => f (g x)) l.
Proof.
  induction l as [|x l IH]; [reflexivity|]. cbn. rewrite IH. reflexivity.
Qed.

Lemma mapM_ext_Forall {A B} (f g : A -> result B) (l : list A) :
  Forall (fun x => f x = g x) l -> mapM f l = mapM g l.
Proof.
  induction 1 as [|x l Hx _ IH]; [reflexivity|]. cbn. rewrite Hx, IH. reflexivity.
Qed.

Lemma zip_map_map {A B C} (f : A -> B) (g : A -> C) (l : list A) :
  zip (map f l) (map g l) = map (fun x => (f x, g x)) l.
Proof. induction l as [|x l IH]; [reflexivity|]. cbn. rewrite IH. reflexivity. Qed.

Lemma forallb_Forall_true {A} (p : A -> bool) (l : list A) :
  forallb p l = true <-> Forall (fun x => p x = true) l.
Proof.
  rewrite forallb_forall, Forall_forall. split; intros H x Hx; apply H.
  - apply list_elem_of_In, Hx.
  - apply list_elem_of_In, Hx.
Qed.

Lemma forallb_ext {A} (p q : A -> bool) (l : list A) :
  (forall x, p x = q x) -> forallb p l = forallb q l.
Proof.
  intros H. induction l as [|x l IH]; [reflexivity|]. cbn. rewrite H, IH. reflexivity.
Qed.


Lemma length_filter_perm {A} (p : A -> bool) (l l' : list A) :
  l ≡ₚ l' -> length (List.filter p l) = length (List.filter p l').
Proof.
  induction 1 as [|x l l' _ IH|x y l|l1 l2 l3 _ IH1 _ IH2]; cbn [List.filter].
  - reflexivity.
  - destruct (p x); cbn [length]; rewrite IH; reflexivity.
  - destruct (p x), (p y); reflexivity.
  - congruence.
Qed.


(** ** One batch, row by row *)

Lemma row_ok_scores (topks : list nat) (u : user_row) :
  row_ok topks u = true -> is_ok (row_scores u) = true.
Proof.
  unfold row_ok, row_top. intros H. apply andb_true_iff in H as [_ H].
  destruct (row_scores u); [reflexivity|discriminate].
Qed.

Lemma row_ok_hits (topks : list nat) (u : user_row) (k : nat) :
  row_ok topks u = true -> k ∈ topks -> is_ok (row_hits u k) = true.
Proof.
  unfold row_ok. intros H Hk. apply andb_true_iff in H as [H _].
  rewrite forallb_forall in H. apply H, list_elem_of_In, Hk.
Qed.

Lemma row_hits_top (u : user_row) (k : nat) :
  is_ok (row_hits u k) = true -> is_ok (row_top u k) = true.
Proof. unfold row_hits. destruct (row_top u k); [reflexivity|discriminate]. Qed.

Lemma sub_mask_batch (b : batch) (pred : matrix Q) :
  sub_mask b = OK pred <->
  forallb (fun u => is_ok (row_scores u)) b = true /\ pred = batch_pred b.
Proof. apply (mapM_OK row_scores []). Qed.

Lemma torch_topk_batch (b : batch) (k : nat) (vi : matrix Q * matrix nat) :
  forallb (fun u => is_ok (row_scores u)) b = true ->
  torch_topk (batch_pred b) k = OK vi <->
  forallb (fun u => is_ok (row_top u k)) b = true
  /\ vi = (map (map snd) (batch_top b k), map (map fst) (batch_top b k)).
Proof.
  intros Hs. unfold torch_topk, batch_pred. rewrite mapM_map.
  rewrite (mapM_ext_Forall _ (fun u => s ← row_scores u; topk_row s k)).
  2:{ apply forallb_Forall_true in Hs. eapply Forall_impl; [exact Hs|].
      intros u Hu. cbn in Hu. destruct (row_scores u); [reflexivity|discriminate]. }
  rewrite bind_OK_inv. split.
  - intros (rows & Hrows & [= <-]).
    apply (mapM_OK _ []) in Hrows as [Hok ->]. split; [|reflexivity].
    rewrite <- Hok. apply forallb_ext. intros u. unfold row_top.
    destruct (row_scores u) as [s|]; cbn; [|reflexivity].
    destruct (topk_row s k); reflexivity.
  - intros [Hok ->]. exists (batch_top b k). split; [|reflexivity].
    apply (mapM_OK _ []). split; [|reflexivity].
    rewrite <- Hok. apply forallb_ext. intros u. unfold row_top.
    destruct (row_scores u) as [s|]; cbn; [|reflexivity].
    destruct (topk_row s k); reflexivity.
Qed.

Lemma gather_batch (b : batch) (k : nat) (is_hit : matrix bool) :
  forallb (fun u => is_ok (row_top u k)) b = true ->
  gather (grd_of b) (map (map fst) (batch_top b k)) = OK is_hit <->
  forallb (fun u => is_ok (row_hits u k)) b = true /\ is_hit = batch_hits b k.
Proof.
  intros Ht. unfold gather, grd_of, batch_top, batch_hits.
  rewrite map_map, zip_map_map, mapM_map. cbn [fst snd].
  rewrite (mapM_ext_Forall _ (fun u => row_hits u k)).
  2:{ apply forallb_Forall_true in Ht. eapply Forall_impl; [exact Ht|].
      intros u Hu. cbn in Hu. unfold row_hits, row_top in *.
      destruct (row_scores u) as [s|]; cbn in *; [|discriminate].
      destruct (topk_row s k); cbn in *; [reflexivity|discriminate]. }
  apply (mapM_OK _ []).
Qed.

(** The hit matrix of a batch for one [k], as [get_metrics] computes it. *)
Lemma hits_batch (b : batch) (k : nat) (is_hit : matrix bool) :
  forallb (fun u => is_ok (row_scores u)) b = true ->
  (torch_topk (batch_pred b) k ≫= fun vi => gather (grd_of b) (snd vi)) = OK is_hit <->
  forallb (fun u => is_ok (row_hits u k)) b = true /\ is_hit = batch_hits b k.
Proof.
  intros Hs. rewrite bind_OK_inv. split.
  - intros (vi & Hvi & Hg). apply torch_topk_batch in Hvi as [Ht ->]; [|exact Hs].
    cbn in Hg. apply gather_batch in Hg; assumption.
  - intros [Hh ->].
    assert (Ht : forallb (fun u => is_ok (row_top u k)) b = true).
    { apply forallb_Forall_true. apply forallb_Forall_true in Hh.
      eapply Forall_impl; [exact Hh|]. intros u. apply row_hits_top. }
    eexists. split; [apply torch_topk_batch; [exact Hs|split; [exact Ht|reflexivity]]|].
    cbn. apply gather_batch; [exact Ht|]. split; [exact Hh|reflexivity].
Qed.

Lemma view_rows_OK {A} (rows rows' : matrix A) (k : nat) :
  view_rows rows k = OK rows' <-> k ≠ 0 /\ rows' = rows.
Proof.
  unfold view_rows. destruct (decide (k = 0)) as [->|Hk].
  - split; [discriminate|intros [H _]; congruence].
  - split; [intros [= <-]; auto|intros [_ ->]; reflexivity].
Qed.

Lemma hits_ok_rows (b : batch) (k : nat) :
  hits_ok b k = true <-> k ≠ 0 /\ forallb (fun u => is_ok (row_hits u k)) b = true.
Proof.
  unfold hits_ok. rewrite andb_true_iff, negb_true_iff, Nat.eqb_neq. reflexivity.
Qed.

Lemma batch_ok_rows (topks : list nat) (b : batch) :
  batch_ok topks b = true
  <-> Forall (fun k => k ≠ 0) topks /\ forallb (row_ok topks) b = true.
Proof.
  unfold batch_ok. rewrite andb_true_iff, forallb_Forall_true.
  split; intros [Hz H]; (split; [|exact H]); eapply Forall_impl; try exact Hz;
    intros k; cbn; rewrite negb_true_iff, Nat.eqb_neq; auto.
Qed.

(** ** The aggregator, for every arithmetic and every pair of kernels *)

Section AggregatorFacts.
Context {num : Type}.
Variable py_zero : num.
Variable py_add : num -> num -> num.
Variable py_div : num -> Z -> num.
Variables kr kn : matrix Q -> matrix bool -> matrix bool -> nat -> num * Z.

Lemma batch_ok_scores (topks : list nat) (b : batch) :
  batch_ok topks b = true -> scores_ok b = true.
Proof.
  rewrite batch_ok_rows. unfold scores_ok. rewrite !forallb_Forall_true.
  intros [_ H]. eapply Forall_impl; [exact H|]. intros u. apply row_ok_scores.
Qed.

Lemma batch_ok_hits (topks : list nat) (b : batch) (k : nat) :
  batch_ok topks b = true -> k ∈ topks -> hits_ok b k = true.
Proof.
  rewrite batch_ok_rows, hits_ok_rows, !forallb_Forall_true.
  intros [Hz H] Hk. split; [exact (proj1 (Forall_forall _ _) Hz k Hk)|].
  eapply Forall_impl; [exact H|]. intros u Hu.
  exact (row_ok_hits topks u k Hu Hk).
Qed.

Lemma batch_ok_top100 (topks : list nat) (b : batch) :
  batch_ok topks b = true -> forallb (fun u => is_ok (row_top u 100)) b = true.
Proof.
  rewrite batch_ok_rows, !forallb_Forall_true.
  intros [_ H]. eapply Forall_impl; [exact H|]. intros u Hu.
  unfold row_ok in Hu. apply andb_true_iff in Hu as [_ Hu]. exact Hu.
Qed.

Lemma batch_ok_intro (topks : list nat) (b : batch) :
  (forall k, k ∈ topks -> hits_ok b k = true) ->
  forallb (fun u => is_ok (row_top u 100)) b = true ->
  batch_ok topks b = true.
Proof.
  rewrite batch_ok_rows, !forallb_Forall_true. intros Hh Ht. split.
  { apply Forall_forall. intros k Hk. exact (proj1 (proj1 (hits_ok_rows b k) (Hh k Hk))). }
  rewrite Forall_forall in *. intros u Hu. unfold row_ok.
  apply andb_true_iff. split; [|apply Ht, Hu].
  apply forallb_forall. intros k Hk. apply list_elem_of_In in Hk.
  destruct (proj1 (hits_ok_rows b k) (Hh k Hk)) as [_ Hr].
  rewrite forallb_Forall_true, Forall_forall in Hr.
  apply Hr, Hu.
Qed.

Lemma tmp_step_batch (b : batch) (t0 t : per_metric (gmap nat (num * Z))) (k : nat) :
  scores_ok b = true ->
  tmp_step kr kn (grd_of b) (batch_pred b) t0 k = OK t <->
  hits_ok b k = true
  /\ t = PerMetric (<[k := batch_res kr b k]> (recall t0))
                   (<[k := batch_res kn b k]> (ndcg t0)).
Proof.
  intros Hs. unfold tmp_step, batch_res. rewrite hits_ok_rows. split.
  - intros H. apply bind_OK_inv in H as (vi & Hvi & H).
    apply bind_OK_inv in H as (gathered & Hg & H).
    apply bind_OK_inv in H as (is_hit & Hview & [= <-]).
    apply view_rows_OK in Hview as [Hk ->].
    assert (Hh : (torch_topk (batch_pred b) k ≫= fun vi => gather (grd_of b) (snd vi))
                 = OK gathered) by (rewrite Hvi; exact Hg).
    apply hits_batch in Hh as [Hok ->]; [|exact Hs]. split; [split; assumption|reflexivity].
  - intros [[Hk Hok] ->].
    assert (Hh : (torch_topk (batch_pred b) k ≫= fun vi => gather (grd_of b) (snd vi))
                 = OK (batch_hits b k)).
    { apply hits_batch; [exact Hs|]. split; [exact Hok|reflexivity]. }
    apply bind_OK_inv in Hh as (vi & Hvi & Hg). rewrite Hvi. cbn. rewrite Hg. cbn.
    unfold view_rows. rewrite decide_False by exact Hk. reflexivity.
Qed.

Lemma tmp_fold_batch (b : batch) (topks : list nat) (t0 t : per_metric (gmap nat (num * Z))) :
  scores_ok b = true ->
  foldlM (tmp_step kr kn (grd_of b) (batch_pred b)) t0 topks = OK t ->
  Forall (fun k => hits_ok b k = true) topks
  /\ tmp_spec kr b topks (recall t0) (recall t)
  /\ tmp_spec kn b topks (ndcg t0) (ndcg t).
Proof.
  intros Hs. revert t0. induction topks as [|k topks IH]; intros t0 H.
  - cbn in H. injection H as <-. split; [constructor|].
    split; intros k; reflexivity.
  - cbn in H. apply bind_OK_inv in H as (t1 & H1 & H).
    apply tmp_step_batch in H1 as [Hk ->]; [|exact Hs].
    apply IH in H as (Hall & Hr & Hn). split; [constructor; assumption|].
    split; intros k'; [rewrite (Hr k')|rewrite (Hn k')]; cbn.
    + destruct (decide (k' ∈ topks)) as [Hin|Hin].
      * rewrite decide_True by (right; exact Hin). reflexivity.
      * destruct (decide (k = k')) as [->|Hne].
        -- rewrite decide_True by left. apply lookup_insert_eq.
        -- rewrite decide_False by (intros Hc; apply elem_of_cons in Hc as [->|]; contradiction).
           apply lookup_insert_ne. exact Hne.
    + destruct (decide (k' ∈ topks)) as [Hin|Hin].
      * rewrite decide_True by (right; exact Hin). reflexivity.
      * destruct (decide (k = k')) as [->|Hne].
        -- rewrite decide_True by left. apply lookup_insert_eq.
        -- rewrite decide_False by (intros Hc; apply elem_of_cons in Hc as [->|]; contradiction).
           apply lookup_insert_ne. exact Hne.
Qed.

Lemma tmp_fold_batch_ok (b : batch) (topks : list nat) (t0 : per_metric (gmap nat (num * Z))) :
  scores_ok b = true ->
  Forall (fun k => hits_ok b k = true) topks ->
  exists t, foldlM (tmp_step kr kn (grd_of b) (batch_pred b)) t0 topks = OK t.
Proof.
  intros Hs Hall. revert t0. induction Hall as [|k topks Hk _ IH]; intros t0.
  - exists t0. reflexivity.
  - cbn.
    assert (H1 : tmp_step kr kn (grd_of b) (batch_pred b) t0 k
                 = OK (PerMetric (<[k := batch_res kr b k]> (recall t0))
                                 (<[k := batch_res kn b k]> (ndcg t0)))).
    { apply tmp_step_batch; [exact Hs|]. split; [exact Hk|reflexivity]. }
    rewrite H1. cbn. apply IH.
Qed.

Lemma init_tmp_keyed (topks : list nat) :
  keyed topks (fun _ => (py_zero, 0%Z)) (init_tmp py_zero topks).
Proof.
  unfold init_tmp, keyed.
  assert (G : forall (l : list nat) (m : (gmap nat (num * Z))) k,
    foldl (fun m topk => <[topk := (py_zero, 0%Z)]> m) m l !! k
    = if decide (k ∈ l) then Some (py_zero, 0%Z) else m !! k).
  { induction l as [|x l IH]; intros m k; cbn.
    - reflexivity.
    - rewrite IH. destruct (decide (k ∈ l)) as [Hin|Hin].
      + rewrite decide_True by (right; exact Hin). reflexivity.
      + destruct (decide (x = k)) as [->|Hne].
        * rewrite decide_True by left. apply lookup_insert_eq.
        * rewrite decide_False by (intros Hc; apply elem_of_cons in Hc as [->|]; contradiction).
          apply lookup_insert_ne. exact Hne. }
  intros k. rewrite G. destruct (decide (k ∈ topks)); [reflexivity|apply lookup_empty].
Qed.

Lemma accumulate_keyed (topks : list nat) (e : nat -> num * Z)
    (kernel : matrix Q -> matrix bool -> matrix bool -> nat -> num * Z)
    (b : batch) (acc tmp : (gmap nat (num * Z))) :
  keyed topks e acc -> tmp_spec kernel b topks ∅ tmp ->
  exists acc', accumulate py_add acc tmp = OK acc'
    /\ keyed topks (fun k => add_res py_add (e k) (batch_res kernel b k)) acc'.
Proof.
  intros Hacc Htmp. unfold accumulate.
  destruct (decide (dom tmp ⊆ dom acc)) as [_|Hd].
  - eexists; split; [reflexivity|]. intros k.
    rewrite lookup_merge, Hacc, (Htmp k).
    destruct (decide (k ∈ topks)); [reflexivity|]. rewrite lookup_empty. reflexivity.
  - exfalso. apply Hd. intros k Hk. apply elem_of_dom in Hk as [x Hx].
    apply elem_of_dom. rewrite (Htmp k) in Hx. rewrite Hacc.
    destruct (decide (k ∈ topks)); [eauto|]. rewrite lookup_empty in Hx. discriminate.
Qed.
Lemma get_metrics_batch (topks : list nat) (er en : nat -> num * Z)
    (metrics : per_metric (gmap nat (num * Z))) (b : batch) :
  keyed topks er (recall metrics) -> keyed topks en (ndcg metrics) ->
  scores_ok b = true ->
  (forall m', get_metrics_with py_add kr kn metrics (grd_of b) (batch_pred b) topks = OK m' ->
     Forall (fun k => hits_ok b k = true) topks
     /\ keyed topks (fun k => add_res py_add (er k) (batch_res kr b k)) (recall m')
     /\ keyed topks (fun k => add_res py_add (en k) (batch_res kn b k)) (ndcg m'))
  /\ (Forall (fun k => hits_ok b k = true) topks ->
      exists m', get_metrics_with py_add kr kn metrics (grd_of b) (batch_pred b) topks = OK m').
Proof.
  intros Hr Hn Hs. unfold get_metrics_with. split.
  - intros m' H. apply bind_OK_inv in H as (tmp & Htmp & H).
    apply tmp_fold_batch in Htmp as (Hall & Htr & Htn); [|exact Hs].
    destruct (accumulate_keyed topks er kr b _ _ Hr Htr) as (r & Hacc & Hkr).
    destruct (accumulate_keyed topks en kn b _ _ Hn Htn) as (n & Hacc' & Hkn).
    cbn in Hacc, Hacc'. rewrite Hacc in H. cbn in H. rewrite Hacc' in H. cbn in H.
    injection H as <-. auto.
  - intros Hall.
    destruct (tmp_fold_batch_ok b topks (PerMetric ∅ ∅) Hs Hall) as (tmp & Htmp).
    rewrite Htmp. cbn.
    apply tmp_fold_batch in Htmp as (_ & Htr & Htn); [|exact Hs].
    destruct (accumulate_keyed topks er kr b _ _ Hr Htr) as (r & Hacc & _).
    destruct (accumulate_keyed topks en kn b _ _ Hn Htn) as (n & Hacc' & _).
    cbn in Hacc, Hacc'. rewrite Hacc. cbn. rewrite Hacc'. cbn. eauto.
Qed.

Lemma pass_step_spec (topks : list nat) (er en : nat -> num * Z)
    (st st' : pass_state) (b : batch) :
  keyed topks er (recall (tmp_metrics st)) -> keyed topks en (ndcg (tmp_metrics st)) ->
  pass_step py_add kr kn topks st b = OK st' ->
  batch_ok topks b = true
  /\ keyed topks (fun k => add_res py_add (er k) (batch_res kr b k)) (recall (tmp_metrics st'))
  /\ keyed topks (fun k => add_res py_add (en k) (batch_res kn b k)) (ndcg (tmp_metrics st'))
  /\ user_list st' = user_list st ++ [users_of b]
  /\ bundle_list st' = bundle_list st ++ [map (map fst) (batch_top b 100)]
  /\ score_list st' = score_list st ++ [map (map snd) (batch_top b 100)].
Proof.
  intros Hr Hn H. unfold pass_step in H.
  apply bind_OK_inv in H as (pred & Hpred & H).
  apply sub_mask_batch in Hpred as [Hs ->].
  apply bind_OK_inv in H as (m' & Hm & H).
  apply bind_OK_inv in H as (vi & Hvi & [= <-]).
  apply torch_topk_batch in Hvi as [Ht ->]; [|exact Hs].
  destruct (get_metrics_batch topks er en _ b Hr Hn Hs) as [Hspec _].
  destruct (Hspec _ Hm) as (Hall & Hkr & Hkn). cbn.
  split; [|auto 10]. apply batch_ok_intro; [|exact Ht].
  intros k Hk. rewrite Forall_forall in Hall. apply Hall, Hk.
Qed.

Lemma pass_step_ok (topks : list nat) (er en : nat -> num * Z)
    (st : pass_state) (b : batch) :
  keyed topks er (recall (tmp_metrics st)) -> keyed topks en (ndcg (tmp_metrics st)) ->
  batch_ok topks b = true ->
  exists st', pass_step py_add kr kn topks st b = OK st'.
Proof.
  intros Hr Hn Hb. unfold pass_step.
  pose proof (batch_ok_scores topks b Hb) as Hs.
  assert (Hpred : sub_mask b = OK (batch_pred b)).
  { apply sub_mask_batch. split; [exact Hs|reflexivity]. }
  rewrite Hpred. cbn.
  destruct (get_metrics_batch topks er en _ b Hr Hn Hs) as [_ Hok].
  destruct Hok as (m' & Hm).
  { apply Forall_forall. intros k Hk. eapply batch_ok_hits; eassumption. }
  rewrite Hm. cbn.
  assert (Hvi : torch_topk (batch_pred b) 100
                = OK (map (map snd) (batch_top b 100), map (map fst) (batch_top b 100))).
  { apply torch_topk_batch; [exact Hs|]. split; [|reflexivity].
    eapply batch_ok_top100, Hb. }
  rewrite Hvi. cbn. eauto.
Qed.

Lemma pass_loop_spec (topks : list nat) (dataloader : list batch) :
  forall (er en : nat -> num * Z) (st0 st : pass_state),
  keyed topks er (recall (tmp_metrics st0)) -> keyed topks en (ndcg (tmp_metrics st0)) ->
  foldlM (pass_step py_add kr kn topks) st0 dataloader = OK st ->
  forallb (batch_ok topks) dataloader = true
  /\ keyed topks (fun k => foldl (add_res py_add) (er k)
                             (map (fun b => batch_res kr b k) dataloader))
           (recall (tmp_metrics st))
  /\ keyed topks (fun k => foldl (add_res py_add) (en k)
                             (map (fun b => batch_res kn b k) dataloader))
           (ndcg (tmp_metrics st))
  /\ user_list st = user_list st0 ++ map users_of dataloader
  /\ bundle_list st
     = bundle_list st0 ++ map (fun b => map (map fst) (batch_top b 100)) dataloader
  /\ score_list st
     = score_list st0 ++ map (fun b => map (map snd) (batch_top b 100)) dataloader.
Proof.
  induction dataloader as [|b dl IH]; intros er en st0 st Hr Hn H.
  - cbn in H. injection H as <-. cbn. rewrite !app_nil_r. auto 10.
  - cbn in H. apply bind_OK_inv in H as (st1 & H1 & H).
    destruct (pass_step_spec topks er en _ _ _ Hr Hn H1) as (Hb & Hr1 & Hn1 & Hu & Hbl & Hsl).
    destruct (IH _ _ _ _ Hr1 Hn1 H) as (Hdl & Hr' & Hn' & Hu' & Hbl' & Hsl').
    cbn. rewrite Hb, Hdl. split; [reflexivity|].
    split; [exact Hr'|]. split; [exact Hn'|].
    rewrite Hu', Hbl', Hsl', Hu, Hbl, Hsl, <- !app_assoc. auto.
Qed.

Lemma pass_loop_ok (topks : list nat) (dataloader : list batch) :
  forall (er en : nat -> num * Z) (st0 : pass_state),
  keyed topks er (recall (tmp_metrics st0)) -> keyed topks en (ndcg (tmp_metrics st0)) ->
  forallb (batch_ok topks) dataloader = true ->
  exists st, foldlM (pass_step py_add kr kn topks) st0 dataloader = OK st.
Proof.
  induction dataloader as [|b dl IH]; intros er en st0 Hr Hn H.
  - exists st0. reflexivity.
  - cbn in H. apply andb_true_iff in H as [Hb Hdl].
    destruct (pass_step_ok topks er en st0 b Hr Hn Hb) as (st1 & H1).
    cbn. rewrite H1. cbn.
    destruct (pass_step_spec topks er en _ _ _ Hr Hn H1) as (_ & Hr1 & Hn1 & _).
    exact (IH _ _ st1 Hr1 Hn1 Hdl).
Qed.

Lemma finalize_keyed (topks : list nat) (e : nat -> num * Z) (acc : gmap nat (num * Z)) :
  keyed topks e acc ->
  (forall k, k ∈ topks -> snd (e k) ≠ 0%Z) ->
  exists m, finalize py_div acc = OK m
    /\ forall k, m !! k = if decide (k ∈ topks)
                          then Some (py_div (fst (e k)) (snd (e k))) else None.
Proof.
  intros Hk Hnz. unfold finalize.
  destruct (decide (map_Forall _ acc)) as [_|Hf].
  - eexists; split; [reflexivity|]. intros k. rewrite lookup_fmap, (Hk k).
    destruct (decide (k ∈ topks)); reflexivity.
  - exfalso. apply Hf. intros k res Hres. rewrite (Hk k) in Hres.
    destruct (decide (k ∈ topks)) as [Hin|]; [|discriminate].
    injection Hres as <-. apply Hnz, Hin.
Qed.

Lemma finalize_zero (topks : list nat) (e : nat -> num * Z) (acc : gmap nat (num * Z)) (k : nat) :
  keyed topks e acc -> k ∈ topks -> snd (e k) = 0%Z ->
  finalize py_div acc = Raise ZeroDivisionError.
Proof.
  intros Hk Hin Hz. unfold finalize.
  destruct (decide (map_Forall _ acc)) as [Hf|_]; [|reflexivity].
  exfalso. apply (Hf k (e k)); [|exact Hz].
  rewrite (Hk k), decide_True by exact Hin. reflexivity.
Qed.

Lemma finalize_OK_inv (topks : list nat) (e : nat -> num * Z) (acc : gmap nat (num * Z))
    (m : gmap nat num) :
  keyed topks e acc -> finalize py_div acc = OK m ->
  (forall k, k ∈ topks -> snd (e k) ≠ 0%Z)
  /\ forall k, m !! k = if decide (k ∈ topks)
                        then Some (py_div (fst (e k)) (snd (e k))) else None.
Proof.
  intros Hk H.
  assert (Hnz : forall k, k ∈ topks -> snd (e k) ≠ 0%Z).
  { intros k Hin Hz. rewrite (finalize_zero topks e acc k Hk Hin Hz) in H. discriminate. }
  split; [exact Hnz|].
  destruct (finalize_keyed topks e acc Hk Hnz) as (m' & Hm' & Hl).
  rewrite Hm' in H. injection H as <-. exact Hl.
Qed.

Lemma torch_cat_map {A B} (f : B -> list A) (l : list B) :
  l ≠ [] -> torch_cat (map f l) = OK (concat (map f l)).
Proof. destruct l; [contradiction|reflexivity]. Qed.

Lemma test_with_OK_inv (topks : list nat) (dataloader : list batch) m users bundles scores :
  test_with py_zero py_add py_div kr kn dataloader topks = OK (m, users, bundles, scores) ->
  pass_runs py_zero py_add kr kn topks dataloader /\ pass_result py_zero py_add py_div kr kn topks dataloader m
  /\ users = concat (map users_of dataloader)
  /\ bundles = concat (map (fun b => map (map fst) (batch_top b 100)) dataloader)
  /\ scores = concat (map (fun b => map (map snd) (batch_top b 100)) dataloader).
Proof.
  unfold test_with. intros H.
  apply bind_OK_inv in H as (st & Hst & H).
  destruct (pass_loop_spec topks dataloader _ _ (pass_init py_zero topks) st
              (init_tmp_keyed topks) (init_tmp_keyed topks) Hst)
    as (Hdl & Hr & Hn & Hu & Hb & Hs).
  cbn in Hu, Hb, Hs.
  assert (Hne : dataloader ≠ []).
  { intros ->. rewrite Hu in H. cbn in H. discriminate. }
  rewrite Hu, Hb, Hs, !torch_cat_map in H by exact Hne. cbn in H.
  apply bind_OK_inv in H as (r & Hfr & H).
  apply bind_OK_inv in H as (n & Hfn & [= <- <- <- <-]).
  apply (finalize_OK_inv topks) with (e := fun k => entry_after py_zero py_add kr dataloader k)
    in Hfr as [Hzr Hlr]; [|exact Hr].
  apply (finalize_OK_inv topks) with (e := fun k => entry_after py_zero py_add kn dataloader k)
    in Hfn as [Hzn Hln]; [|exact Hn].
  unfold pass_runs, pass_result. cbn. auto 10.
Qed.

Lemma test_with_OK (topks : list nat) (dataloader : list batch) :
  pass_runs py_zero py_add kr kn topks dataloader ->
  exists m, test_with py_zero py_add py_div kr kn dataloader topks
            = OK (m, concat (map users_of dataloader),
                  concat (map (fun b => map (map fst) (batch_top b 100)) dataloader),
                  concat (map (fun b => map (map snd) (batch_top b 100)) dataloader))
    /\ pass_result py_zero py_add py_div kr kn topks dataloader m.
Proof.
  intros (Hdl & Hne & Hzr & Hzn). unfold test_with.
  destruct (pass_loop_ok topks dataloader _ _ (pass_init py_zero topks)
              (init_tmp_keyed topks) (init_tmp_keyed topks) Hdl)
    as (st & Hst).
  rewrite Hst. cbn.
  destruct (pass_loop_spec topks dataloader _ _ (pass_init py_zero topks) st
              (init_tmp_keyed topks) (init_tmp_keyed topks) Hst)
    as (_ & Hr & Hn & Hu & Hb & Hs).
  cbn in Hu, Hb, Hs.
  rewrite Hu, Hb, Hs, !torch_cat_map by exact Hne. cbn.
  destruct (finalize_keyed topks _ _ Hr Hzr) as (r & Hfr & Hlr).
  destruct (finalize_keyed topks _ _ Hn Hzn) as (n & Hfn & Hln).
  rewrite Hfr. cbn. rewrite Hfn. cbn.
  exists (PerMetric r n). split; [reflexivity|]. split; assumption.
Qed.

Lemma test_with_zero_division (topks : list nat) (dataloader : list batch) (k : nat) :
  forallb (batch_ok topks) dataloader = true -> dataloader ≠ [] -> k ∈ topks ->
  snd (entry_after py_zero py_add kr dataloader k) = 0%Z
  \/ snd (entry_after py_zero py_add kn dataloader k) = 0%Z ->
  test_with py_zero py_add py_div kr kn dataloader topks = Raise ZeroDivisionError.
Proof.
  intros Hdl Hne Hk Hz. unfold test_with.
  destruct (pass_loop_ok topks dataloader _ _ (pass_init py_zero topks)
              (init_tmp_keyed topks) (init_tmp_keyed topks) Hdl)
    as (st & Hst).
  rewrite Hst. cbn.
  destruct (pass_loop_spec topks dataloader _ _ (pass_init py_zero topks) st
              (init_tmp_keyed topks) (init_tmp_keyed topks) Hst)
    as (_ & Hr & Hn & Hu & Hb & Hs).
  cbn in Hu, Hb, Hs.
  rewrite Hu, Hb, Hs, !torch_cat_map by exact Hne. cbn.
  destruct (finalize py_div (recall (tmp_metrics st))) as [r|e] eqn:Hfr.
  - cbn. destruct Hz as [Hz|Hz].
    + rewrite (finalize_zero topks _ _ k Hr Hk Hz) in Hfr. discriminate.
    + rewrite (finalize_zero topks _ _ k Hn Hk Hz). reflexivity.
  - cbn. unfold finalize in Hfr. destruct (decide _) in Hfr; [discriminate|].
    injection Hfr as <-. reflexivity.
Qed.

Lemma entry_after_snd (kernel : matrix Q -> matrix bool -> matrix bool -> nat -> num * Z)
    (dataloader : list batch) (k : nat) :
  snd (entry_after py_zero py_add kernel dataloader k)
  = foldr Z.add 0%Z (map (fun b => snd (batch_res kernel b k)) dataloader).
Proof.
  unfold entry_after.
  assert (G : forall (l : list batch) (a : num * Z),
    snd (foldl (add_res py_add) a (map (fun b => batch_res kernel b k) l))
    = (snd a + foldr Z.add 0%Z (map (fun b => snd (batch_res kernel b k)) l))%Z).
  { induction l as [|b l IH]; intros a; cbn.
    - lia.
    - rewrite IH. cbn. lia. }
  rewrite G. cbn. lia.
Qed.

End AggregatorFacts.

(** ** The exact kernels on a batch *)

Lemma Rsum_cons (x : R) (l : list R) : Rsum (x :: l) = (x + Rsum l)%R.
Proof. reflexivity. Qed.

Lemma Rsum_app (l1 l2 : list R) : Rsum (l1 ++ l2) = (Rsum l1 + Rsum l2)%R.
Proof.
  induction l1 as [|x l1 IH].
  - change (Rsum []) with 0%R. cbn [app]. lra.
  - cbn [app]. rewrite !Rsum_cons, IH. lra.
Qed.


Lemma Rsum_nonneg (l : list R) : Forall (fun x => (0 <= x)%R) l -> (0 <= Rsum l)%R.
Proof.
  induction 1 as [|x l Hx _ IH].
  - change (Rsum []) with 0%R. lra.
  - rewrite Rsum_cons. lra.
Qed.

Lemma zip_with_map_map {A B C D} (f : B -> C -> D) (g : A -> B) (h : A -> C) (l : list A) :
  zip_with f (map g l) (map h l) = map (fun x => f (g x) (h x)) l.
Proof. induction l as [|x l IH]; [reflexivity|]. cbn. rewrite IH. reflexivity. Qed.

Lemma count_zero_pos (b : batch) :
  (Z.of_nat (length b) - Z.of_nat (count_zero (map row_sum (grd_of b))))%Z
  = Z.of_nat (count_pos b).
Proof.
  unfold count_zero, count_pos, grd_of, num_pos_of. rewrite map_map.
  induction b as [|u b IH]; [reflexivity|].
  cbn [map List.filter].
  destruct (Nat.eqb_spec (row_sum (grd_row u)) 0) as [Hz|Hz];
    destruct (Nat.ltb_spec 0 (row_sum (grd_row u))) as [Hp|Hp]; cbn [length]; lia.
Qed.

Lemma count_zero_pos_at (k : nat) (b : batch) :
  (Z.of_nat (length b)
   - Z.of_nat (count_zero (map (fun row => clamp 0 k (row_sum row)) (grd_of b))))%Z
  = Z.of_nat (count_pos_at k b).
Proof.
  unfold count_zero, count_pos_at, grd_of, num_pos_of. rewrite map_map.
  induction b as [|u b IH]; [reflexivity|].
  cbn [map List.filter].
  destruct (Nat.eqb_spec (clamp 0 k (row_sum (grd_row u))) 0) as [Hz|Hz];
    destruct (Nat.ltb_spec 0 (clamp 0 k (row_sum (grd_row u)))) as [Hp|Hp]; cbn [length]; lia.
Qed.

Lemma length_batch_pred (b : batch) : length (batch_pred b) = length b.
Proof. unfold batch_pred. apply length_map. Qed.

Lemma batch_res_recall (b : batch) (k : nat) :
  batch_res get_recall b k
  = (Rsum (map (fun u => user_recall u k) b), Z.of_nat (count_pos b)).
Proof.
  unfold batch_res, get_recall. rewrite length_batch_pred, count_zero_pos.
  f_equal. unfold batch_hits, grd_of. rewrite !map_map, zip_with_map_map.
  reflexivity.
Qed.

Lemma batch_res_ndcg (b : batch) (k : nat) :
  batch_res get_ndcg b k
  = (Rsum (map (fun u => user_ndcg u k) b), Z.of_nat (count_pos_at k b)).
Proof.
  unfold batch_res, get_ndcg. rewrite length_batch_pred, count_zero_pos_at.
  f_equal. unfold batch_hits, grd_of. rewrite !map_map, zip_with_map_map.
  reflexivity.
Qed.

Lemma count_pos_app (b1 b2 : batch) : count_pos (b1 ++ b2) = count_pos b1 + count_pos b2.
Proof. unfold count_pos. rewrite List.filter_app, length_app. reflexivity. Qed.

Lemma count_pos_at_app (k : nat) (b1 b2 : batch) :
  count_pos_at k (b1 ++ b2) = count_pos_at k b1 + count_pos_at k b2.
Proof. unfold count_pos_at. rewrite List.filter_app, length_app. reflexivity. Qed.

Lemma foldl_add_res_exact (l : list (R * Z)) (a : R * Z) :
  foldl (add_res Rplus) a l
  = ((fst a + Rsum (map fst l))%R, (snd a + foldr Z.add 0%Z (map snd l))%Z).
Proof.
  revert a. induction l as [|x l IH]; intros [r z].
  - cbn [foldl map fst snd foldr]. change (Rsum []) with 0%R. f_equal; [lra|lia].
  - cbn [foldl map]. rewrite IH. unfold add_res. cbn [fst snd foldr].
    rewrite Rsum_cons. f_equal; [lra|lia].
Qed.

Lemma Rsum_map_concat {A} (f : A -> R) (ls : list (list A)) :
  Rsum (map (fun l => Rsum (map f l)) ls) = Rsum (map f (concat ls)).
Proof.
  induction ls as [|l ls IH]; [reflexivity|].
  cbn [map concat]. rewrite map_app, Rsum_app, Rsum_cons, IH. reflexivity.
Qed.

Lemma Zsum_map_concat {A} (f : list A -> nat) (ls : list (list A)) :
  (forall l1 l2, f (l1 ++ l2) = f l1 + f l2) -> f [] = 0 ->
  foldr Z.add 0%Z (map (fun l => Z.of_nat (f l)) ls) = Z.of_nat (f (concat ls)).
Proof.
  intros Happ Hnil. induction ls as [|l ls IH].
  - cbn. rewrite Hnil. reflexivity.
  - cbn [map concat foldr]. rewrite IH, Happ. lia.
Qed.

(** The accumulator entries of the exact model after a list of batches: the
    sum over all users of the summand, and the number of users counted. *)
Lemma entry_after_recall (dataloader : list batch) (k : nat) :
  entry_after 0%R Rplus get_recall dataloader k
  = (Rsum (map (fun u => user_recall u k) (concat dataloader)),
     Z.of_nat (count_pos (concat dataloader))).
Proof.
  unfold entry_after. rewrite foldl_add_res_exact. cbn [fst snd].
  rewrite Rplus_0_l, Z.add_0_l.
  rewrite (map_ext _ _ (fun b => batch_res_recall b k)), !map_map. cbn [fst snd].
  rewrite Rsum_map_concat, (Zsum_map_concat count_pos); [reflexivity| |reflexivity].
  apply count_pos_app.
Qed.

Lemma entry_after_ndcg (dataloader : list batch) (k : nat) :
  entry_after 0%R Rplus get_ndcg dataloader k
  = (Rsum (map (fun u => user_ndcg u k) (concat dataloader)),
     Z.of_nat (count_pos_at k (concat dataloader))).
Proof.
  unfold entry_after. rewrite foldl_add_res_exact. cbn [fst snd].
  rewrite Rplus_0_l, Z.add_0_l.
  rewrite (map_ext _ _ (fun b => batch_res_ndcg b k)), !map_map. cbn [fst snd].
  rewrite Rsum_map_concat, (Zsum_map_concat (count_pos_at k)); [reflexivity| |reflexivity].
  apply count_pos_at_app.
Qed.

(** ** Ranking *)

Lemma insert_desc_perm (x : nat * Q) (l : list (nat * Q)) : insert_desc x l ≡ₚ x :: l.
Proof.
  induction l as [|y l IH]; cbn; [reflexivity|].
  destruct (Qle_bool (snd y) (snd x)); [reflexivity|].
  rewrite IH. apply perm_swap.
Qed.

Lemma sort_desc_perm (l : list (nat * Q)) : sort_desc l ≡ₚ l.
Proof.
  induction l as [|x l IH]; cbn; [reflexivity|].
  rewrite insert_desc_perm, IH. reflexivity.
Qed.

Lemma insert_desc_sorted (x : nat * Q) (l : list (nat * Q)) :
  StronglySorted score_ge l -> StronglySorted score_ge (insert_desc x l).
Proof.
  induction 1 as [|y l Hl IH Hy]; cbn.
  - repeat constructor.
  - destruct (Qle_bool (snd y) (snd x)) eqn:E.
    + apply Qle_bool_iff in E. constructor; [constructor; assumption|].
      constructor; [exact E|].
      eapply Forall_impl; [exact Hy|]. intros z Hz. unfold score_ge in *.
      eapply Qle_trans; eassumption.
    + constructor; [exact IH|].
      rewrite insert_desc_perm. constructor; [|exact Hy].
      unfold score_ge. destruct (Qlt_le_dec (snd x) (snd y)) as [Hlt|Hle].
      * apply Qlt_le_weak, Hlt.
      * apply Qle_bool_iff in Hle. congruence.
Qed.

Lemma sort_desc_sorted (l : list (nat * Q)) : StronglySorted score_ge (sort_desc l).
Proof.
  induction l as [|x l IH]; cbn; [constructor|]. apply insert_desc_sorted, IH.
Qed.

Lemma StronglySorted_app_ge {A} (R : A -> A -> Prop) (l1 l2 : list A) :
  StronglySorted R (l1 ++ l2) -> forall x y, x ∈ l1 -> y ∈ l2 -> R x y.
Proof.
  induction l1 as [|z l1 IH]; intros H x y Hx Hy.
  - inversion Hx.
  - cbn in H. inversion H as [|? ? Hs Hall]; subst.
    apply elem_of_cons in Hx as [->|Hx].
    + rewrite Forall_forall in Hall. apply Hall, elem_of_app. right. exact Hy.
    + apply IH; assumption.
Qed.

Lemma enumerate_fst {A} (l : list A) : map fst (enumerate l) = seq 0 (length l).
Proof.
  unfold enumerate. generalize 0. induction l as [|x l IH]; intros o; [reflexivity|].
  cbn. rewrite IH. reflexivity.
Qed.

Lemma enumerate_lookup {A} (l : list A) (i : nat) (x : A) :
  (i, x) ∈ enumerate l -> l !! i = Some x.
Proof.
  unfold enumerate. intros H. apply list_elem_of_lookup_1 in H as [p Hp].
  apply lookup_zip_with_Some in Hp as (j & y & [= -> ->] & Hj & Hy).
  apply lookup_seq in Hj as [-> _]. exact Hy.
Qed.

Lemma ranking_perm (row : list Q) : ranking row ≡ₚ enumerate row.
Proof. apply sort_desc_perm. Qed.

Lemma ranking_fst_perm (row : list Q) : map fst (ranking row) ≡ₚ seq 0 (length row).
Proof. rewrite <- enumerate_fst. apply Permutation_map, ranking_perm. Qed.

Lemma length_ranking (row : list Q) : length (ranking row) = length row.
Proof.
  rewrite <- (length_map fst), (Permutation_length (ranking_fst_perm row)).
  apply length_seq.
Qed.

Lemma ranking_NoDup (row : list Q) : NoDup (map fst (ranking row)).
Proof. rewrite ranking_fst_perm. apply NoDup_ListNoDup, List.seq_NoDup. Qed.

Lemma NoDup_take {A} (l : list A) (k : nat) : NoDup l -> NoDup (take k l).
Proof.
  intros H. rewrite <- (take_drop k l) in H. apply NoDup_app in H as [H _]. exact H.
Qed.

(** The columns [torch.topk] selects. *)
Lemma row_top_inv (u : user_row) (k : nat) (cols : list nat) :
  row_top u k = OK cols ->
  exists s, row_scores u = OK s /\ k <= length s
            /\ cols = map fst (take k (ranking s)).
Proof.
  unfold row_top. intros H. apply bind_OK_inv in H as (s & Hs & H).
  apply bind_OK_inv in H as (r & Hr & [= <-]).
  unfold topk_row in Hr. destruct (decide (k <= length s)) as [Hk|]; [|discriminate].
  injection Hr as <-. eauto.
Qed.

Lemma row_scores_inv (u : user_row) (s : list Q) :
  row_scores u = OK s ->
  (length (pred_row u) = length (mask_row u) \/ length (mask_row u) = 1)
  /\ length s = length (pred_row u)
  /\ forall j v, s !! j = Some v ->
       exists sj m, pred_row u !! j = Some sj /\ mask_entry u j = Some m
                    /\ v = f32_sub sj (mask_penalty * b2q m).
Proof.
  unfold row_scores, sub_mask_row, mask_entry. intros H.
  destruct (decide (length (pred_row u) = length (mask_row u))) as [Hl|Hl].
  - injection H as <-. split; [left; exact Hl|]. split.
    + rewrite length_zip_with. lia.
    + intros j v Hv. apply lookup_zip_with_Some in Hv as (sj & m & -> & Hsj & Hm). eauto.
  - destruct (mask_row u) as [|m [|m' mask]]; try discriminate.
    injection H as <-. split; [right; reflexivity|]. split.
    + apply length_map.
    + intros j v Hv. rewrite list_lookup_fmap in Hv.
      destruct (pred_row u !! j) as [sj|]; [|discriminate].
      injection Hv as <-. eauto.
Qed.

Lemma row_top_NoDup (u : user_row) (k : nat) (cols : list nat) :
  row_top u k = OK cols -> NoDup cols /\ length cols = k
  /\ forall c, c ∈ cols -> c < length (pred_row u).
Proof.
  intros H. apply row_top_inv in H as (s & Hs & Hk & ->).
  apply row_scores_inv in Hs as (_ & Hlen & _).
  split; [|split].
  - rewrite <- firstn_map. apply NoDup_take, ranking_NoDup.
  - rewrite length_map, length_take, length_ranking. lia.
  - intros c Hc. rewrite <- firstn_map in Hc.
    apply elem_of_take in Hc as (i & Hi & _). apply list_elem_of_lookup_2 in Hi.
    rewrite ranking_fst_perm in Hi. apply list_elem_of_In, in_seq in Hi. lia.
Qed.

(** *** Counting the marked columns *)

Lemma count_seq_nth (l : list bool) : forall o,
  length (List.filter (fun i => nth (i - o) l false) (seq o (length l))) = row_sum l.
Proof.
  induction l as [|b l IH]; intros o; [reflexivity|].
  change (row_sum (b :: l)) with (if b then S (row_sum l) else row_sum l).
  cbn [length seq List.filter]. rewrite Nat.sub_diag. cbn [nth].
  rewrite (List.filter_ext_in _ (fun i => nth (i - S o) l false)).
  - destruct b; cbn [length]; rewrite IH; reflexivity.
  - intros i Hi. apply in_seq in Hi.
    replace (i - o) with (S (i - S o)) by lia. reflexivity.
Qed.

Lemma count_marked (l : list bool) :
  length (List.filter (fun i => nth i l false) (seq 0 (length l))) = row_sum l.
Proof.
  rewrite <- (count_seq_nth l 0). f_equal. apply List.filter_ext. intros i.
  rewrite Nat.sub_0_r. reflexivity.
Qed.

Lemma filter_all {A} (p : A -> bool) (l : list A) :
  (forall x, x ∈ l -> p x = true) -> List.filter p l = l.
Proof.
  induction l as [|x l IH]; intros H; [reflexivity|].
  cbn. rewrite (H x) by left. rewrite IH; [reflexivity|].
  intros y Hy. apply H. right. exact Hy.
Qed.

Lemma filter_has {A} (p : A -> bool) (l : list A) (x : A) :
  x ∈ l -> p x = true -> 1 <= length (List.filter p l).
Proof.
  intros Hx Hp. induction l as [|y l IH]; [inversion Hx|].
  cbn [List.filter]. apply elem_of_cons in Hx as [<-|Hx].
  - rewrite Hp. cbn [length]. lia.
  - specialize (IH Hx). destruct (p y); cbn [length]; lia.
Qed.

Lemma length_filter_map {A B} (p : B -> bool) (f : A -> B) (l : list A) :
  length (List.filter p (map f l)) = length (List.filter (fun x => p (f x)) l).
Proof.
  induction l as [|x l IH]; [reflexivity|]. cbn. destruct (p (f x)); cbn; rewrite IH; reflexivity.
Qed.

(** ** Masking *)

(** C5, as the code has it: when the train mask has the shape of the
    scores, the user has at least K bundles not seen in training and the
    masked score of every seen bundle, rounded as binary32 rounds it, is
    below the score of every unseen one, none of the K selected columns is a
    seen bundle. *)
Theorem topk_excludes_seen (u : user_row) (k : nat) (s : list Q) (cols : list nat) :
  row_scores u = OK s ->
  row_top u k = OK cols ->
  length (mask_row u) = length (pred_row u) ->
  k + row_sum (mask_row u) <= length (mask_row u) ->
  (forall i j vi vj,
     mask_row u !! i = Some true -> mask_row u !! j = Some false ->
     s !! i = Some vi -> s !! j = Some vj ->
     (vi < vj)%Q) ->
  forall c, c ∈ cols -> mask_row u !! c = Some false.
Proof.
  intros Hs Htop Hshape Hk Hgap c Hc.
  destruct (row_top_NoDup u k cols Htop) as (_ & _ & Hrange).
  apply row_top_inv in Htop as (s' & Hs' & Hks & ->).
  rewrite Hs in Hs'. injection Hs' as <-.
  apply row_scores_inv in Hs as (_ & Hslen & _).
  destruct (mask_row u !! c) as [[|]|] eqn:Hmc; [|reflexivity|].
  2:{ apply lookup_ge_None in Hmc. specialize (Hrange c Hc). lia. }
  exfalso.
  apply list_elem_of_In, in_map_iff in Hc as ([c' v] & Hcv & Hin). cbn in Hcv. subst c'.
  apply list_elem_of_In in Hin.
  set (pm := fun x : nat * Q => nth (fst x) (mask_row u) false).
  assert (Hv : s !! c = Some v).
  { assert (Hr : (c, v) ∈ ranking s).
    { rewrite <- (take_drop k (ranking s)). apply elem_of_app. left. exact Hin. }
    rewrite ranking_perm in Hr. apply enumerate_lookup, Hr. }
  assert (HD : forall x, x ∈ drop k (ranking s) -> pm x = true).
  { intros [j vj] Hj. unfold pm. cbn [fst].
    assert (Hge : score_ge (c, v) (j, vj)).
    { eapply (StronglySorted_app_ge score_ge (take k (ranking s)) (drop k (ranking s)));
        [|exact Hin|exact Hj].
      rewrite take_drop. apply sort_desc_sorted. }
    assert (Hr : (j, vj) ∈ ranking s).
    { rewrite <- (take_drop k (ranking s)). apply elem_of_app. right. exact Hj. }
    rewrite ranking_perm in Hr. apply enumerate_lookup in Hr.
    destruct (mask_row u !! j) as [m|] eqn:Hm.
    - rewrite (nth_lookup_Some _ _ _ _ Hm). destruct m; [reflexivity|]. exfalso.
      specialize (Hgap c j v vj Hmc Hm Hv Hr).
      unfold score_ge in Hge. cbn [snd] in Hge. lra.
    - exfalso. apply lookup_ge_None in Hm. apply lookup_lt_Some in Hr. lia. }
  assert (Hcount : length (List.filter pm (ranking s)) = row_sum (mask_row u)).
  { unfold pm. rewrite <- (length_filter_map (fun i => nth i (mask_row u) false) fst).
    rewrite (length_filter_perm _ _ _ (ranking_fst_perm s)).
    replace (length s) with (length (mask_row u)) by lia. apply count_marked. }
  rewrite <- (take_drop k (ranking s)), List.filter_app, length_app in Hcount.
  rewrite (filter_all pm (drop k (ranking s)) HD), length_drop, length_ranking in Hcount.
  assert (1 <= length (List.filter pm (take k (ranking s)))).
  { eapply filter_has; [exact Hin|]. unfold pm. cbn [fst].
    apply nth_lookup_Some, Hmc. }
  lia.
Qed.

Lemma topk_excludes_seen_witness :
  row_top mostly_seen_user 1 = OK [2] /\ mask_row mostly_seen_user !! 2 = Some false.
Proof.
  split; [vm_compute; reflexivity|].
  apply (topk_excludes_seen mostly_seen_user 1
           [(-99999992 # 1)%Q; (-100000000 # 1)%Q; (3 # 1)%Q] [2]); [| | | | |left].
  - vm_compute. reflexivity.
  - vm_compute. reflexivity.
  - reflexivity.
  - vm_compute. lia.
  - intros i j vi vj Hi Hj Hvi Hvj.
    destruct i as [|[|[|i]]]; cbn in Hi, Hvi; try discriminate;
      destruct j as [|[|[|j]]]; cbn in Hj, Hvj; try discriminate;
      injection Hvi as <-; injection Hvj as <-; vm_compute; reflexivity.
Defined.

(** C5 as stated fails: a user with all bundles but one seen has a seen
    bundle among the top 2, and a seen bundle scoring 3e8 stays first.  Below
    the penalty, rounding can still put a seen bundle level with an unseen
    one: 5 - 1e8 is -99999992 in binary32. *)
Lemma topk_selects_seen :
  row_top mostly_seen_user 2 = OK [2; 0]
  /\ mask_row mostly_seen_user !! 0 = Some true
  /\ row_top high_score_user 1 = OK [0]
  /\ mask_row high_score_user !! 0 = Some true
  /\ row_scores rounded_level_user = OK [(-99999992 # 1)%Q; (-99999992 # 1)%Q]
  /\ mask_row rounded_level_user = [true; false].
Proof. repeat split; vm_compute; reflexivity. Qed.

(** ** Logarithms and discounted gains *)

Lemma ln2_pos : (0 < ln 2)%R.
Proof. pose proof ln_lt_2. lra. Qed.

Lemma log2_pos (x : R) : (1 < x)%R -> (0 < log2 x)%R.
Proof.
  intros Hx. unfold log2. apply Rdiv_lt_0_compat; [|apply ln2_pos].
  rewrite <- ln_1. apply ln_increasing; lra.
Qed.

Lemma log2_increasing (x y : R) : (0 < x)%R -> (x < y)%R -> (log2 x < log2 y)%R.
Proof.
  intros Hx Hxy. unfold log2, Rdiv.
  apply Rmult_lt_compat_r; [apply Rinv_0_lt_compat, ln2_pos|].
  apply ln_increasing; assumption.
Qed.

Lemma log2_2 : log2 2 = 1%R.
Proof. unfold log2. field. pose proof ln2_pos. lra. Qed.

Lemma INR_ge_2 (r : nat) : 2 <= r -> (2 <= INR r)%R.
Proof. intros H. apply le_INR in H. cbn in H. lra. Qed.

Lemma log2_rank_pos (r : nat) : 2 <= r -> (0 < log2 (INR r))%R.
Proof. intros H. apply log2_pos. pose proof (INR_ge_2 r H). lra. Qed.

Lemma weight_pos (r : nat) : 2 <= r -> (0 < / log2 (INR r))%R.
Proof. intros H. apply Rinv_0_lt_compat, log2_rank_pos, H. Qed.

Lemma weight_decreasing (r : nat) : 2 <= r -> (/ log2 (INR (S r)) < / log2 (INR r))%R.
Proof.
  intros H. apply Rinv_lt_contravar.
  - apply Rmult_lt_0_compat; apply log2_rank_pos; lia.
  - apply log2_increasing; [pose proof (INR_ge_2 r H); lra|].
    rewrite S_INR. lra.
Qed.

Lemma b2r_nonneg (b : bool) : (0 <= b2r b)%R.
Proof. destruct b; cbn; lra. Qed.

Lemma dcg_at_nonneg (hit : list bool) : forall r, 2 <= r -> (0 <= dcg_at r hit)%R.
Proof.
  induction hit as [|h hit IH]; intros r Hr; cbn [dcg_at]; [lra|].
  specialize (IH (S r) ltac:(lia)).
  pose proof (weight_pos r Hr). pose proof (b2r_nonneg h).
  assert (0 <= b2r h / log2 (INR r))%R; [|lra].
  unfold Rdiv. apply Rmult_le_pos; lra.
Qed.

Lemma DCG_dcg_at (hit : list bool) (k : nat) :
  length hit <= k -> DCG (map b2r hit) k = dcg_at 2 hit.
Proof.
  unfold DCG, arange. replace (k + 2 - 2) with k by lia.
  generalize 2. revert k. induction hit as [|h hit IH]; intros k r Hk.
  - reflexivity.
  - destruct k as [|k]; [cbn in Hk; lia|].
    cbn [map seq zip_with dcg_at]. rewrite Rsum_cons, IH by (cbn in Hk; lia).
    reflexivity.
Qed.

Lemma top_sum_pos (c r : nat) : 2 <= r -> 0 < c -> (0 < top_sum r c)%R.
Proof.
  revert r. induction c as [|c IH]; intros r Hr Hc; [lia|].
  cbn [top_sum]. pose proof (weight_pos r Hr).
  destruct c as [|c]; [cbn; lra|].
  specialize (IH (S r) ltac:(lia) ltac:(lia)). lra.
Qed.

Lemma top_sum_nonneg (c r : nat) : 2 <= r -> (0 <= top_sum r c)%R.
Proof.
  intros Hr. destruct c; [cbn; lra|].
  apply Rlt_le, top_sum_pos; lia.
Qed.

(** The ideal row of [IDCG]: [num_pos] hits first. *)
Lemma dcg_at_ideal (k : nat) : forall r o num_pos,
  dcg_at r (map (fun i => i <? num_pos) (seq o k)) = top_sum r (Nat.min (num_pos - o) k).
Proof.
  induction k as [|k IH]; intros r o num_pos.
  - rewrite Nat.min_0_r. reflexivity.
  - cbn [seq map dcg_at]. rewrite IH.
    destruct (Nat.ltb_spec o num_pos) as [Hlt|Hge].
    + replace (Nat.min (num_pos - o) (S k)) with (S (Nat.min (num_pos - S o) k)) by lia.
      cbn [top_sum b2r]. unfold Rdiv. lra.
    + replace (Nat.min (num_pos - o) (S k)) with 0 by lia.
      replace (Nat.min (num_pos - S o) k) with 0 by lia.
      cbn [top_sum b2r]. unfold Rdiv. lra.
Qed.

Lemma IDCG_top_sum (num_pos k : nat) : IDCG num_pos k = top_sum 2 (Nat.min num_pos k).
Proof.
  unfold IDCG.
  replace (map (fun i => if i <? num_pos then 1%R else 0%R) (seq 0 k))
    with (map b2r (map (fun i => i <? num_pos) (seq 0 k))).
  - rewrite DCG_dcg_at by (rewrite length_map, length_seq; lia).
    rewrite dcg_at_ideal. f_equal. lia.
  - rewrite map_map. apply map_ext. intros i. destruct (i <? num_pos); reflexivity.
Qed.

(** The entry of [IDCGs] that [get_ndcg] divides by. *)
Lemma IDCGs_clamp (k num_pos : nat) :
  nth (clamp 0 k num_pos) (IDCGs k) 0%R
  = if clamp 0 k num_pos =? 0 then 1%R else top_sum 2 (clamp 0 k num_pos).
Proof.
  unfold IDCGs, clamp. rewrite Nat.max_0_r.
  destruct (Nat.min num_pos k) as [|j] eqn:E; [reflexivity|].
  cbn [nth Nat.eqb].
  rewrite (nth_indep _ 0%R (IDCG 0 k)) by (rewrite length_map, length_seq; lia).
  rewrite (map_nth (fun i => IDCG i k)), seq_nth by lia.
  rewrite IDCG_top_sum. f_equal. lia.
Qed.

Lemma IDCGs_clamp_pos (k num_pos : nat) : (0 < nth (clamp 0 k num_pos) (IDCGs k) 0)%R.
Proof.
  rewrite IDCGs_clamp. destruct (Nat.eqb_spec (clamp 0 k num_pos) 0); [lra|].
  apply top_sum_pos; lia.
Qed.

(** ** The summand of one user *)

Lemma length_row_hits (u : user_row) (k : nat) (h : list bool) :
  row_hits u k = OK h -> length h = k.
Proof.
  unfold row_hits, row_top. intros H.
  apply bind_OK_inv in H as (cols & Hc & Hg).
  apply bind_OK_inv in Hc as (s & _ & Hc).
  apply bind_OK_inv in Hc as (r & Hr & [= <-]).
  unfold topk_row in Hr. destruct (decide (k <= length s)) as [Hk|]; [|discriminate].
  injection Hr as <-.
  unfold gather_row in Hg. apply (mapM_OK _ false) in Hg as [_ ->].
  rewrite !length_map, length_take.
  assert (Hlen : length (ranking s) = length s); [|lia].
  unfold ranking, sort_desc, enumerate.
  assert (G : forall l, length (foldr insert_desc [] l) = length l).
  { assert (Gi : forall x l, length (insert_desc x l) = S (length l)).
    { intros x l. induction l as [|y l IH]; [reflexivity|].
      cbn. destruct (Qle_bool (snd y) (snd x)); cbn; [reflexivity|]. rewrite IH. reflexivity. }
    induction l as [|x l IH]; [reflexivity|]. cbn. rewrite Gi, IH. reflexivity. }
  rewrite G, length_zip, length_seq. lia.
Qed.

Lemma length_hits_le (u : user_row) (k : nat) : length (from_ok [] (row_hits u k)) <= k.
Proof.
  destruct (row_hits u k) as [h|] eqn:E; cbn; [|lia].
  rewrite (length_row_hits u k h E). lia.
Qed.

Lemma user_ndcg_dcg_at (u : user_row) (k : nat) :
  user_ndcg u k
  = (dcg_at 2 (from_ok [] (row_hits u k)) / nth (clamp 0 k (num_pos_of u)) (IDCGs k) 0)%R.
Proof. unfold user_ndcg. rewrite DCG_dcg_at by apply length_hits_le. reflexivity. Qed.

Lemma epsilon_pos : (0 < epsilon)%R.
Proof. unfold epsilon. apply Rinv_0_lt_compat. lra. Qed.

Lemma user_recall_nonneg (u : user_row) (k : nat) : (0 <= user_recall u k)%R.
Proof.
  unfold user_recall. unfold Rdiv. apply Rmult_le_pos; [apply pos_INR|].
  apply Rlt_le, Rinv_0_lt_compat.
  pose proof (pos_INR (num_pos_of u)). pose proof epsilon_pos. lra.
Qed.

Lemma user_ndcg_nonneg (u : user_row) (k : nat) : (0 <= user_ndcg u k)%R.
Proof.
  rewrite user_ndcg_dcg_at. unfold Rdiv. apply Rmult_le_pos.
  - apply dcg_at_nonneg. lia.
  - apply Rlt_le, Rinv_0_lt_compat, IDCGs_clamp_pos.
Qed.

Lemma row_sum_zero (l : list bool) : row_sum l = 0 <-> Forall (fun b => b = false) l.
Proof.
  induction l as [|b l IH]; cbn.
  - split; [constructor|reflexivity].
  - destruct b; split; intros H; try discriminate.
    + inversion H; discriminate.
    + constructor; [reflexivity|apply IH, H].
    + inversion H; subst. apply IH. assumption.
Qed.

Lemma dcg_at_zero (l : list bool) : Forall (fun b => b = false) l -> forall r, dcg_at r l = 0%R.
Proof.
  induction 1 as [|b l -> _ IH]; intros r; cbn [dcg_at b2r]; [reflexivity|].
  rewrite IH. unfold Rdiv. lra.
Qed.

Lemma gather_row_entries (grd : list bool) (cols : list nat) (h : list bool) :
  gather_row grd cols = OK h -> Forall2 (fun c b => grd !! c = Some b) cols h.
Proof.
  unfold gather_row. revert h. induction cols as [|c cols IH]; intros h H.
  - cbn in H. injection H as <-. constructor.
  - cbn in H. destruct (grd !! c) as [b|] eqn:E; cbn in H; [|discriminate].
    destruct (mapM _ cols) as [h'|] eqn:E'; cbn in H; [|discriminate].
    injection H as <-. constructor; [exact E|]. apply IH. reflexivity.
Qed.

Lemma hits_without_positives (u : user_row) (k : nat) :
  num_pos_of u = 0 -> Forall (fun b => b = false) (from_ok [] (row_hits u k)).
Proof.
  intros Hz. apply row_sum_zero in Hz. rewrite Forall_forall in Hz.
  destruct (row_hits u k) as [h|] eqn:E; cbn; [|constructor].
  unfold row_hits in E. apply bind_OK_inv in E as (cols & _ & Hg).
  apply gather_row_entries in Hg.
  induction Hg as [|c b cols h Hc _ IH]; constructor; [|exact IH].
  apply Hz. eapply list_elem_of_lookup_2, Hc.
Qed.

Lemma user_recall_zero (u : user_row) (k : nat) : num_pos_of u = 0 -> user_recall u k = 0%R.
Proof.
  intros Hz. unfold user_recall.
  pose proof (hits_without_positives u k Hz) as Hh. apply row_sum_zero in Hh.
  rewrite Hh. cbn [INR]. unfold Rdiv. lra.
Qed.


Lemma count_pos_zero (us : list user_row) :
  Forall (fun u => num_pos_of u = 0) us -> count_pos us = 0.
Proof.
  unfold count_pos. induction 1 as [|u us Hu _ IH]; [reflexivity|].
  cbn [List.filter]. rewrite Hu. exact IH.
Qed.

Lemma count_pos_at_le (k : nat) (us : list user_row) : count_pos_at k us <= count_pos us.
Proof.
  unfold count_pos_at, count_pos, clamp. induction us as [|u us IH]; [reflexivity|].
  cbn [List.filter].
  destruct (Nat.ltb_spec 0 (Nat.min (Nat.max (num_pos_of u) 0) k));
    destruct (Nat.ltb_spec 0 (num_pos_of u)); cbn [length]; lia.
Qed.

Lemma count_pos_at_positive (k : nat) (us : list user_row) :
  0 < k -> count_pos_at k us = count_pos us.
Proof.
  intros Hk. unfold count_pos_at, count_pos, clamp. induction us as [|u us IH]; [reflexivity|].
  cbn [List.filter].
  destruct (Nat.ltb_spec 0 (Nat.min (Nat.max (num_pos_of u) 0) k));
    destruct (Nat.ltb_spec 0 (num_pos_of u)); cbn [length]; lia.
Qed.

(** ** Hits and positives of one user *)

Lemma row_sum_gather (grd : list bool) (cols : list nat) (h : list bool) :
  Forall2 (fun c b => grd !! c = Some b) cols h ->
  row_sum h = length (List.filter (fun c => nth c grd false) cols).
Proof.
  induction 1 as [|c b cols h Hc _ IH]; [reflexivity|].
  cbn [List.filter]. rewrite (nth_lookup_Some _ _ _ _ Hc).
  change (row_sum (b :: h)) with (if b then S (row_sum h) else row_sum h).
  destruct b; cbn [length]; rewrite IH; reflexivity.
Qed.

Lemma row_hits_inv (u : user_row) (k : nat) (hits : list bool) :
  row_hits u k = OK hits ->
  exists cols, row_top u k = OK cols
    /\ Forall2 (fun c b => grd_row u !! c = Some b) cols hits.
Proof.
  unfold row_hits. intros H. apply bind_OK_inv in H as (cols & Hc & Hg).
  exists cols. split; [exact Hc|]. apply gather_row_entries, Hg.
Qed.

Lemma hits_le_positives (u : user_row) (k : nat) (hits : list bool) :
  row_hits u k = OK hits -> row_sum hits <= num_pos_of u.
Proof.
  intros H. apply row_hits_inv in H as (cols & Hc & Hg).
  destruct (row_top_NoDup u k cols Hc) as (Hnd & _ & _).
  rewrite (row_sum_gather _ _ _ Hg). unfold num_pos_of.
  rewrite <- (count_marked (grd_row u)).
  apply NoDup_incl_length.
  - apply List.NoDup_filter, NoDup_ListNoDup, Hnd.
  - intros c Hin. apply filter_In in Hin as [Hin Hp]. apply filter_In.
    split; [|exact Hp]. apply in_seq. split; [lia|]. cbn.
    destruct (Nat.lt_ge_cases c (length (grd_row u))) as [Hlt|Hge]; [exact Hlt|].
    rewrite nth_overflow in Hp by exact Hge. discriminate.
Qed.

Lemma hits_all_positives (u : user_row) (k : nat) (cols : list nat) (hits : list bool) :
  row_top u k = OK cols -> row_hits u k = OK hits ->
  (forall c, grd_row u !! c = Some true -> c ∈ cols) ->
  row_sum hits = num_pos_of u.
Proof.
  intros Hc H Hall. apply Nat.le_antisymm; [eapply hits_le_positives, H|].
  apply row_hits_inv in H as (cols' & Hc' & Hg).
  rewrite Hc in Hc'. injection Hc' as <-.
  rewrite (row_sum_gather _ _ _ Hg). unfold num_pos_of.
  rewrite <- (count_marked (grd_row u)).
  apply NoDup_incl_length.
  - apply List.NoDup_filter, List.seq_NoDup.
  - intros c Hin. apply filter_In in Hin as [Hin Hp]. apply filter_In.
    split; [|exact Hp]. apply list_elem_of_In, Hall.
    apply in_seq in Hin. destruct (lookup_lt_is_Some_2 (grd_row u) c) as [b Hb]; [lia|].
    rewrite (nth_lookup_Some _ _ _ _ Hb) in Hp. congruence.
Qed.

(** Without rounding, the recall of a user whose positives are all
    retrieved is [num_pos / (num_pos + epsilon)], below 1. *)
Lemma user_recall_all_hits_exact (u : user_row) (k : nat) (hits : list bool) :
  row_hits u k = OK hits -> row_sum hits = num_pos_of u -> 0 < num_pos_of u ->
  user_recall u k = (INR (num_pos_of u) / (INR (num_pos_of u) + epsilon))%R
  /\ (user_recall u k < 1)%R.
Proof.
  intros Hh Hc Hp. unfold user_recall. rewrite Hh. cbn [from_ok]. rewrite Hc.
  split; [reflexivity|].
  pose proof epsilon_pos. apply lt_INR in Hp. cbn [INR] in Hp.
  apply (Rmult_lt_reg_r (INR (num_pos_of u) + epsilon)); [lra|].
  unfold Rdiv. rewrite Rmult_assoc, Rinv_l by lra. lra.
Qed.

(** ** The largest discounted gain *)

Lemma top_sum_shift (c : nat) : forall r, 2 <= r ->
  (top_sum (S r) c <= top_sum r c)%R /\ (0 < c -> (top_sum (S r) c < top_sum r c)%R).
Proof.
  induction c as [|c IH]; intros r Hr.
  - cbn. split; [lra|lia].
  - cbn [top_sum]. destruct (IH (S r) ltac:(lia)) as [Hle _].
    pose proof (weight_decreasing r Hr). split; [lra|]. intros _. lra.
Qed.

Lemma top_sum_mono (m : nat) : forall c r, 2 <= r -> c <= m ->
  (top_sum r c <= top_sum r m)%R /\ (c < m -> (top_sum r c < top_sum r m)%R).
Proof.
  induction m as [|m IH]; intros c r Hr Hc.
  - assert (c = 0) as -> by lia. split; [lra|lia].
  - destruct c as [|c].
    + pose proof (top_sum_pos (S m) r Hr ltac:(lia)). cbn [top_sum] in *. split; intros; lra.
    + cbn [top_sum]. destruct (IH c (S r) ltac:(lia) ltac:(lia)) as [Hle Hlt].
      split; [lra|]. intros H. specialize (Hlt ltac:(lia)). lra.
Qed.

Lemma dcg_at_prefix (c : nat) (rest : list bool) : forall r,
  dcg_at r (repeat true c ++ rest) = (top_sum r c + dcg_at (r + c) rest)%R.
Proof.
  induction c as [|c IH]; intros r.
  - cbn. rewrite Nat.add_0_r. lra.
  - cbn [repeat app dcg_at top_sum b2r]. rewrite IH.
    replace (S r + c) with (r + S c) by lia. unfold Rdiv. lra.
Qed.

(** A row of hits gains at most what its hits gain on the first ranks, and
    as much only when they are on the first ranks. *)
Lemma dcg_at_le_top_sum (hit : list bool) : forall r, 2 <= r ->
  (dcg_at r hit <= top_sum r (row_sum hit))%R
  /\ (dcg_at r hit = top_sum r (row_sum hit) ->
      hit = repeat true (row_sum hit) ++ repeat false (length hit - row_sum hit)).
Proof.
  induction hit as [|h hit IH]; intros r Hr.
  - cbn. split; [lra|reflexivity].
  - change (row_sum (h :: hit)) with (if h then S (row_sum hit) else row_sum hit).
    destruct (IH (S r) ltac:(lia)) as [Hle Heq].
    assert (Hc : row_sum hit <= length hit).
    { clear. induction hit as [|b hit IH]; [reflexivity|].
      change (row_sum (b :: hit)) with (if b then S (row_sum hit) else row_sum hit).
      destruct b; cbn [length]; lia. }
    destruct h; cbn [dcg_at b2r top_sum length].
    + split; [unfold Rdiv; lra|]. intros H.
      cbn [repeat app Nat.sub]. f_equal. apply Heq. unfold Rdiv in H. lra.
    + destruct (top_sum_shift (row_sum hit) r Hr) as [Hs Hss].
      split; [unfold Rdiv; lra|]. intros H.
      destruct (row_sum hit) as [|c] eqn:Ec.
      * cbn [repeat app]. rewrite Nat.sub_0_r. cbn [repeat]. f_equal.
        apply row_sum_zero in Ec. clear - Ec.
        induction Ec as [|b l -> _ IH]; [reflexivity|]. cbn. f_equal. exact IH.
      * exfalso. specialize (Hss ltac:(lia)). unfold Rdiv in H. lra.
Qed.

Lemma row_sum_app (l1 l2 : list bool) : row_sum (l1 ++ l2) = row_sum l1 + row_sum l2.
Proof.
  induction l1 as [|b l1 IH]; [reflexivity|].
  cbn [app]. change (row_sum (b :: l1 ++ l2)) with (if b then S (row_sum (l1 ++ l2)) else row_sum (l1 ++ l2)).
  change (row_sum (b :: l1)) with (if b then S (row_sum l1) else row_sum l1).
  destruct b; lia.
Qed.

Lemma row_sum_repeat_true (n : nat) : row_sum (repeat true n) = n.
Proof. induction n as [|n IH]; [reflexivity|]. cbn [repeat]. change (row_sum (true :: repeat true n)) with (S (row_sum (repeat true n))). lia. Qed.

(** C4, as the code has it: a user with at least one positive, K
    positive: NDCG@K is at most 1 and is 1 exactly when the first
    min(num_pos, K) ranks are all hits; when the user has at most K
    positives this says that the positives occupy the first num_pos ranks. *)
Theorem user_ndcg_at_most_1 (u : user_row) (k : nat) (hits : list bool) :
  row_hits u k = OK hits ->
  0 < num_pos_of u ->
  0 < k ->
  (user_ndcg u k <= 1)%R
  /\ (user_ndcg u k = 1%R
      <-> take (Nat.min (num_pos_of u) k) hits = repeat true (Nat.min (num_pos_of u) k))
  /\ (num_pos_of u <= k -> (user_ndcg u k = 1%R <-> top_ranks_positive u (num_pos_of u))).
Proof.
  intros Hh Hp Hk.
  pose proof (hits_le_positives u k hits Hh) as Hcp.
  pose proof (length_row_hits u k hits Hh) as Hlen.
  set (m := Nat.min (num_pos_of u) k).
  assert (Hm : 0 < m) by (unfold m; lia).
  assert (Hcl : clamp 0 k (num_pos_of u) = m) by (unfold clamp, m; lia).
  assert (Hc : row_sum hits <= m).
  { assert (row_sum hits <= length hits); [|unfold m; lia].
    clear. induction hits as [|b hits IH]; [reflexivity|].
    change (row_sum (b :: hits)) with (if b then S (row_sum hits) else row_sum hits).
    destruct b; cbn [length]; lia. }
  assert (Hndcg : user_ndcg u k = (dcg_at 2 hits / top_sum 2 m)%R).
  { rewrite user_ndcg_dcg_at, Hh, IDCGs_clamp, Hcl. cbn [from_ok].
    destruct (Nat.eqb_spec m 0); [lia|reflexivity]. }
  pose proof (top_sum_pos m 2 ltac:(lia) Hm) as Hpos.
  destruct (dcg_at_le_top_sum hits 2 ltac:(lia)) as [Hle Heq].
  destruct (top_sum_mono m (row_sum hits) 2 ltac:(lia) Hc) as [Hmono Hstrict].
  assert (Hiff : user_ndcg u k = 1%R <-> take m hits = repeat true m).
  { rewrite Hndcg. split.
    - intros H1.
      assert (Hd : dcg_at 2 hits = top_sum 2 m).
      { apply (Rmult_eq_compat_r (top_sum 2 m)) in H1. unfold Rdiv in H1.
        rewrite Rmult_assoc, Rinv_l, Rmult_1_r, Rmult_1_l in H1 by lra. exact H1. }
      assert (Hcm : row_sum hits = m).
      { destruct (Nat.eq_dec (row_sum hits) m) as [E|E]; [exact E|].
        specialize (Hstrict ltac:(lia)). lra. }
      rewrite Hcm in Heq. rewrite (Heq Hd).
      rewrite take_app_le by (rewrite repeat_length; lia).
      rewrite take_ge by (rewrite repeat_length; lia). reflexivity.
    - intros Ht.
      assert (Hsplit : hits = repeat true m ++ drop m hits).
      { rewrite <- Ht. symmetry. apply take_drop. }
      assert (Hrest : row_sum (drop m hits) = 0).
      { rewrite Hsplit, row_sum_app, row_sum_repeat_true in Hc. lia. }
      rewrite Hsplit, dcg_at_prefix.
      rewrite (dcg_at_zero _ (proj1 (row_sum_zero _) Hrest)). field. lra. }
  split; [|split; [exact Hiff|]].
  - rewrite Hndcg. apply (Rmult_le_reg_r (top_sum 2 m)); [exact Hpos|].
    unfold Rdiv. rewrite Rmult_assoc, Rinv_l, Rmult_1_r, Rmult_1_l by lra. lra.
  - intros Hpk. rewrite Hiff. replace m with (num_pos_of u) by (unfold m; lia).
    apply row_hits_inv in Hh as (cols & Hc' & Hg).
    apply row_top_inv in Hc' as (s & Hs & Hks & ->).
    assert (Etake : take (num_pos_of u) (take k (map fst (ranking s)))
                    = take (num_pos_of u) (map fst (ranking s))).
    { rewrite take_take. f_equal. lia. }
    unfold top_ranks_positive. split.
    + intros Ht. exists s. split; [exact Hs|].
      rewrite <- Etake.
      rewrite <- firstn_map in Hg.
      apply (Forall2_take _ _ _ (num_pos_of u)) in Hg. rewrite Ht in Hg.
      clear - Hg. remember (take (num_pos_of u) (take k (map fst (ranking s)))) as l.
      remember (repeat true (num_pos_of u)) as t. clear Heql.
      revert Heqt. generalize (num_pos_of u).
      induction Hg as [|c b l t Hc _ IH]; intros n Hn; [constructor|].
      destruct n; [discriminate|]. injection Hn as -> ->.
      constructor; [exact Hc|]. eapply IH. reflexivity.
    + intros (s' & Hs' & Hall). rewrite Hs in Hs'. injection Hs' as <-.
      rewrite <- Etake in Hall.
      rewrite <- firstn_map in Hg.
      apply (Forall2_take _ _ _ (num_pos_of u)) in Hg.
      assert (Hl : length (take (num_pos_of u) hits) = num_pos_of u).
      { rewrite length_take. lia. }
      revert Hl Hall Hg. generalize (take (num_pos_of u) hits).
      generalize (take (num_pos_of u) (take k (map fst (ranking s)))).
      generalize (num_pos_of u). clear.
      intros n l t Hl Hall Hg. revert n Hl.
      induction Hg as [|c b l t Hc _ IH]; intros n Hl.
      * cbn in Hl. subst n. reflexivity.
      * destruct n; [discriminate|]. cbn [repeat]. inversion Hall; subst.
        f_equal; [congruence|]. apply IH; [assumption|]. cbn in Hl. lia.
Qed.

Lemma user_ndcg_at_most_1_witness :
  (user_ndcg split_positives_user 2 <= 1)%R
  /\ (user_ndcg split_positives_user 2 = 1%R
      <-> take (Nat.min (num_pos_of split_positives_user) 2) [true; false]
          = repeat true (Nat.min (num_pos_of split_positives_user) 2))
  /\ (num_pos_of split_positives_user <= 2 ->
      (user_ndcg split_positives_user 2 = 1%R
       <-> top_ranks_positive split_positives_user (num_pos_of split_positives_user))).
Proof.
  apply (user_ndcg_at_most_1 split_positives_user 2 [true; false]).
  - vm_compute. reflexivity.
  - vm_compute. lia.
  - lia.
Defined.

(** C4 as stated fails: with K = 1 a user whose two positives rank first
    and third has NDCG@1 = 1, and the positives do not occupy the first two
    ranks. *)
Lemma user_ndcg_1_positives_apart :
  user_ndcg split_positives_user 1 = 1%R
  /\ num_pos_of split_positives_user = 2
  /\ ~ top_ranks_positive split_positives_user 2.
Proof.
  split; [|split].
  - rewrite user_ndcg_dcg_at, IDCGs_clamp.
    assert (Hh : row_hits split_positives_user 1 = OK [true]) by (vm_compute; reflexivity).
    rewrite Hh.
    change (clamp 0 1 (num_pos_of split_positives_user)) with 1.
    cbn [from_ok dcg_at top_sum b2r Nat.eqb].
    pose proof (log2_rank_pos 2 ltac:(lia)). field. lra.
  - reflexivity.
  - intros (s & Hs & Hall). vm_compute in Hs. injection Hs as <-.
    vm_compute in Hall. inversion Hall as [|? ? _ Hrest]; subst.
    inversion Hrest as [|? ? H2 _]; subst. discriminate H2.
Qed.

(** ** The evaluation pass in exact arithmetic *)



Lemma per_metric_eq {A} (m m' : per_metric (gmap nat A)) :
  (forall k, recall m !! k = recall m' !! k) ->
  (forall k, ndcg m !! k = ndcg m' !! k) -> m = m'.
Proof.
  destruct m as [r n], m' as [r' n']. cbn. intros Hr Hn.
  f_equal; apply map_eq; assumption.
Qed.



(** *** The recall path in binary32 raises as the exact one does *)

Lemma batch_res_recall_b32_snd (b : batch) (k : nat) :
  snd (batch_res Binary32.get_recall b k) = Z.of_nat (count_pos b).
Proof.
  unfold batch_res, Binary32.get_recall. cbn [snd].
  rewrite length_batch_pred. apply count_zero_pos.
Qed.

Lemma entry_after_b32_recall_snd (dl : list batch) (k : nat) :
  snd (entry_after (S754_zero false) Binary32.f64_add Binary32.get_recall dl k)
  = Z.of_nat (count_pos (concat dl)).
Proof.
  rewrite entry_after_snd.
  rewrite (map_ext _ _ (fun b => batch_res_recall_b32_snd b k)).
  apply (Zsum_map_concat count_pos); [apply count_pos_app|reflexivity].
Qed.

(** C9: a pass on which nothing raises before the end of the batch loop,
    and in which no user of any batch has a ground-truth positive, ends in a
    [ZeroDivisionError] at [res[0] / res[1]], in exact and in IEEE
    arithmetic alike. *)
Theorem test_zero_division_without_positives
    (nomina : matrix bool -> matrix bool -> nat -> spec_float)
    (dl : list batch) (topks : list nat) (k : nat) :
  forallb (batch_ok topks) dl = true ->
  dl ≠ [] ->
  k ∈ topks ->
  Forall (fun u => num_pos_of u = 0) (concat dl) ->
  test dl topks = Raise ZeroDivisionError
  /\ Binary32.test nomina dl topks = Raise ZeroDivisionError.
Proof.
  intros Hok Hne Hk Hz. pose proof (count_pos_zero _ Hz) as Hc. split.
  - unfold test. apply (test_with_zero_division _ _ _ _ _ topks dl k Hok Hne Hk).
    left. rewrite entry_after_recall. cbn [snd]. rewrite Hc. reflexivity.
  - unfold Binary32.test. apply (test_with_zero_division _ _ _ _ _ topks dl k Hok Hne Hk).
    left. rewrite entry_after_b32_recall_snd, Hc. reflexivity.
Qed.

Lemma test_zero_division_without_positives_witness :
  test [[sample_user 7 [] [3]]] [1; 2] = Raise ZeroDivisionError
  /\ Binary32.test (fun _ _ _ => S754_zero false) [[sample_user 7 [] [3]]] [1; 2]
     = Raise ZeroDivisionError.
Proof.
  apply (test_zero_division_without_positives _ [[sample_user 7 [] [3]]] [1; 2] 1).
  - vm_compute. reflexivity.
  - discriminate.
  - left.
  - repeat constructor.
Defined.

(** *** Users without positives *)






(** *** The accumulator during a pass *)

(** C7: every entry of the accumulator is [0, 0] when the pass starts; on
    batches on which nothing raises, no configured K being 0 among the rest,
    processing one more batch lowers neither its numerator nor its
    denominator; the denominator of recall is the number of users seen so
    far with at least one ground-truth positive, that of ndcg the number of
    those among them that [get_ndcg] counts for K, all of them when K is
    positive. *)
Theorem accumulator_reset_and_monotone (topks : list nat) (bs : list batch) (b : batch)
    (k : nat) :
  forallb (batch_ok topks) (bs ++ [b]) = true ->
  k ∈ topks ->
  recall (tmp_metrics (pass_init 0%R topks)) !! k = Some (0%R, 0%Z)
  /\ ndcg (tmp_metrics (pass_init 0%R topks)) !! k = Some (0%R, 0%Z)
  /\ exists st st',
       foldlM (pass_step Rplus get_recall get_ndcg topks) (pass_init 0%R topks) bs = OK st
       /\ pass_step Rplus get_recall get_ndcg topks st b = OK st'
       /\ exists rn rn' nn nn',
            recall (tmp_metrics st) !! k = Some (rn, Z.of_nat (count_pos (concat bs)))
            /\ recall (tmp_metrics st') !! k
               = Some (rn', Z.of_nat (count_pos (concat (bs ++ [b]))))
            /\ ndcg (tmp_metrics st) !! k = Some (nn, Z.of_nat (count_pos_at k (concat bs)))
            /\ ndcg (tmp_metrics st') !! k
               = Some (nn', Z.of_nat (count_pos_at k (concat (bs ++ [b]))))
            /\ (rn <= rn')%R /\ (nn <= nn')%R
            /\ count_pos (concat bs) <= count_pos (concat (bs ++ [b]))
            /\ count_pos_at k (concat bs) <= count_pos_at k (concat (bs ++ [b]))
            /\ count_pos_at k (concat (bs ++ [b])) <= count_pos (concat (bs ++ [b]))
            /\ (0 < k -> count_pos_at k (concat (bs ++ [b])) = count_pos (concat (bs ++ [b]))).
Proof.
  intros Hok Hk.
  pose proof (init_tmp_keyed 0%R topks) as Hinit.
  split; [cbn [pass_init tmp_metrics recall];
          rewrite (Hinit k), decide_True by exact Hk; reflexivity|].
  split; [cbn [pass_init tmp_metrics ndcg];
          rewrite (Hinit k), decide_True by exact Hk; reflexivity|].
  rewrite forallb_app in Hok. apply andb_true_iff in Hok as [Hbs Hb].
  cbn [forallb] in Hb. rewrite andb_true_r in Hb.
  destruct (pass_loop_ok Rplus get_recall get_ndcg topks bs _ _ (pass_init 0%R topks)
              Hinit Hinit Hbs) as (st & Hst).
  destruct (pass_loop_spec Rplus get_recall get_ndcg topks bs _ _ (pass_init 0%R topks) st
              Hinit Hinit Hst) as (_ & Hr & Hn & _).
  destruct (pass_step_ok Rplus get_recall get_ndcg topks _ _ st b Hr Hn Hb) as (st' & Hst').
  destruct (pass_step_spec Rplus get_recall get_ndcg topks _ _ st st' b Hr Hn Hst')
    as (_ & Hr' & Hn' & _).
  exists st, st'. split; [exact Hst|]. split; [exact Hst'|].
  specialize (Hr k). specialize (Hn k). specialize (Hr' k). specialize (Hn' k).
  rewrite decide_True in Hr, Hn, Hr', Hn' by exact Hk.
  fold (entry_after 0%R Rplus get_recall bs k) in Hr, Hr'.
  fold (entry_after 0%R Rplus get_ndcg bs k) in Hn, Hn'.
  rewrite entry_after_recall in Hr, Hr'. rewrite entry_after_ndcg in Hn, Hn'.
  rewrite batch_res_recall in Hr'. rewrite batch_res_ndcg in Hn'.
  unfold add_res in Hr', Hn'. cbn [fst snd] in Hr', Hn'.
  rewrite concat_app, count_pos_app, count_pos_at_app. cbn [concat]. rewrite app_nil_r.
  rewrite <- Nat2Z.inj_add in Hr', Hn'.
  eexists _, _, _, _.
  split; [exact Hr|]. split; [exact Hr'|]. split; [exact Hn|]. split; [exact Hn'|].
  assert (0 <= Rsum (map (fun u => user_recall u k) b))%R.
  { apply Rsum_nonneg, Forall_forall. intros x Hx.
    apply list_elem_of_In, in_map_iff in Hx as (u & <- & _). apply user_recall_nonneg. }
  assert (0 <= Rsum (map (fun u => user_ndcg u k) b))%R.
  { apply Rsum_nonneg, Forall_forall. intros x Hx.
    apply list_elem_of_In, in_map_iff in Hx as (u & <- & _). apply user_ndcg_nonneg. }
  split; [lra|]. split; [lra|]. split; [lia|]. split; [lia|].
  rewrite <- !count_pos_app, <- !count_pos_at_app.
  split; [apply count_pos_at_le|]. intros Hpos. apply count_pos_at_positive, Hpos.
Qed.

Lemma accumulator_reset_and_monotone_witness :
  let topks := [1; 2] in
  let bs := [[sample_user 1 [0] []]] in
  let b := [sample_user 2 [0; 5] [1]; sample_user 7 [] [3]] in
  recall (tmp_metrics (pass_init 0%R topks)) !! 1 = Some (0%R, 0%Z)
  /\ ndcg (tmp_metrics (pass_init 0%R topks)) !! 1 = Some (0%R, 0%Z)
  /\ exists st st',
       foldlM (pass_step Rplus get_recall get_ndcg topks) (pass_init 0%R topks) bs = OK st
       /\ pass_step Rplus get_recall get_ndcg topks st b = OK st'
       /\ exists rn rn' nn nn',
            recall (tmp_metrics st) !! 1 = Some (rn, Z.of_nat (count_pos (concat bs)))
            /\ recall (tmp_metrics st') !! 1
               = Some (rn', Z.of_nat (count_pos (concat (bs ++ [b]))))
            /\ ndcg (tmp_metrics st) !! 1 = Some (nn, Z.of_nat (count_pos_at 1 (concat bs)))
            /\ ndcg (tmp_metrics st') !! 1
               = Some (nn', Z.of_nat (count_pos_at 1 (concat (bs ++ [b]))))
            /\ (rn <= rn')%R /\ (nn <= nn')%R
            /\ count_pos (concat bs) <= count_pos (concat (bs ++ [b]))
            /\ count_pos_at 1 (concat bs) <= count_pos_at 1 (concat (bs ++ [b]))
            /\ count_pos_at 1 (concat (bs ++ [b])) <= count_pos (concat (bs ++ [b]))
            /\ (0 < 1 -> count_pos_at 1 (concat (bs ++ [b])) = count_pos (concat (bs ++ [b]))).
Proof.
  apply (accumulator_reset_and_monotone [1; 2] [[sample_user 1 [0] []]]
           [sample_user 2 [0; 5] [1]; sample_user 7 [] [3]] 1).
  - vm_compute. reflexivity.
  - left.
Defined.


(** ** Binary32 arithmetic *)

#[local] Open Scope Z_scope.

Lemma digits2_pos_log2 p : Zpos (digits2_pos p) = Z.log2 (Zpos p) + 1.
Proof.
  induction p as [p IH|p IH|]; simpl digits2_pos; try reflexivity.
  - rewrite Pos2Z.inj_succ, IH.
    change (Z.pos p~1) with (2 * Z.pos p + 1).
    rewrite Z.log2_succ_double by lia. lia.
  - rewrite Pos2Z.inj_succ, IH.
    change (Z.pos p~0) with (2 * Z.pos p).
    rewrite Z.log2_double by lia. lia.
Qed.

Lemma digits2_pos_bounds p d :
  1 <= d -> 2 ^ (d - 1) <= Zpos p < 2 ^ d -> Zpos (digits2_pos p) = d.
Proof.
  intros Hd [Hl Hu]. rewrite digits2_pos_log2.
  rewrite (Z.log2_unique (Zpos p) (d - 1)); [lia|lia|].
  replace (Z.succ (d - 1)) with d by lia. split; assumption.
Qed.

Lemma iter_pos_nat {A} (f : A -> A) p x :
  SpecFloat.iter_pos f p x = Nat.iter (Pos.to_nat p) f x.
Proof.
  revert x. induction p as [p IH|p IH|]; intros x; simpl SpecFloat.iter_pos.
  - rewrite !IH, Pos2Nat.inj_xI. simpl Nat.iter.
    replace (Pos.to_nat p + (Pos.to_nat p + 0))%nat with (Pos.to_nat p + Pos.to_nat p)%nat by lia.
    rewrite Nat.iter_add. rewrite <- Nat.iter_succ_r. simpl. 
    rewrite <- Nat.iter_succ_r. reflexivity.
  - rewrite !IH, Pos2Nat.inj_xO. simpl Nat.mul.
    replace (Pos.to_nat p + (Pos.to_nat p + 0))%nat with (Pos.to_nat p + Pos.to_nat p)%nat by lia.
    now rewrite Nat.iter_add.
  - reflexivity.
Qed.

Lemma shr_1_nonneg m r s :
  0 <= m -> shr_1 {| shr_m := m; shr_r := r; shr_s := s |}
            = {| shr_m := m / 2; shr_r := Z.odd m; shr_s := r || s |}.
Proof.
  intros Hm. destruct m as [|p|p]; [reflexivity| |lia].
  destruct p as [p|p|]; unfold shr_1.
  - f_equal. change (Z.pos p~1) with (2 * Z.pos p + 1).
    rewrite Z.add_comm, Z.mul_comm, Z.div_add by lia. reflexivity.
  - f_equal. change (Z.pos p~0) with (2 * Z.pos p).
    rewrite Z.mul_comm, Z.div_mul by lia. reflexivity.
  - reflexivity.
Qed.

Lemma iter_shr_1_low n : forall a b r s,
  0 <= a -> 0 <= b < 2 ^ (Z.of_nat n) ->
  Nat.iter (S n) shr_1 {| shr_m := a * 2 ^ (Z.of_nat (S n)) + b; shr_r := r; shr_s := s |}
  = {| shr_m := a; shr_r := false; shr_s := r || s || negb (b =? 0) |}.
Proof.
  induction n as [|n IH]; intros a b r s Ha Hb.
  - simpl in Hb. assert (b = 0) by lia. subst b.
    unfold Nat.iter; cbn [nat_rect]. rewrite shr_1_nonneg by lia.
    change (2 ^ Z.of_nat 1) with 2. rewrite Z.add_0_r.
    rewrite Z.div_mul by lia. rewrite Z.odd_mul. simpl.
    rewrite andb_false_r, orb_false_r. reflexivity.
  - rewrite Nat.iter_succ_r, shr_1_nonneg by nia.
    assert (E : 2 ^ Z.of_nat (S (S n)) = 2 * 2 ^ Z.of_nat (S n)).
    { rewrite (Nat2Z.inj_succ (S n)), Z.pow_succ_r by lia. reflexivity. }
    assert (E' : 2 ^ Z.of_nat (S n) = 2 * 2 ^ Z.of_nat n).
    { rewrite (Nat2Z.inj_succ n), Z.pow_succ_r by lia. reflexivity. }
    assert (Hq : (a * 2 ^ Z.of_nat (S (S n)) + b) / 2 = a * 2 ^ Z.of_nat (S n) + b / 2).
    { rewrite E. replace (a * (2 * 2 ^ Z.of_nat (S n)) + b) with (b + (a * 2 ^ Z.of_nat (S n)) * 2) by ring.
      rewrite Z.div_add by lia. ring. }
    assert (Ho : Z.odd (a * 2 ^ Z.of_nat (S (S n)) + b) = Z.odd b).
    { rewrite E. replace (a * (2 * 2 ^ Z.of_nat (S n)) + b) with (b + 2 * (a * 2 ^ Z.of_nat (S n))) by ring.
      apply Z.odd_add_mul_2. }
    rewrite Hq, Ho, IH; [|lia|].
    + f_equal. 
      assert (Hb2 : b = 2 * (b / 2) + Z.b2z (Z.odd b)).
      { rewrite (Z.div_mod b 2) at 1 by lia. rewrite Zmod_odd. destruct (Z.odd b); reflexivity. }
      clear - Hb2.
      destruct (Z.eqb_spec (b / 2) 0), (Z.eqb_spec b 0), (Z.odd b), r, s;
        cbn [Z.b2z] in Hb2; cbn [orb negb]; try reflexivity; exfalso; lia.
    + split; [apply Z.div_pos; lia|]. apply Z.div_lt_upper_bound; lia.
Qed.

Lemma fexp32 e : -125 <= e -> fexp Binary32.prec Binary32.emax e = e - 24.
Proof. intros H. unfold fexp, emin, Binary32.prec, Binary32.emax. lia. Qed.

Lemma shr_low p a b e :
  0 <= a -> 0 < b < 2 ^ (Zpos p - 1) ->
  shr {| shr_m := a * 2 ^ Zpos p + b; shr_r := false; shr_s := false |} e (Zpos p)
  = ({| shr_m := a; shr_r := false; shr_s := true |}, e + Zpos p).
Proof.
  intros Ha Hb. unfold shr. f_equal.
  rewrite iter_pos_nat.
  destruct (Pos2Nat.is_succ p) as [n Hn]. rewrite Hn.
  assert (Hp : Zpos p = Z.of_nat (S n)) by lia.
  rewrite Hp. rewrite iter_shr_1_low.
  - destruct (Z.eqb_spec b 0); [lia|reflexivity].
  - lia.
  - replace (Z.of_nat n) with (Zpos p - 1) by lia. lia.
Qed.

Lemma binary_round_aux_canonical (m : positive) e :
  2 ^ 23 <= Zpos m < 2 ^ 24 -> -149 <= e <= 104 ->
  binary_round_aux Binary32.prec Binary32.emax false (Zpos m) e loc_Exact = S754_finite false m e.
Proof.
  intros Hm He. unfold binary_round_aux, shr_fexp.
  cbn [Zdigits2 shr_record_of_loc].
  rewrite (digits2_pos_bounds m 24) by (cbn; lia).
  rewrite fexp32 by lia.
  replace (24 + e - 24 - e) with 0 by lia.
  cbn [shr shr_m loc_of_shr_record round_nearest_even Zdigits2 shr_record_of_loc].
  rewrite (digits2_pos_bounds m 24) by (cbn; lia).
  rewrite fexp32 by lia.
  replace (24 + e - 24 - e) with 0 by lia.
  cbn [shr shr_m].
  replace (e <=? Binary32.emax - Binary32.prec)%Z with true; [reflexivity|].
  symmetry. apply Z.leb_le. unfold Binary32.emax, Binary32.prec. lia.
Qed.

Lemma binary_round_aux_low (m : positive) (p : positive) (M : positive) b e :
  2 ^ 23 <= Zpos m < 2 ^ 24 ->
  0 < b < 2 ^ (Zpos p - 1) ->
  Zpos M = Zpos m * 2 ^ Zpos p + b ->
  -149 <= e + Zpos p <= 104 ->
  binary_round_aux Binary32.prec Binary32.emax false (Zpos M) e loc_Exact = S754_finite false m (e + Zpos p).
Proof.
  intros Hm Hb HM He.
  assert (Hpow : 2 ^ Zpos p = 2 * 2 ^ (Zpos p - 1)).
  { rewrite <- Z.pow_succ_r by lia. f_equal. lia. }
  assert (Hpos : 0 < 2 ^ (Zpos p - 1)) by (apply Z.pow_pos_nonneg; lia).
  assert (HdM : Zpos (digits2_pos M) = 24 + Zpos p).
  { apply digits2_pos_bounds; [lia|].
    replace (24 + Zpos p - 1) with (23 + Zpos p) by lia.
    rewrite !Z.pow_add_r by lia. nia. }
  unfold binary_round_aux, shr_fexp.
  cbn [Zdigits2 shr_record_of_loc].
  rewrite HdM, fexp32 by lia.
  replace (24 + Zpos p + e - 24 - e) with (Zpos p) by lia.
  rewrite HM, shr_low by lia.
  cbn [shr_m loc_of_shr_record round_nearest_even Zdigits2 shr_record_of_loc].
  rewrite (digits2_pos_bounds m 24) by (cbn; lia).
  rewrite fexp32 by lia.
  replace (24 + (e + Zpos p) - 24 - (e + Zpos p)) with 0 by lia.
  cbn [shr shr_m].
  replace (e + Zpos p <=? Binary32.emax - Binary32.prec)%Z with true; [reflexivity|].
  symmetry. apply Z.leb_le. unfold Binary32.emax, Binary32.prec. lia.
Qed.

Lemma nat_iter_xO n m : Zpos (Nat.iter n xO m) = Zpos m * 2 ^ Z.of_nat n.
Proof.
  induction n as [|n IH].
  - simpl. lia.
  - rewrite Nat.iter_succ, (Pos2Z.inj_xO (Nat.iter n xO m)), IH.
    rewrite Nat2Z.inj_succ, Z.pow_succ_r by lia. ring.
Qed.

Lemma Pos_iter_xO m d : Zpos (Pos.iter xO m d) = Zpos m * 2 ^ Zpos d.
Proof.
  pose proof (nat_iter_xO (Pos.to_nat d) m) as H. unfold Nat.iter in H.
  rewrite Pos2Nat.inj_iter, H. f_equal. f_equal. lia.
Qed.

Lemma f32_of_Z_normal P :
  1 <= P < 2 ^ 24 ->
  exists m e, binary_normalize Binary32.prec Binary32.emax P 0 false = S754_finite false m e
              /\ 2 ^ 23 <= Zpos m < 2 ^ 24 /\ -23 <= e <= 0.
Proof.
  intros HP. destruct P as [|P|P]; try lia.
  unfold binary_normalize, binary_round.
  set (d := Zpos (digits2_pos P)).
  assert (Hd : 1 <= d <= 24).
  { unfold d. rewrite digits2_pos_log2. 
    assert (0 <= Z.log2 (Zpos P)) by apply Z.log2_nonneg.
    assert (Z.log2 (Zpos P) < 24) by (apply Z.log2_lt_pow2; lia). lia. }
  assert (Hb : 2 ^ (d - 1) <= Zpos P < 2 ^ d).
  { unfold d. rewrite digits2_pos_log2.
    replace (Z.log2 (Zpos P) + 1 - 1) with (Z.log2 (Zpos P)) by lia.
    replace (Z.log2 (Zpos P) + 1) with (Z.succ (Z.log2 (Zpos P))) by lia.
    apply Z.log2_spec. lia. }
  rewrite Z.add_0_r, fexp32 by lia.
  unfold shl_align. rewrite Z.sub_0_r.
  destruct (d - 24) as [|q|q] eqn:Eq; try lia.
  - exists P, 0. assert (d = 24) by lia.
    rewrite binary_round_aux_canonical; [|rewrite H in Hb; cbn in Hb |- *; lia|lia].
    split; [reflexivity|]. rewrite H in Hb. cbn in Hb |- *. lia.
  - exists (Pos.iter xO P q), (Zneg q).
    assert (Hm : 2 ^ 23 <= Zpos (Pos.iter xO P q) < 2 ^ 24).
    { rewrite Pos_iter_xO.
      replace 23 with ((d - 1) + Zpos q) by lia.
      replace 24 with (d + Zpos q) by lia.
      rewrite !Z.pow_add_r by lia.
      assert (0 < 2 ^ Zpos q) by (apply Z.pow_pos_nonneg; lia). nia. }
    rewrite binary_round_aux_canonical; [|exact Hm|lia].
    split; [reflexivity|]. split; [exact Hm|lia].
Qed.

Lemma f32_add_eps_absorbed x :
  Binary32.normal x -> Binary32.f32_add x Binary32.epsilon = x.
Proof.
  intros (m & e & -> & Hm & He).
  unfold Binary32.f32_add, Binary32.epsilon, SFadd. 
  rewrite Z.min_r by lia.
  change (shl_align 11258999 (-50) (-50)) with (11258999%positive, -50).
  unfold shl_align.
  destruct (-50 - e) as [|q|q] eqn:Eq; try lia.
  cbn [fst cond_Zopp].
  unfold binary_normalize.
  assert (Hq : Zpos q = e + 50) by lia.
  rewrite <- Pos2Z.inj_add.
  unfold binary_round.
  assert (HM : Zpos (Pos.iter xO m q + 11258999) = Zpos m * 2 ^ Zpos q + 11258999).
  { rewrite Pos2Z.inj_add, Pos_iter_xO. reflexivity. }
  assert (H24 : 2 ^ 24 <= 2 ^ (Zpos q - 1)).
  { apply Z.pow_le_mono_r; lia. }
  assert (HdM : Zpos (digits2_pos (Pos.iter xO m q + 11258999)) = 24 + Zpos q).
  { apply digits2_pos_bounds; [lia|]. rewrite HM.
    replace (24 + Zpos q - 1) with (23 + Zpos q) by lia.
    assert (Hpow : 2 ^ Zpos q = 2 * 2 ^ (Zpos q - 1)).
    { rewrite <- Z.pow_succ_r by lia. f_equal. lia. }
    rewrite !Z.pow_add_r by lia. rewrite Hpow.
    change (2 ^ 24) with 16777216 in *. change (2 ^ 23) with 8388608 in *.
    generalize dependent (2 ^ (Zpos q - 1)). intros X **. nia. }
  rewrite HdM, fexp32 by lia.
  unfold shl_align.
  replace (24 + Zpos q + -50 - 24 - -50) with (Zpos q) by lia.
  rewrite (binary_round_aux_low m q _ 11258999); [f_equal; lia|exact Hm| |exact HM|lia].
  change (2 ^ 24) with 16777216 in H24. lia.
Qed.

Lemma f32_div_self x :
  Binary32.normal x -> Binary32.f32_div x x = Binary32.f32_one.
Proof.
  intros (m & e & -> & Hm & He).
  unfold Binary32.f32_div, SFdiv, SFdiv_core_binary. cbn [Zdigits2 xorb].
  rewrite (digits2_pos_bounds m 24) by (cbn; lia).
  replace (24 + e - (24 + e)) with 0 by lia.
  replace (e - e) with 0 by lia.
  change (Z.min (fexp Binary32.prec Binary32.emax 0) 0) with (-24)%Z.
  change (0 - -24) with 24.
  cbv iota.
  rewrite Z.shiftl_mul_pow2 by lia.
  assert (Hdiv : Z.div_eucl (Zpos m * 2 ^ 24) (Zpos m) = (2 ^ 24, 0)).
  { pose proof (Z.div_eucl_eq (Zpos m * 2 ^ 24) (Zpos m) ltac:(lia)) as E.
    pose proof (Z.mod_pos_bound (Zpos m * 2 ^ 24) (Zpos m) ltac:(lia)) as B.
    unfold Z.modulo in B.
    destruct (Z.div_eucl (Zpos m * 2 ^ 24) (Zpos m)) as [q r].
    assert (r = 0 /\ q = 2 ^ 24) as [-> ->]; [|reflexivity].
    assert (Zpos m * (2 ^ 24 - q) = r) by lia.
    assert (2 ^ 24 - q = 0) by nia. split; nia. }
  rewrite Hdiv.
  assert (Hloc : new_location (Zpos m) 0 = loc_Exact).
  { unfold new_location, new_location_even, new_location_odd.
    destruct (Z.even (Zpos m)); reflexivity. }
  rewrite Hloc. reflexivity.
Qed.

(** [Binary32.epsilon] is the quotient of 1 by 10^8 in binary32. *)
Lemma epsilon_1e_8 :
  Binary32.f32_div (binary_normalize Binary32.prec Binary32.emax 1 0 false)
    (binary_normalize Binary32.prec Binary32.emax 100000000 0 false)
  = Binary32.epsilon.
Proof. vm_compute. reflexivity. Qed.

Lemma f32_of_nat_normal (n : nat) :
  (0 < n)%nat -> Z.of_nat n < 2 ^ 24 -> Binary32.normal (Binary32.f32_of_nat n).
Proof.
  intros Hn Hb. unfold Binary32.f32_of_nat.
  destruct (f32_of_Z_normal (Z.of_nat n) ltac:(lia)) as (m & e & -> & Hm & He).
  exists m, e. split; [reflexivity|]. split; [exact Hm|lia].
Qed.

(** In binary32 the divisor [num_pos + epsilon] of [get_recall] is
    [max(num_pos, epsilon)]. *)
Lemma f32_add_epsilon_max (n : nat) :
  Z.of_nat n < 2 ^ 24 ->
  Binary32.f32_add (Binary32.f32_of_nat n) Binary32.epsilon
  = Binary32.f32_max (Binary32.f32_of_nat n) Binary32.epsilon.
Proof.
  intros Hb. destruct n as [|n]; [reflexivity|].
  pose proof (f32_of_nat_normal (S n) ltac:(lia) Hb) as Hx.
  rewrite (f32_add_eps_absorbed _ Hx).
  destruct Hx as (m & e & -> & Hm & He).
  unfold Binary32.f32_max, Binary32.epsilon, SFltb, SFcompare.
  destruct (Z.compare_spec e (-50)) as [E|E|E]; try lia. reflexivity.
Qed.

Lemma recall_user_all_hits (n : nat) :
  (0 < n)%nat -> Z.of_nat n < 2 ^ 24 -> Binary32.recall_user n n = Binary32.f32_one.
Proof.
  intros Hn Hb. unfold Binary32.recall_user.
  pose proof (f32_of_nat_normal n Hn Hb) as Hx.
  rewrite (f32_add_eps_absorbed _ Hx). apply f32_div_self, Hx.
Qed.

#[local] Close Scope Z_scope.

(** ** Recall of a single user in IEEE arithmetic *)

Lemma batch_res_ndcg_b32_snd (nomina : matrix bool -> matrix bool -> nat -> spec_float)
    (b : batch) (k : nat) :
  snd (batch_res (Binary32.get_ndcg nomina) b k) = Z.of_nat (count_pos_at k b).
Proof.
  unfold batch_res, Binary32.get_ndcg. cbn [snd].
  change (snd (get_ndcg (batch_pred b) (grd_of b) (batch_hits b k) k))
    with (snd (batch_res get_ndcg b k)).
  rewrite batch_res_ndcg. reflexivity.
Qed.

Lemma entry_after_b32_ndcg_snd (nomina : matrix bool -> matrix bool -> nat -> spec_float)
    (dl : list batch) (k : nat) :
  snd (entry_after (S754_zero false) Binary32.f64_add (Binary32.get_ndcg nomina) dl k)
  = Z.of_nat (count_pos_at k (concat dl)).
Proof.
  rewrite entry_after_snd.
  rewrite (map_ext _ _ (fun b => batch_res_ndcg_b32_snd nomina b k)).
  apply (Zsum_map_concat (count_pos_at k)); [apply count_pos_at_app|reflexivity].
Qed.

Lemma count_pos_single (u : user_row) : 0 < num_pos_of u -> count_pos [u] = 1.
Proof.
  intros H. unfold count_pos. cbn [List.filter].
  destruct (Nat.ltb_spec 0 (num_pos_of u)); [reflexivity|lia].
Qed.

(** C2, as the code has it: a pass over a single user who has at least
    one positive (fewer than 2^24), on which nothing raises for the
    configured K, returns Recall@K = 1.0 exactly for every configured K whose
    selected columns hold all the positives of the user, because binary32
    rounds [num_pos + 1e-8] to [num_pos]; for every number of positives the
    divisor [num_pos + 1e-8] of the per-user recall is [max(num_pos, 1e-8)]
    in binary32. *)
Theorem recall_one_when_all_positives_retrieved
    (nomina : matrix bool -> matrix bool -> nat -> spec_float)
    (u : user_row) (topks : list nat) (k : nat) (cols : list nat) :
  batch_ok topks [u] = true ->
  k ∈ topks ->
  row_top u k = OK cols ->
  (forall c, grd_row u !! c = Some true -> c ∈ cols) ->
  0 < num_pos_of u ->
  (Z.of_nat (num_pos_of u) < 2 ^ 24)%Z ->
  num_pos_of u <= k
  /\ (exists m users bundles scores,
        Binary32.test nomina [[u]] topks = OK (m, users, bundles, scores)
        /\ recall m !! k = Some Binary32.f64_one)
  /\ (forall hit_cnt num_pos, (Z.of_nat num_pos < 2 ^ 24)%Z ->
        Binary32.recall_user hit_cnt num_pos
        = Binary32.f32_div (Binary32.f32_of_nat hit_cnt)
            (Binary32.f32_max (Binary32.f32_of_nat num_pos) Binary32.epsilon)).
Proof.
  intros Hok Hin Hcols Hall Hp Hb.
  pose proof (proj1 (batch_ok_rows topks [u]) Hok) as [Hnz Hrow].
  cbn [forallb] in Hrow. apply andb_true_iff in Hrow as [Hrow _].
  assert (Hh : is_ok (row_hits u k) = true).
  { exact (row_ok_hits topks u k Hrow Hin). }
  apply (OK_from_ok []) in Hh. set (hits := from_ok [] (row_hits u k)) in *.
  pose proof (hits_all_positives u k cols hits Hcols Hh Hall) as Hcnt.
  destruct (row_top_NoDup u k cols Hcols) as (_ & Hlen & _).
  assert (Hk : num_pos_of u <= k).
  { rewrite <- Hcnt, <- (length_row_hits u k hits Hh).
    clear. induction hits as [|b hits IH]; [reflexivity|].
    change (row_sum (b :: hits)) with (if b then S (row_sum hits) else row_sum hits).
    destruct b; cbn [length]; lia. }
  split; [exact Hk|]. split.
  - destruct (test_with_OK (S754_zero false) Binary32.f64_add Binary32.f64_div_int
                Binary32.get_recall (Binary32.get_ndcg nomina) topks [[u]])
      as (m & Hm & Hr & _).
    { split; [cbn [forallb]; rewrite Hok; reflexivity|].
      split; [discriminate|]. split; intros k' Hk'.
      - rewrite entry_after_b32_recall_snd. cbn [concat]. rewrite app_nil_r.
        rewrite count_pos_single by exact Hp. discriminate.
      - rewrite entry_after_b32_ndcg_snd. cbn [concat]. rewrite app_nil_r.
        pose proof (proj1 (Forall_forall _ _) Hnz k' Hk') as Hk0. cbn beta in Hk0.
        rewrite count_pos_at_positive, count_pos_single by lia. discriminate. }
    exists m. eexists _, _, _. split; [exact Hm|].
    rewrite (Hr k), decide_True by exact Hin. f_equal.
    unfold entry_after. cbn [map foldl]. unfold add_res. cbn [fst snd].
    unfold batch_res, Binary32.get_recall. cbn [fst snd].
    rewrite length_batch_pred, count_zero_pos, count_pos_single by exact Hp.
    unfold batch_hits, grd_of. cbn [map zip_with]. fold hits.
    fold (num_pos_of u). rewrite Hcnt, recall_user_all_hits by assumption.
    reflexivity.
  - intros hit_cnt num_pos Hn. unfold Binary32.recall_user.
    rewrite f32_add_epsilon_max by exact Hn. reflexivity.
Qed.

Lemma recall_one_when_all_positives_retrieved_witness :
  num_pos_of (sample_user 2 [0; 1] [5]) <= 2
  /\ (exists m users bundles scores,
        Binary32.test (fun _ _ _ => S754_zero false) [[sample_user 2 [0; 1] [5]]]
          [1; 2; 40]
        = OK (m, users, bundles, scores)
        /\ recall m !! 2 = Some Binary32.f64_one)
  /\ (forall hit_cnt num_pos, (Z.of_nat num_pos < 2 ^ 24)%Z ->
        Binary32.recall_user hit_cnt num_pos
        = Binary32.f32_div (Binary32.f32_of_nat hit_cnt)
            (Binary32.f32_max (Binary32.f32_of_nat num_pos) Binary32.epsilon)).
Proof.
  apply (recall_one_when_all_positives_retrieved _ (sample_user 2 [0; 1] [5])
           [1; 2; 40] 2 [0; 1]).
  - vm_compute. reflexivity.
  - right. left.
  - vm_compute. reflexivity.
  - intros c Hc. destruct c as [|[|c]]; [left|right; left|]. exfalso.
    assert (Hf : Forall (fun b => b = false) (drop 2 (grd_row (sample_user 2 [0; 1] [5])))).
    { apply row_sum_zero. vm_compute. reflexivity. }
    rewrite Forall_forall in Hf. specialize (Hf true).
    discriminate Hf. apply (list_elem_of_lookup_2 _ c). rewrite lookup_drop. exact Hc.
  - vm_compute. lia.
  - vm_compute. reflexivity.
Defined.

(** C2 as stated fails: for a user without positives K is at least the
    number of positives and all of them are retrieved, and the pass raises
    a [ZeroDivisionError] instead of returning a recall of 1.0. *)
Lemma recall_undefined_without_positives :
  num_pos_of (sample_user 7 [] [3]) <= 1
  /\ row_top (sample_user 7 [] [3]) 1 = OK [0]
  /\ (forall c, grd_row (sample_user 7 [] [3]) !! c = Some true -> c ∈ [0])
  /\ test [[sample_user 7 [] [3]]] [1] = Raise ZeroDivisionError
  /\ Binary32.test (fun _ _ _ => S754_zero false) [[sample_user 7 [] [3]]] [1]
     = Raise ZeroDivisionError.
Proof.
  assert (Hz : num_pos_of (sample_user 7 [] [3]) = 0) by (vm_compute; reflexivity).
  split; [rewrite Hz; lia|]. split; [vm_compute; reflexivity|]. split.
  - intros c Hc. exfalso. apply row_sum_zero in Hz. rewrite Forall_forall in Hz.
    specialize (Hz true). discriminate Hz. apply (list_elem_of_lookup_2 _ c), Hc.
  - split.
    + unfold test. apply (test_with_zero_division _ _ _ _ _ [1] _ 1).
      * vm_compute. reflexivity.
      * discriminate.
      * left.
      * left. rewrite entry_after_recall. reflexivity.
    + unfold Binary32.test. apply (test_with_zero_division _ _ _ _ _ [1] _ 1).
      * vm_compute. reflexivity.
      * discriminate.
      * left.
      * left. rewrite entry_after_b32_recall_snd. reflexivity.
Qed.

(** ** Model selection *)

Section SelectorFacts.
Context {model_state : Type}.
Variable c : conf.
Variable metrics : snapshot.
Variable log_path : string.

Lemma getitem_Some (d : gmap nat R) (topk : nat) (v : R) :
  d !! topk = Some v -> getitem d topk = OK v.
Proof. unfold getitem. intros ->. reflexivity. Qed.

Lemma write_log_ok (topk : nat) (step : Z) :
  has_topk metrics topk ->
  exists out : list (io_event model_state),
    write_log log_path topk step metrics = OK out /\ List.filter is_persist out = [].
Proof.
  intros ([rv Hrv] & [nv Hnv] & [rt Hrt] & [nt Hnt]). unfold write_log.
  rewrite (getitem_Some _ _ _ Hrv), (getitem_Some _ _ _ Hrt),
    (getitem_Some _ _ _ Hnv), (getitem_Some _ _ _ Hnt).
  cbn. eexists. split; reflexivity.
Qed.

Lemma write_logs_ok (topks : list nat) (step : Z) :
  (forall topk, topk ∈ topks -> has_topk metrics topk) ->
  exists logged : list (list (io_event model_state)),
    mapM (fun topk => write_log log_path topk step metrics) topks = OK logged
    /\ List.filter is_persist (concat logged) = [].
Proof.
  induction topks as [|topk topks IH]; intros H.
  - exists []. split; reflexivity.
  - destruct (write_log_ok topk step (H topk ltac:(left))) as (out & Hout & Hf).
    destruct IH as (logged & Hl & Hfl); [intros t Ht; apply H; right; exact Ht|].
    exists (out :: logged). split.
    + cbn. rewrite Hout. cbn. rewrite Hl. reflexivity.
    + cbn [concat]. rewrite List.filter_app, Hf, Hfl. reflexivity.
Qed.

Lemma copy_fold (best_epoch : Z) (topks : list nat) :
  forall st0 : snapshot * per_split (gmap nat log_line) * list (io_event model_state),
  (forall topk, topk ∈ topks -> has_topk metrics topk) ->
  exists st,
    foldlM (copy_topk log_path metrics best_epoch) st0 topks = OK st
    /\ (forall topk, topk ∈ topks -> same_at (fst (fst st)) metrics topk)
    /\ (forall topk, topk ∉ topks -> same_at (fst (fst st)) (fst (fst st0)) topk)
    /\ List.filter is_persist (snd st) = List.filter is_persist (snd st0).
Proof.
  induction topks as [|topk topks IH]; intros [[bm bp] out] H.
  - eexists. split; [reflexivity|]. split; [intros t Ht; inversion Ht|].
    split; [|reflexivity]. intros t _. repeat split.
  - destruct (H topk ltac:(left)) as ([vr Hvr] & [vn Hvn] & [tr Htr] & [tn Htn]).
    cbn [foldlM].
    destruct (copy_topk log_path metrics best_epoch (bm, bp, out) topk) as [s1|e] eqn:E1;
      unfold copy_topk in E1;
      rewrite (getitem_Some _ _ _ Hvr), (getitem_Some _ _ _ Hvn),
        (getitem_Some _ _ _ Htr), (getitem_Some _ _ _ Htn) in E1; cbn in E1;
      [injection E1 as <-|discriminate E1].
    cbn.
    match goal with |- context [foldlM _ ?s topks] => destruct (IH s) as (st & Hst & Hin & Hout & Hf) end.
    { intros t Ht. apply H. right. exact Ht. }
    exists st. split; [exact Hst|]. split; [|split].
    + intros t Ht. destruct (decide (t ∈ topks)) as [Hin'|Hnin]; [apply Hin, Hin'|].
      apply elem_of_cons in Ht as [->|Ht]; [|contradiction].
      destruct (Hout topk Hnin) as (E1 & E2 & E3 & E4). cbn in E1, E2, E3, E4.
      unfold same_at. rewrite E1, E2, E3, E4, !lookup_insert_eq. auto.
    + intros t Ht. apply not_elem_of_cons in Ht as [Hne Hnin].
      destruct (Hout t Hnin) as (E1 & E2 & E3 & E4). cbn in E1, E2, E3, E4.
      unfold same_at. cbn [fst]. rewrite E1, E2, E3, E4.
      rewrite !lookup_insert_ne by congruence. auto.
    + rewrite Hf. cbn [snd]. rewrite List.filter_app. cbn. apply app_nil_r.
Qed.

Lemma improved_spec (topk_ : nat) (best_metrics : snapshot) (r rb n nb : R) :
  recall (on_val metrics) !! topk_ = Some r ->
  recall (on_val best_metrics) !! topk_ = Some rb ->
  ndcg (on_val metrics) !! topk_ = Some n ->
  ndcg (on_val best_metrics) !! topk_ = Some nb ->
  exists b, improved topk_ metrics best_metrics = OK b
    /\ (b = true <-> (r > rb)%R /\ (n > nb)%R).
Proof.
  intros Hr Hrb Hn Hnb. unfold improved.
  rewrite (getitem_Some _ _ _ Hr), (getitem_Some _ _ _ Hrb). cbn.
  destruct (Rgt_dec r rb) as [H1|H1].
  - rewrite (getitem_Some _ _ _ Hn), (getitem_Some _ _ _ Hnb). cbn.
    destruct (Rgt_dec n nb) as [H2|H2]; eexists; (split; [reflexivity|]).
    + split; auto.
    + split; [discriminate|]. intros [_ H]. contradiction.
  - eexists. split; [reflexivity|]. split; [discriminate|]. intros [H _]. contradiction.
Qed.
End SelectorFacts.

(** C1: the best snapshot is replaced exactly when recall and ndcg of the
    validation split at [topk_valid] are both strictly above those of the best
    snapshot.  Then the outputs that persist are, once each and in this
    order, the three files of the test-split prediction export, the model
    parameters and the configuration without its device entry; the best
    snapshot takes every entry of the candidate for every configured K on
    both splits and the epoch is recorded.  Otherwise the best snapshot, the
    summary lines and the best epoch are returned as they were and no
    output persists. *)
Theorem log_metrics_selects {model_state : Type} (c : conf) (model : model_state)
    (metrics : snapshot) (log_path checkpoint_model_path checkpoint_conf_path : string)
    (epoch batch_anchor : Z) (best_metrics : snapshot)
    (best_perform : per_split (gmap nat log_line)) (best_epoch : Z)
    (user_list : list Z) (bundle_list : matrix nat) (score_list : matrix Q)
    (r rb n nb : R) :
  (forall topk, topk ∈ conf_topk c -> has_topk metrics topk) ->
  recall (on_val metrics) !! conf_topk_valid c = Some r ->
  recall (on_val best_metrics) !! conf_topk_valid c = Some rb ->
  ndcg (on_val metrics) !! conf_topk_valid c = Some n ->
  ndcg (on_val best_metrics) !! conf_topk_valid c = Some nb ->
  exists best_metrics' best_perform' best_epoch' out,
    log_metrics c model metrics log_path checkpoint_model_path checkpoint_conf_path
      epoch batch_anchor best_metrics best_perform best_epoch
      user_list bundle_list score_list
    = OK (best_metrics', best_perform', best_epoch', out)
    /\ ((r > rb)%R /\ (n > nb)%R ->
        best_epoch' = epoch
        /\ (forall topk, topk ∈ conf_topk c -> same_at best_metrics' metrics topk)
        /\ List.filter is_persist out
           = write_user_bundle_predict_list c user_list bundle_list score_list
             ++ [save_model checkpoint_model_path model;
                 dump_conf checkpoint_conf_path (delete "device" (conf_dict c))]
        /\ delete "device" (conf_dict c) !! "device" = None
        /\ (forall key, key ≠ "device" ->
              delete "device" (conf_dict c) !! key = conf_dict c !! key))
    /\ (~ ((r > rb)%R /\ (n > nb)%R) ->
        best_metrics' = best_metrics /\ best_perform' = best_perform
        /\ best_epoch' = best_epoch /\ List.filter is_persist out = []).
Proof.
  intros Hkeys Hr Hrb Hn Hnb. unfold log_metrics.
  destruct (write_logs_ok (model_state := model_state) metrics log_path (conf_topk c)
              batch_anchor Hkeys) as (logged & Hlogged & Hfl).
  rewrite Hlogged. cbn.
  destruct (improved_spec metrics (conf_topk_valid c) best_metrics r rb n nb Hr Hrb Hn Hnb)
    as (b & Hb & Hiff).
  rewrite Hb. cbn. destruct b.
  - destruct (copy_fold (model_state := model_state) metrics log_path epoch (conf_topk c)
                (best_metrics, best_perform, []) Hkeys) as (st & Hst & Hin & _ & Hf).
    rewrite Hst. cbn. eexists _, _, _, _. split; [reflexivity|]. split.
    + intros _. split; [reflexivity|]. split; [exact Hin|]. split; [|split].
      * rewrite !List.filter_app, Hfl. cbn [app List.filter is_persist].
        rewrite Hf. reflexivity.
      * apply lookup_delete_eq.
      * intros key Hkey. apply lookup_delete_ne. congruence.
    + intros Hno. exfalso. apply Hno, Hiff. reflexivity.
  - eexists _, _, _, _. split; [reflexivity|]. split.
    + intros Hyes. apply Hiff in Hyes. discriminate.
    + intros _. auto.
Qed.

(** The snapshot of [init_best_metrics] holds 0 for every configured K. *)
Lemma init_best_metrics_zero (c : conf) (topk : nat) :
  topk ∈ conf_topk c ->
  let best := fst (init_best_metrics c) in
  recall (on_val best) !! topk = Some 0%R /\ ndcg (on_val best) !! topk = Some 0%R
  /\ recall (on_test best) !! topk = Some 0%R /\ ndcg (on_test best) !! topk = Some 0%R.
Proof.
  intros Hin. cbn.
  assert (G : forall (l : list nat) (m : gmap nat R),
    topk ∈ l -> foldl (fun d k => <[k := 0%R]> d) m l !! topk = Some 0%R).
  { induction l as [|x l IH]; intros m H; [inversion H|]. cbn.
    destruct (decide (topk ∈ l)) as [Hl|Hl]; [apply IH, Hl|].
    apply elem_of_cons in H as [->|H]; [|contradiction].
    clear IH. revert m. induction l as [|y l IH]; intros m; cbn.
    - apply lookup_insert_eq.
    - apply not_elem_of_cons in Hl as [Hne Hl]. rewrite insert_insert_ne by congruence.
      apply IH, Hl. }
  rewrite (G _ _ Hin). auto.
Qed.

Lemma sample_snapshot_lookup (r n : R) (topk : nat) :
  topk ∈ [20; 40; 80] ->
  recall (on_val (sample_snapshot r n)) !! topk = Some r
  /\ ndcg (on_val (sample_snapshot r n)) !! topk = Some n
  /\ recall (on_test (sample_snapshot r n)) !! topk = Some r
  /\ ndcg (on_test (sample_snapshot r n)) !! topk = Some n.
Proof.
  intros H. unfold sample_snapshot. cbn [on_val on_test recall ndcg].
  repeat (apply elem_of_cons in H as [->|H]);
    [| | |inversion H]; repeat split; reflexivity.
Qed.

Lemma sample_snapshot_has_topk (r n : R) (topk : nat) :
  topk ∈ [20; 40; 80] -> has_topk (sample_snapshot r n) topk.
Proof.
  intros H. destruct (sample_snapshot_lookup r n topk H) as (E1 & E2 & E3 & E4).
  unfold has_topk. rewrite E1, E2, E3, E4. eauto.
Qed.

Lemma log_metrics_selects_witness :
  let c := sample_conf "ED" (1 # 4) 1 in
  let best := sample_snapshot (10 / 100) (8 / 100) in
  (exists best' perform' out,
     log_metrics c tt (sample_snapshot (12 / 100) (9 / 100)) "log" "model" "conf" 7 70
       best (PerSplit ∅ ∅) 0 [1%Z] [[3]] [[inject_Z 5]]
     = OK (best', perform', 7%Z, out)
     /\ List.filter is_persist out
        = [save_users "./log/Youshu/BunCa/user_list.pt" [1%Z];
           save_bundles "./log/Youshu/BunCa/bundle_list.pt" [[3]];
           save_scores "./log/Youshu/BunCa/score_list.pt" [[inject_Z 5]];
           save_model "model" tt;
           dump_conf "conf" (delete "device" (conf_dict c))])
  /\ (exists out,
     log_metrics c tt (sample_snapshot (12 / 100) (7 / 100)) "log" "model" "conf" 7 70
       best (PerSplit ∅ ∅) 0 [1%Z] [[3]] [[inject_Z 5]]
     = OK (best, PerSplit ∅ ∅, 0%Z, out)
     /\ List.filter is_persist out = []).
Proof.
  intros c best. split.
  - destruct (log_metrics_selects c tt (sample_snapshot (12 / 100) (9 / 100))
                "log" "model" "conf" 7 70 best (PerSplit ∅ ∅) 0 [1%Z] [[3]] [[inject_Z 5]]
                (12 / 100) (10 / 100) (9 / 100) (8 / 100))
      as (best' & perform' & epoch' & out & H & Hyes & _).
    + intros topk. apply sample_snapshot_has_topk.
    + reflexivity.
    + reflexivity.
    + reflexivity.
    + reflexivity.
    + destruct Hyes as (-> & _ & Hf & _); [split; lra|].
      exists best', perform', out. split; [exact H|exact Hf].
  - destruct (log_metrics_selects c tt (sample_snapshot (12 / 100) (7 / 100))
                "log" "model" "conf" 7 70 best (PerSplit ∅ ∅) 0 [1%Z] [[3]] [[inject_Z 5]]
                (12 / 100) (10 / 100) (7 / 100) (8 / 100))
      as (best' & perform' & epoch' & out & H & _ & Hno).
    + intros topk. apply sample_snapshot_has_topk.
    + reflexivity.
    + reflexivity.
    + reflexivity.
    + reflexivity.
    + destruct Hno as (-> & -> & -> & Hf); [intros [_ Hn]; lra|].
      exists out. split; [exact H|exact Hf].
Defined.

(** ** The edge-dropout schedule *)

Section Schedule.
Variable c : conf.
Variable batch_cnt : nat.
Let n : Z := ed_interval_bs batch_cnt c.

Lemma py_mod_nonzero (a b : Z) : b ≠ 0%Z -> py_mod a b = OK (a mod b)%Z.
Proof. intros Hb. unfold py_mod. destruct (decide (b = 0%Z)); [contradiction|reflexivity]. Qed.

Lemma ED_drop_divides (t : Z) :
  conf_aug_type c = "ED" -> n ≠ 0%Z ->
  exists d, ED_drop c n t = OK d /\ (d = true <-> (n | t + 1)%Z).
Proof.
  intros Haug Hn. unfold ED_drop.
  destruct (decide (conf_aug_type c = "ED")) as [_|Hne]; [|contradiction].
  rewrite py_mod_nonzero by assumption. cbn.
  eexists; split; [reflexivity|].
  rewrite Z.eqb_eq. apply Z.mod_divide. assumption.
Qed.

Lemma ED_drop_other (t : Z) :
  conf_aug_type c ≠ "ED" -> ED_drop c n t = OK false.
Proof.
  intros Haug. unfold ED_drop.
  destruct (decide (conf_aug_type c = "ED")); [contradiction|reflexivity].
Qed.

Lemma ED_drop_zero (t : Z) :
  conf_aug_type c = "ED" -> n = 0%Z -> ED_drop c n t = Raise ZeroDivisionError.
Proof.
  intros Haug Hn. unfold ED_drop, py_mod.
  destruct (decide (conf_aug_type c = "ED")); [|contradiction].
  destruct (decide (n = 0%Z)); [reflexivity|contradiction].
Qed.
End Schedule.

Lemma run_seq_events {A} (f : A -> run) (l : list A) (e : train_event) :
  e ∈ fst (run_seq f l) -> exists x, x ∈ l /\ e ∈ fst (f x).
Proof.
  induction l as [|x l IH]; cbn.
  - intros H. inversion H.
  - destruct (f x) as [tr [err|]] eqn:Ef; cbn.
    + intros H. exists x. split; [left|]. rewrite Ef. exact H.
    + rewrite elem_of_app. intros [H|H].
      * exists x. split; [left|]. rewrite Ef. exact H.
      * destruct (IH H) as (y & Hy & He). exists y. split; [right; exact Hy|exact He].
Qed.

Lemma train_epoch_forward (c : conf) (batch_cnt : nat) (n : Z) (epoch : nat) t d :
  forward t d ∈ fst (train_epoch c batch_cnt n epoch) ->
  ED_drop c n t = OK d.
Proof.
  unfold train_epoch.
  destruct (run_seq _ (seq 0 batch_cnt)) as [tr r] eqn:Er.
  assert (Htr : forward t d ∈ tr -> ED_drop c n t = OK d).
  { intros H. replace tr with (fst (run_seq (train_batch c n (Z.of_nat epoch * Z.of_nat batch_cnt)%Z)
                                     (seq 0 batch_cnt))) in H by (rewrite Er; reflexivity).
    apply run_seq_events in H as (i & _ & Hi).
    unfold train_batch in Hi.
    destruct (ED_drop c n (Z.of_nat epoch * Z.of_nat batch_cnt + Z.of_nat i)) eqn:E; cbn in Hi.
    - apply list_elem_of_singleton in Hi. injection Hi as -> ->. exact E.
    - inversion Hi. }
  destruct r as [err|]; cbn; [exact Htr|].
  destruct (py_mod _ _) as [r|err]; cbn; [|exact Htr].
  destruct (r =? 0)%Z; cbn; [|exact Htr].
  rewrite elem_of_app. intros [H|H]; [exact (Htr H)|].
  apply list_elem_of_singleton in H. discriminate H.
Qed.

Lemma py_int_floor (x : Q) :
  (0 <= x)%Q -> (inject_Z (py_int x) <= x)%Q /\ (x < inject_Z (py_int x + 1))%Q.
Proof.
  intros Hx. destruct x as [p q]. unfold py_int, Qle, Qlt in *. cbn in *.
  assert (Hp : (0 <= p)%Z) by lia.
  rewrite Z.quot_div_nonneg by lia.
  rewrite !Z.mul_1_r. split.
  - rewrite Z.mul_comm. apply Z.mul_div_le. lia.
  - pose proof (Z.mul_succ_div_gt p (Zpos q) ltac:(lia)). lia.
Qed.

(** *** The product in binary64 *)

Lemma binary_round_aux_sign (prec emax : Z) (m e : Z) (l : location) :
  is_negative (binary_round_aux prec emax false m e l) = false.
Proof.
  unfold binary_round_aux.
  destruct (shr_fexp prec emax m e l) as [mrs' e'].
  destruct (shr_fexp prec emax _ e' loc_Exact) as [mrs'' e''].
  destruct (shr_m mrs''); [reflexivity| |reflexivity].
  destruct (e'' <=? emax - prec)%Z; reflexivity.
Qed.

Lemma round_Q_sign (prec emax : Z) (q : Q) :
  (0 <= q)%Q -> is_negative (round_Q prec emax q) = false.
Proof.
  intros Hq. unfold round_Q. destruct q as [[|n|n] d]; cbn [Qnum Qden].
  - reflexivity.
  - unfold SFdiv. destruct (SFdiv_core_binary _ _ _ _ _ _) as [[mz ez] lz].
    apply binary_round_aux_sign.
  - exfalso. unfold Qle in Hq. cbn in Hq. lia.
Qed.

Lemma binary_normalize_sign (prec emax : Z) (n : nat) :
  is_negative (binary_normalize prec emax (Z.of_nat n) 0 false) = false.
Proof.
  unfold binary_normalize. destruct (Z.of_nat n) as [|m|m] eqn:E; [reflexivity| |lia].
  unfold binary_round. destruct (shl_align _ _ _) as [mz ez].
  apply binary_round_aux_sign.
Qed.

Lemma SFmul_sign (prec emax : Z) (x y : spec_float) :
  is_negative x = false -> is_negative y = false ->
  is_negative (SFmul prec emax x y) = false.
Proof.
  destruct x as [sx|sx| |[|] mx ex], y as [sy|sy| |[|] my ey];
    cbn [is_negative SFmul]; intros Hx Hy; try reflexivity; try discriminate.
  apply binary_round_aux_sign.
Qed.

Lemma Q_of_float_sign (x : spec_float) :
  is_negative x = false -> (0 <= Q_of_float x)%Q.
Proof.
  destruct x as [s|s| |[|] m e]; cbn [is_negative Q_of_float]; intros H;
    try discriminate; try apply Qle_refl.
  rewrite Qred_correct. apply Qmult_le_0_compat.
  - unfold Qle. cbn. lia.
  - apply Qpower_0_le. unfold Qle. cbn. lia.
Qed.

Lemma ed_interval_float_nonneg (c : conf) (batch_cnt : nat) :
  (0 <= conf_ed_interval c)%Q -> (0 <= Q_of_float (ed_interval_float batch_cnt c))%Q.
Proof.
  intros H. apply Q_of_float_sign, SFmul_sign.
  - apply binary_normalize_sign.
  - apply round_Q_sign, H.
Qed.

(** [10 * 0.3] is 3.0 in binary64 and [3 * 0.3333333333333333] is 1.0: the
    intervals are 3 and 1, and ten batches at 0.3 drop at the counters 2, 5
    and 8. *)
Lemma ed_interval_bs_rounded :
  ed_interval_bs 10 (sample_conf "ED" (3 # 10) 1) = 3%Z
  /\ ed_interval_bs 3 (sample_conf "ED" (3333333333333333 # 10000000000000000) 1) = 1%Z
  /\ dropped_anchors (fst (train (sample_conf "ED" (3 # 10) 1) 10)) = [2; 5; 8]%Z.
Proof. repeat split; vm_compute; reflexivity. Qed.

(** C8, as the code has it: with augmentation type ED and a non-negative
    interval fraction, the interval is [int(batch_cnt * ed_interval)], the
    product as binary64 rounds it, truncated and not rounded up, and a batch
    at global counter [t] runs with edge dropout exactly when [t + 1] is a
    multiple of it; this holds for the decision of a single batch and for
    every model call of the training loop. *)
Theorem ED_drop_every_truncated_interval (c : conf) (batch_cnt : nat) :
  conf_aug_type c = "ED" ->
  (0 <= conf_ed_interval c)%Q ->
  ed_interval_bs batch_cnt c ≠ 0%Z ->
  let n := ed_interval_bs batch_cnt c in
  let x := Q_of_float (ed_interval_float batch_cnt c) in
  (inject_Z n <= x)%Q /\ (x < inject_Z (n + 1))%Q
  /\ (forall t, exists d, ED_drop c n t = OK d /\ (d = true <-> (n | t + 1)%Z))
  /\ (forall t d, forward t d ∈ fst (train c batch_cnt) -> (d = true <-> (n | t + 1)%Z)).
Proof.
  intros Haug Hpos Hn n x.
  pose proof (ed_interval_float_nonneg c batch_cnt Hpos) as Hx. fold x in Hx.
  destruct (py_int_floor x Hx) as [Hlo Hhi].
  split; [exact Hlo|]. split; [exact Hhi|]. split.
  - intros t. apply ED_drop_divides; assumption.
  - intros t d H. unfold train in H.
    apply run_seq_events in H as (epoch & _ & H).
    apply train_epoch_forward in H.
    destruct (ED_drop_divides c batch_cnt t Haug Hn) as (d' & Hd' & Hiff).
    unfold n in H. rewrite Hd' in H. injection H as <-. exact Hiff.
Qed.

Lemma ED_drop_every_truncated_interval_witness :
  let c := sample_conf "ED" (3 # 10) 1 in
  let x := Q_of_float (ed_interval_float 10 c) in
  (inject_Z 3 <= x)%Q /\ (x < inject_Z 4)%Q
  /\ (forall t, exists d, ED_drop c 3 t = OK d /\ (d = true <-> (3 | t + 1)%Z))
  /\ (forall t d, forward t d ∈ fst (train c 10) -> (d = true <-> (3 | t + 1)%Z)).
Proof.
  apply (ED_drop_every_truncated_interval (sample_conf "ED" (3 # 10) 1) 10).
  - reflexivity.
  - vm_compute. discriminate.
  - vm_compute. discriminate.
Defined.

(** C8 as stated fails: ten batches per epoch and an interval fraction of
    0.25 give [int(2.5) = 2], so the second batch runs with edge dropout,
    which a period of [ceil(2.5) = 3] excludes. *)
Lemma ED_drop_not_every_ceil :
  ED_drop (sample_conf "ED" (1 # 4) 1) (ed_interval_bs 10 (sample_conf "ED" (1 # 4) 1)) 1 = OK true
  /\ spec_ED_drop (sample_conf "ED" (1 # 4) 1) 10 1 = false
  /\ forward 1 true ∈ fst (train (sample_conf "ED" (1 # 4) 1) 10).
Proof.
  split; [vm_compute; reflexivity|]. split; [vm_compute; reflexivity|].
  vm_compute. right. left.
Qed.

(** C10: with augmentation type ED and [int(batch_cnt * ed_interval) = 0],
    the product being the finite binary64 number the multiplication rounds
    to, a run with at least one epoch and one training batch ends in a
    [ZeroDivisionError] at its first batch, before any call of the model. *)
Theorem first_batch_modulo_by_zero (c : conf) (batch_cnt : nat) :
  conf_aug_type c = "ED" ->
  is_finite (ed_interval_float batch_cnt c) = true ->
  ed_interval_bs batch_cnt c = 0%Z ->
  0 < batch_cnt -> 0 < conf_epochs c ->
  train_batch c (ed_interval_bs batch_cnt c) 0 0 = ([], Some ZeroDivisionError)
  /\ train c batch_cnt = ([], Some ZeroDivisionError).
Proof.
  intros Haug _ Hn Hb He.
  assert (H0 : train_batch c (ed_interval_bs batch_cnt c) 0 0 = ([], Some ZeroDivisionError)).
  { unfold train_batch. rewrite ED_drop_zero by assumption. reflexivity. }
  split; [exact H0|].
  unfold train.
  destruct (conf_epochs c) as [|e]; [lia|].
  destruct batch_cnt as [|b]; [lia|].
  cbn [seq run_seq]. unfold train_epoch. cbn [seq run_seq].
  change (Z.of_nat 0 * Z.of_nat (S b))%Z with 0%Z.
  rewrite H0. reflexivity.
Qed.

Lemma first_batch_modulo_by_zero_witness :
  train_batch (sample_conf "ED" (1 # 20) 3) 0 0 0 = ([], Some ZeroDivisionError)
  /\ train (sample_conf "ED" (1 # 20) 3) 10 = ([], Some ZeroDivisionError).
Proof.
  apply (first_batch_modulo_by_zero (sample_conf "ED" (1 # 20) 3) 10).
  - reflexivity.
  - reflexivity.
  - reflexivity.
  - lia.
  - cbn. lia.
Defined.

(** * Further properties of the evaluation pass *)

(** ** The range of the metrics *)

Lemma row_sum_le_length (l : list bool) : row_sum l <= length l.
Proof. induction l as [|[] l IH]; simpl; lia. Qed.

Lemma hits_le_num_pos (u : user_row) (k : nat) :
  row_sum (from_ok [] (row_hits u k)) <= num_pos_of u.
Proof.
  destruct (row_hits u k) as [h|e] eqn:E; simpl; [|lia].
  eapply hits_le_positives, E.
Qed.

Lemma user_recall_at_most_one (u : user_row) (k : nat) :
  (user_recall u k <= if 0 <? num_pos_of u then 1 else 0)%R.
Proof.
  destruct (Nat.ltb_spec 0 (num_pos_of u)) as [Hp|Hp].
  - unfold user_recall. pose proof (hits_le_num_pos u k) as Hh.
    pose proof epsilon_pos as He.
    apply le_INR in Hh. apply lt_INR in Hp. simpl in Hp.
    set (h := INR (row_sum (from_ok [] (row_hits u k)))) in *.
    set (P := INR (num_pos_of u)) in *.
    apply Rmult_le_reg_r with (P + epsilon)%R; [lra|].
    unfold Rdiv. rewrite Rmult_assoc, Rinv_l by lra. lra.
  - rewrite user_recall_zero by lia. lra.
Qed.

Lemma user_ndcg_at_most_one (u : user_row) (k : nat) :
  (user_ndcg u k <= if 0 <? clamp 0 k (num_pos_of u) then 1 else 0)%R.
Proof.
  rewrite user_ndcg_dcg_at, IDCGs_clamp.
  pose proof (length_hits_le u k) as Hl.
  pose proof (hits_le_num_pos u k) as Hh.
  pose proof (row_sum_le_length (from_ok [] (row_hits u k))) as Hs.
  destruct (clamp 0 k (num_pos_of u)) as [|c] eqn:E; unfold clamp in E.
  - change (0 <? 0) with false. change (0 =? 0) with true.
    assert (row_sum (from_ok [] (row_hits u k)) = 0) as Hz by lia.
    apply row_sum_zero in Hz. rewrite (dcg_at_zero _ Hz). lra.
  - change (0 <? S c) with true. change (S c =? 0) with false.
    destruct (dcg_at_le_top_sum (from_ok [] (row_hits u k)) 2 ltac:(lia)) as [Hd _].
    destruct (top_sum_mono (S c) (row_sum (from_ok [] (row_hits u k))) 2 ltac:(lia) ltac:(lia))
      as [Hm _].
    pose proof (top_sum_pos (S c) 2 ltac:(lia) ltac:(lia)) as Hpos.
    apply Rmult_le_reg_r with (top_sum 2 (S c)); [exact Hpos|].
    unfold Rdiv. rewrite Rmult_assoc, Rinv_l by lra. lra.
Qed.

Lemma Rsum_le_count {A} (f : A -> R) (p : A -> bool) (l : list A) :
  (forall x, (f x <= if p x then 1 else 0)%R) ->
  (Rsum (map f l) <= INR (length (List.filter p l)))%R.
Proof.
  intros Hf. induction l as [|x l IH]; [simpl; lra|].
  cbn [map List.filter]. rewrite Rsum_cons. specialize (Hf x).
  destruct (p x); cbn [length]; [rewrite S_INR|]; lra.
Qed.

Lemma Rdiv_int_unit (x : R) (n : nat) :
  (0 <= x <= INR n)%R -> Z.of_nat n ≠ 0%Z -> (0 <= Rdiv_int x (Z.of_nat n) <= 1)%R.
Proof.
  intros Hx Hn. unfold Rdiv_int. rewrite <- INR_IZR_INZ.
  assert (0 < INR n)%R as Hp by (apply lt_0_INR; lia).
  split.
  - apply Rmult_le_pos; [lra|]. left. apply Rinv_0_lt_compat, Hp.
  - apply Rmult_le_reg_r with (INR n); [exact Hp|].
    unfold Rdiv. rewrite Rmult_assoc, Rinv_l by lra. lra.
Qed.

Lemma sample_test_returns :
  exists m users bundles scores,
    test [[sample_user 1 [0] []]; [sample_user 2 [0; 5] [1]; sample_user 7 [] [3]]] [1; 2]
    = OK (m, users, bundles, scores).
Proof.
  destruct (test_with_OK 0%R Rplus Rdiv_int get_recall get_ndcg [1; 2]
              [[sample_user 1 [0] []]; [sample_user 2 [0; 5] [1]; sample_user 7 [] [3]]])
    as (m & Hm & _).
  { split; [vm_compute; reflexivity|]. split; [discriminate|].
    split; intros k Hk.
    - rewrite entry_after_recall. cbn [snd]. vm_compute. discriminate.
    - rewrite entry_after_ndcg. cbn [snd].
      rewrite count_pos_at_positive.
      + vm_compute. discriminate.
      + apply elem_of_cons in Hk as [->|Hk]; [lia|].
        apply list_elem_of_singleton in Hk as ->. lia. }
  eauto 10.
Qed.

(** X1: every recall and every ndcg that [test] returns lies between 0 and
    1. *)
Theorem test_metrics_in_unit_interval (topks : list nat) (dl : list batch)
    (m : per_metric (gmap nat R)) (users : list Z) (bundles : matrix nat) (scores : matrix Q) :
  test dl topks = OK (m, users, bundles, scores) ->
  forall k v,
    (recall m !! k = Some v -> (0 <= v <= 1)%R)
    /\ (ndcg m !! k = Some v -> (0 <= v <= 1)%R).
Proof.
  intros H k v. unfold test in H.
  apply test_with_OK_inv in H as ((_ & _ & Hzr & Hzn) & (Hlr & Hln) & _).
  specialize (Hlr k). specialize (Hln k).
  destruct (decide (k ∈ topks)) as [Hk|Hk];
    [|split; intros Hv; congruence].
  specialize (Hzr k Hk). specialize (Hzn k Hk).
  rewrite entry_after_recall in Hlr, Hzr. rewrite entry_after_ndcg in Hln, Hzn.
  cbn [fst snd] in *. split; intros Hv.
  - rewrite Hv in Hlr. injection Hlr as ->.
    apply Rdiv_int_unit; [|exact Hzr]. split.
    + apply Rsum_nonneg, Forall_forall. intros x Hx.
      apply list_elem_of_fmap in Hx as (u & -> & _). apply user_recall_nonneg.
    + apply (Rsum_le_count (fun u => user_recall u k) (fun u => 0 <? num_pos_of u)).
      intros u. apply user_recall_at_most_one.
  - rewrite Hv in Hln. injection Hln as ->.
    apply Rdiv_int_unit; [|exact Hzn]. split.
    + apply Rsum_nonneg, Forall_forall. intros x Hx.
      apply list_elem_of_fmap in Hx as (u & -> & _). apply user_ndcg_nonneg.
    + apply (Rsum_le_count (fun u => user_ndcg u k)
               (fun u => 0 <? clamp 0 k (num_pos_of u))).
      intros u. apply user_ndcg_at_most_one.
Qed.

Lemma test_metrics_in_unit_interval_witness :
  exists m users bundles scores,
    test [[sample_user 1 [0] []]; [sample_user 2 [0; 5] [1]; sample_user 7 [] [3]]] [1; 2]
    = OK (m, users, bundles, scores)
    /\ forall k v,
         (recall m !! k = Some v -> (0 <= v <= 1)%R)
         /\ (ndcg m !! k = Some v -> (0 <= v <= 1)%R).
Proof.
  destruct sample_test_returns as (m & users & bundles & scores & H).
  exists m, users, bundles, scores. split; [exact H|].
  exact (test_metrics_in_unit_interval _ _ _ _ _ _ H).
Defined.

(** ** The rows of a pass *)

Lemma concat_map_rows {A B} (f : A -> B) (ls : list (list A)) :
  concat (map (fun l => map f l) ls) = map f (concat ls).
Proof.
  induction ls as [|l ls IH]; [reflexivity|].
  cbn [map concat]. rewrite IH, map_app. reflexivity.
Qed.

Lemma export_users (dl : list batch) : concat (map users_of dl) = map user (concat dl).
Proof. apply (concat_map_rows user). Qed.

Lemma export_top {A} (f : nat * Q -> A) (dl : list batch) :
  concat (map (fun b => map (map f) (batch_top b 100)) dl)
  = map (fun u => map f (from_ok [] (s ← row_scores u; topk_row s 100))) (concat dl).
Proof.
  rewrite <- concat_map_rows. f_equal. apply map_ext. intros b.
  unfold batch_top. rewrite map_map. reflexivity.
Qed.

Lemma batches_ok_rows (topks : list nat) (dl : list batch) :
  forallb (batch_ok topks) dl = true ->
  Forall (fun u => row_ok topks u = true) (concat dl).
Proof.
  intros H. apply forallb_Forall_true in H. apply Forall_concat.
  eapply Forall_impl; [exact H|]. intros b Hb. cbn in Hb.
  apply batch_ok_rows in Hb as [_ Hb]. apply forallb_Forall_true in Hb. exact Hb.
Qed.

Lemma batches_ok_intro (topks : list nat) (dl : list batch) :
  Forall (fun k => k ≠ 0) topks ->
  Forall (fun u => row_ok topks u = true) (concat dl) ->
  forallb (batch_ok topks) dl = true.
Proof.
  intros Hk H. apply Forall_concat in H. apply forallb_Forall_true.
  eapply Forall_impl; [exact H|]. intros b Hb. cbn.
  apply batch_ok_rows. split; [exact Hk|]. apply forallb_Forall_true, Hb.
Qed.

(** ** When a pass returns *)

Lemma is_ok_row_scores (u : user_row) :
  is_ok (row_scores u) = true
  <-> length (mask_row u) = length (pred_row u) \/ length (mask_row u) = 1.
Proof.
  unfold row_scores, sub_mask_row.
  destruct (decide (length (pred_row u) = length (mask_row u))) as [E|E]; simpl.
  - split; [intros _; left; congruence|reflexivity].
  - destruct (mask_row u) as [|m [|m' l]]; simpl in *.
    + split; [discriminate|intros [H|H]; [congruence|discriminate]].
    + split; [intros _; right; reflexivity|reflexivity].
    + split; [discriminate|intros [H|H]; [congruence|discriminate]].
Qed.

Lemma is_ok_row_top (u : user_row) (k : nat) :
  is_ok (row_top u k) = true
  <-> (length (mask_row u) = length (pred_row u) \/ length (mask_row u) = 1)
      /\ k <= length (pred_row u).
Proof.
  rewrite <- is_ok_row_scores. unfold row_top.
  destruct (row_scores u) as [s|e] eqn:E; simpl.
  - apply row_scores_inv in E as (_ & <- & _). unfold topk_row.
    destruct (decide (k <= length s)) as [Hle|Hgt]; simpl.
    + split; [intros _; split; [reflexivity|exact Hle]|reflexivity].
    + split; [discriminate|intros [_ H]; lia].
  - split; [discriminate|intros [H _]; discriminate].
Qed.

Lemma is_ok_row_hits (u : user_row) (k : nat) :
  length (grd_row u) = length (pred_row u) ->
  is_ok (row_hits u k) = is_ok (row_top u k).
Proof.
  intros Hg. unfold row_hits.
  destruct (row_top u k) as [cols|e] eqn:E; simpl; [|reflexivity].
  apply row_top_NoDup in E as (_ & _ & Hc).
  unfold gather_row. rewrite is_ok_mapM. apply forallb_Forall_true, Forall_forall.
  intros c Hin. specialize (Hc c Hin). rewrite <- Hg in Hc.
  apply lookup_lt_is_Some in Hc as [b ->]. reflexivity.
Qed.

Lemma row_ok_row_shaped (topks : list nat) (u : user_row) :
  row_ok topks u = true -> row_shaped topks u.
Proof.
  intros H. unfold row_ok in H. apply andb_true_iff in H as [Hk H100].
  apply is_ok_row_top in H100 as [Hm H100].
  split; [exact Hm|]. split; [exact H100|].
  apply forallb_Forall_true in Hk. eapply Forall_impl; [exact Hk|].
  intros k Hh. simpl in Hh. apply row_hits_top, is_ok_row_top in Hh. tauto.
Qed.

Lemma row_shaped_row_ok (topks : list nat) (u : user_row) :
  length (grd_row u) = length (pred_row u) ->
  row_shaped topks u -> row_ok topks u = true.
Proof.
  intros Hg (Hm & H100 & Hk). unfold row_ok. apply andb_true_iff. split.
  - apply forallb_Forall_true. eapply Forall_impl; [exact Hk|].
    intros k Hle. simpl. rewrite (is_ok_row_hits u k Hg). apply is_ok_row_top. tauto.
  - apply is_ok_row_top. tauto.
Qed.

Lemma count_pos_at_0 (us : list user_row) : count_pos_at 0 us = 0.
Proof.
  unfold count_pos_at. induction us as [|u us IH]; [reflexivity|].
  cbn [List.filter]. unfold clamp at 1. rewrite Nat.min_0_r. exact IH.
Qed.

(** X3: on batches of at least one user and tensors of one shape for scores
    and ground truth, [test] returns exactly when the loader yields a batch,
    the train mask of every row has the shape of the scores or a single
    column, every row holds the 100 bundles of the export and those of every
    K, and, with a K configured, some user has a positive and no K is 0. *)
Theorem test_returns_iff (topks : list nat) (dl : list batch) :
  Forall (fun b => b ≠ []) dl ->
  Forall (fun u => length (grd_row u) = length (pred_row u)) (concat dl) ->
  is_ok (test dl topks) = true
  <-> dl ≠ [] /\ Forall (row_shaped topks) (concat dl)
      /\ (topks ≠ [] -> 0 < count_pos (concat dl) /\ 0 ∉ topks).
Proof.
  intros _ Hg. split.
  - destruct (test dl topks) as [[[[m users] bundles] scores]|e] eqn:E;
      [intros _|discriminate].
    unfold test in E.
    apply test_with_OK_inv in E as ((Hok & Hne & Hzr & Hzn) & _).
    split; [exact Hne|]. split.
    + apply batches_ok_rows in Hok.
      eapply Forall_impl; [exact Hok|]. intros u. apply row_ok_row_shaped.
    + intros Ht. split.
      * destruct topks as [|k topks]; [congruence|].
        specialize (Hzr k ltac:(left)). rewrite entry_after_recall in Hzr.
        cbn [snd] in Hzr. lia.
      * intros H0. specialize (Hzn 0 H0). rewrite entry_after_ndcg in Hzn.
        cbn [snd] in Hzn. rewrite count_pos_at_0 in Hzn. lia.
  - intros (Hne & Hs & Hd).
    destruct (test_with_OK 0%R Rplus Rdiv_int get_recall get_ndcg topks dl)
      as (m & Hm & _).
    { split; [|split; [exact Hne|]].
      - apply batches_ok_intro.
        + apply Forall_forall. intros k Hk ->.
          destruct Hd as [_ H0]; [intros ->; inversion Hk|]. contradiction.
        + apply Forall_forall. intros u Hu.
          apply row_shaped_row_ok.
          * exact (proj1 (Forall_forall _ _) Hg u Hu).
          * exact (proj1 (Forall_forall _ _) Hs u Hu).
      - assert (forall k, k ∈ topks -> 0 < count_pos (concat dl) /\ k ≠ 0) as Hk.
        { intros k Hk. destruct Hd as [Hp H0]; [intros ->; inversion Hk|].
          split; [exact Hp|]. intros ->. contradiction. }
        split; intros k Hin; destruct (Hk k Hin) as [Hp Hk0].
        + rewrite entry_after_recall. cbn [snd]. lia.
        + rewrite entry_after_ndcg. cbn [snd].
          rewrite count_pos_at_positive by lia. lia. }
    unfold test. rewrite Hm. reflexivity.
Qed.

Lemma test_returns_iff_witness :
  is_ok (test [[sample_user 1 [0] []]; [sample_user 7 [] [3]]] [1; 2]) = true
  <-> [[sample_user 1 [0] []]; [sample_user 7 [] [3]]] ≠ []
      /\ Forall (row_shaped [1; 2]) (concat [[sample_user 1 [0] []]; [sample_user 7 [] [3]]])
      /\ ([1; 2] ≠ [] ->
          0 < count_pos (concat [[sample_user 1 [0] []]; [sample_user 7 [] [3]]])
          /\ 0 ∉ [1; 2]).
Proof.
  apply (test_returns_iff [1; 2] [[sample_user 1 [0] []]; [sample_user 7 [] [3]]]).
  - repeat constructor; discriminate.
  - repeat constructor.
Defined.

(** ** The prediction export *)

Lemma StronglySorted_lookup_ge (l : list (nat * Q)) :
  StronglySorted score_ge l ->
  forall i j x y, i <= j -> l !! i = Some x -> l !! j = Some y -> score_ge x y.
Proof.
  induction 1 as [|a l Hs IH Ha]; intros i j x y Hij Hi Hj; [discriminate|].
  destruct i as [|i], j as [|j]; cbn in Hi, Hj; try lia.
  - injection Hi as <-. injection Hj as <-. apply Qle_refl.
  - injection Hi as <-. apply list_elem_of_lookup_2 in Hj.
    exact (proj1 (List.Forall_forall _ _) Ha y (proj1 (list_elem_of_In _ _) Hj)).
  - apply (IH i j); [lia|exact Hi|exact Hj].
Qed.

Lemma enumerate_elem_of {A} (l : list A) (i : nat) (x : A) :
  l !! i = Some x -> (i, x) ∈ enumerate l.
Proof.
  intros H. apply (list_elem_of_lookup_2 _ i). unfold enumerate.
  apply lookup_zip_Some. split; [|exact H].
  apply (lookup_seq_lt 0). eapply lookup_lt_Some, H.
Qed.

Lemma row_export (u : user_row) (k : nat) :
  is_ok (row_top u k) = true ->
  exists s, row_scores u = OK s /\ k <= length s
    /\ from_ok [] (s ← row_scores u; topk_row s k) = take k (ranking s).
Proof.
  unfold row_top. destruct (row_scores u) as [s|e]; simpl; [|discriminate].
  unfold topk_row. destruct (decide (k <= length s)); simpl; [|discriminate].
  intros _. exists s. auto.
Qed.

Lemma row_scores_lookup (u : user_row) (s : list Q) (c : nat) (p : Q) (mk : bool) :
  row_scores u = OK s -> pred_row u !! c = Some p -> mask_entry u c = Some mk ->
  s !! c = Some (f32_sub p (mask_penalty * b2q mk)).
Proof.
  unfold row_scores, sub_mask_row, mask_entry.
  destruct (decide (length (pred_row u) = length (mask_row u))).
  - intros [= <-] Hp Hm. rewrite lookup_zip_with, Hp. cbn. rewrite Hm. reflexivity.
  - destruct (mask_row u) as [|m [|m' l]]; try discriminate.
    intros [= <-] Hp [= ->]. rewrite list_lookup_fmap, Hp. reflexivity.
Qed.

(** The masked score of a seen bundle scoring 99 is -99999904, the binary32
    number nearest to 99 - 1e8. *)
Lemma sample_masked_score :
  from_ok [] (row_scores (sample_user 2 [0; 5] [1])) !! 1 = Some (-99999904 # 1)%Q.
Proof. vm_compute. reflexivity. Qed.

(** X4: the three tensors of the export have one row per user, in the order
    of the loader; the row of a user lists 100 distinct bundles with their
    masked scores, the binary32 numbers the subtraction of the penalty
    rounds to, in descending order of score, and no bundle left out has a
    masked score above a listed one. *)
Theorem test_export_aligned (topks : list nat) (dl : list batch)
    (m : per_metric (gmap nat R)) (users : list Z) (bundles : matrix nat) (scores : matrix Q) :
  test dl topks = OK (m, users, bundles, scores) ->
  users = map user (concat dl)
  /\ length bundles = length users /\ length scores = length users
  /\ forall i u, concat dl !! i = Some u ->
       exists cols vals,
         bundles !! i = Some cols /\ scores !! i = Some vals
         /\ length cols = 100 /\ length vals = 100 /\ NoDup cols
         /\ (forall j c v, cols !! j = Some c -> vals !! j = Some v ->
               exists p mk, pred_row u !! c = Some p /\ mask_entry u c = Some mk
                            /\ v = f32_sub p (mask_penalty * b2q mk))
         /\ (forall j j' v v', j <= j' -> vals !! j = Some v -> vals !! j' = Some v' ->
               (v' <= v)%Q)
         /\ (forall c p mk v, c ∉ cols -> pred_row u !! c = Some p ->
               mask_entry u c = Some mk -> v ∈ vals ->
               (f32_sub p (mask_penalty * b2q mk) <= v)%Q).
Proof.
  intros H. unfold test in H.
  apply test_with_OK_inv in H as ((Hok & _) & _ & -> & -> & ->).
  rewrite export_users, !export_top.
  split; [reflexivity|]. rewrite !length_map. split; [reflexivity|]. split; [reflexivity|].
  intros i u Hi.
  apply batches_ok_rows in Hok.
  pose proof (proj1 (Forall_forall _ _) Hok u (list_elem_of_lookup_2 _ _ _ Hi)) as Hu.
  cbn beta in Hu. unfold row_ok in Hu. apply andb_true_iff in Hu as [_ Hu].
  destruct (row_export u 100 Hu) as (s & Hs & Hlen & Htop).
  exists (map fst (take 100 (ranking s))), (map snd (take 100 (ranking s))).
  rewrite !list_lookup_fmap, Hi. cbn [fmap option_fmap option_map]. rewrite Htop.
  split; [reflexivity|]. split; [reflexivity|].
  rewrite !length_map, length_take, length_ranking.
  split; [lia|]. split; [lia|].
  pose proof (sort_desc_sorted (enumerate s)) as Hsorted. fold (ranking s) in Hsorted.
  split; [|split; [|split]].
  - rewrite <- firstn_map. apply NoDup_take, ranking_NoDup.
  - intros j c v Hc Hv. rewrite list_lookup_fmap in Hc. rewrite list_lookup_fmap in Hv.
    destruct (take 100 (ranking s) !! j) as [[c' v']|] eqn:Ej; [|discriminate].
    cbn in Hc, Hv. injection Hc as ->. injection Hv as ->.
    apply list_elem_of_lookup_2, elem_of_take in Ej as (j' & Ej & _).
    apply list_elem_of_lookup_2 in Ej. rewrite ranking_perm in Ej.
    apply enumerate_lookup in Ej.
    destruct (proj2 (proj2 (row_scores_inv u s Hs)) c v Ej) as (p & mk & Hp & Hm & ->).
    eauto.
  - intros j j' v v' Hjj Hv Hv'. rewrite list_lookup_fmap in Hv. rewrite list_lookup_fmap in Hv'.
    destruct (take 100 (ranking s) !! j) as [x|] eqn:Ej; [|discriminate].
    destruct (take 100 (ranking s) !! j') as [y|] eqn:Ej'; [|discriminate].
    cbn in Hv, Hv'. injection Hv as <-. injection Hv' as <-.
    assert (j' < 100) as Hj'.
    { apply lookup_lt_Some in Ej'. rewrite length_take in Ej'. lia. }
    rewrite lookup_take_lt in Ej, Ej' by lia.
    exact (StronglySorted_lookup_ge _ Hsorted j j' x y Hjj Ej Ej').
  - intros c p mk v Hc Hp Hm Hv.
    pose proof (row_scores_lookup u s c p mk Hs Hp Hm) as Hsc.
    apply enumerate_elem_of in Hsc. rewrite <- ranking_perm in Hsc.
    rewrite <- (take_drop 100 (ranking s)) in Hsc, Hsorted.
    apply elem_of_app in Hsc as [Hin|Hin].
    + exfalso. apply Hc. apply list_elem_of_fmap. eexists. split; [|exact Hin]. reflexivity.
    + apply list_elem_of_fmap in Hv as ([c' v'] & -> & Hv).
      exact (StronglySorted_app_ge _ _ _ Hsorted _ _ Hv Hin).
Qed.

Lemma test_export_aligned_witness :
  let dl := [[sample_user 1 [0] []]; [sample_user 2 [0; 5] [1]; sample_user 7 [] [3]]] in
  exists m users bundles scores,
    test dl [1; 2] = OK (m, users, bundles, scores)
    /\ users = map user (concat dl)
    /\ length bundles = length users /\ length scores = length users
    /\ forall i u, concat dl !! i = Some u ->
         exists cols vals,
           bundles !! i = Some cols /\ scores !! i = Some vals
           /\ length cols = 100 /\ length vals = 100 /\ NoDup cols
           /\ (forall j c v, cols !! j = Some c -> vals !! j = Some v ->
                 exists p mk, pred_row u !! c = Some p /\ mask_entry u c = Some mk
                              /\ v = f32_sub p (mask_penalty * b2q mk))
           /\ (forall j j' v v', j <= j' -> vals !! j = Some v -> vals !! j' = Some v' ->
                 (v' <= v)%Q)
           /\ (forall c p mk v, c ∉ cols -> pred_row u !! c = Some p ->
                 mask_entry u c = Some mk -> v ∈ vals ->
                 (f32_sub p (mask_penalty * b2q mk) <= v)%Q).
Proof.
  intros dl. destruct sample_test_returns as (m & users & bundles & scores & H).
  exists m, users, bundles, scores. split; [exact H|].
  exact (test_export_aligned [1; 2] dl m users bundles scores H).
Defined.

(** ** [get_metrics] on an accumulator of any keys *)

(** Membership in a list of literals, from membership in another. *)
Ltac list_mem H :=
  apply list_elem_of_In in H; simpl in H;
  repeat (destruct H as [<-|H]; [repeat constructor|]); destruct H.

Section GetMetricsFacts.
Context {num : Type}.
Variable py_add : num -> num -> num.
Variables kr kn : matrix Q -> matrix bool -> matrix bool -> nat -> num * Z.

Lemma accumulate_lookup (topks : list nat) (e : nat -> num * Z)
    (acc tmp : gmap nat (num * Z)) :
  (forall k, tmp !! k = if decide (k ∈ topks) then Some (e k) else None) ->
  (forall k, k ∈ topks -> is_Some (acc !! k)) ->
  exists acc', accumulate py_add acc tmp = OK acc'
    /\ forall k, acc' !! k
         = if decide (k ∈ topks) then (fun a => add_res py_add a (e k)) <$> acc !! k
           else acc !! k.
Proof.
  intros Ht Hk. unfold accumulate.
  destruct (decide (dom tmp ⊆ dom acc)) as [Hd|Hd].
  - eexists. split; [reflexivity|]. intros k. rewrite lookup_merge, Ht.
    destruct (decide (k ∈ topks)), (acc !! k); reflexivity.
  - exfalso. apply Hd. intros k Hin. apply elem_of_dom in Hin as [x Hx].
    rewrite Ht in Hx. apply elem_of_dom.
    destruct (decide (k ∈ topks)); [auto|discriminate].
Qed.

Lemma accumulate_missing (topks : list nat) (e : nat -> num * Z)
    (acc tmp : gmap nat (num * Z)) (k : nat) :
  (forall k, tmp !! k = if decide (k ∈ topks) then Some (e k) else None) ->
  k ∈ topks -> acc !! k = None ->
  accumulate py_add acc tmp = Raise KeyError.
Proof.
  intros Ht Hk Hn. unfold accumulate.
  destruct (decide (dom tmp ⊆ dom acc)) as [Hd|Hd]; [|reflexivity].
  exfalso. assert (k ∈ dom acc) as Hin.
  { apply Hd, elem_of_dom. rewrite Ht, decide_True by exact Hk. eauto. }
  apply elem_of_dom in Hin as [x Hx]. congruence.
Qed.

Lemma tmp_fold_lookup (b : batch) (topks : list nat) (t : per_metric (gmap nat (num * Z))) :
  scores_ok b = true ->
  foldlM (tmp_step kr kn (grd_of b) (batch_pred b)) (PerMetric ∅ ∅) topks = OK t ->
  Forall (fun k => hits_ok b k = true) topks
  /\ (forall k, recall t !! k = if decide (k ∈ topks) then Some (batch_res kr b k) else None)
  /\ (forall k, ndcg t !! k = if decide (k ∈ topks) then Some (batch_res kn b k) else None).
Proof.
  intros Hs Hf. apply tmp_fold_batch in Hf as (Hh & Hr & Hn); [|exact Hs].
  split; [exact Hh|].
  split; intros k; [rewrite (Hr k)|rewrite (Hn k)];
    destruct (decide (k ∈ topks)); try reflexivity; apply lookup_empty.
Qed.

Lemma get_metrics_with_OK (metrics : per_metric (gmap nat (num * Z))) (b : batch)
    (topks : list nat) :
  scores_ok b = true ->
  Forall (fun k => hits_ok b k = true) topks ->
  (forall k, k ∈ topks -> is_Some (recall metrics !! k) /\ is_Some (ndcg metrics !! k)) ->
  exists m', get_metrics_with py_add kr kn metrics (grd_of b) (batch_pred b) topks = OK m'
    /\ added py_add kr b topks (recall metrics) (recall m')
    /\ added py_add kn b topks (ndcg metrics) (ndcg m').
Proof.
  intros Hs Hh Hk. unfold get_metrics_with.
  destruct (tmp_fold_batch_ok kr kn b topks (PerMetric ∅ ∅) Hs Hh) as (t & Ht).
  rewrite Ht. destruct (tmp_fold_lookup b topks t Hs Ht) as (_ & Hr & Hn). simpl.
  destruct (accumulate_lookup topks _ (recall metrics) (recall t) Hr) as (r & -> & Hr').
  { intros k Hin. apply Hk, Hin. }
  destruct (accumulate_lookup topks _ (ndcg metrics) (ndcg t) Hn) as (n & -> & Hn').
  { intros k Hin. apply Hk, Hin. }
  simpl. eexists. split; [reflexivity|]. split; assumption.
Qed.

Lemma get_metrics_with_OK_inv (metrics m' : per_metric (gmap nat (num * Z))) (b : batch)
    (topks : list nat) :
  scores_ok b = true ->
  get_metrics_with py_add kr kn metrics (grd_of b) (batch_pred b) topks = OK m' ->
  Forall (fun k => hits_ok b k = true) topks
  /\ (forall k, k ∈ topks -> is_Some (recall metrics !! k) /\ is_Some (ndcg metrics !! k))
  /\ added py_add kr b topks (recall metrics) (recall m')
  /\ added py_add kn b topks (ndcg metrics) (ndcg m').
Proof.
  intros Hs H. pose proof H as H0. unfold get_metrics_with in H0.
  destruct (foldlM _ _ topks) as [t|e] eqn:Ef; [|discriminate]. simpl in H0.
  destruct (tmp_fold_lookup b topks t Hs Ef) as (Hh & Hr & Hn).
  assert (forall k, k ∈ topks ->
            is_Some (recall metrics !! k) /\ is_Some (ndcg metrics !! k)) as Hk.
  { intros k Hin.
    destruct (recall metrics !! k) as [x|] eqn:Ex.
    - split; [eauto|]. destruct (ndcg metrics !! k) as [y|] eqn:Ey; [eauto|].
      destruct (accumulate py_add (recall metrics) (recall t)); [|discriminate].
      simpl in H0. rewrite (accumulate_missing topks _ _ _ k Hn Hin Ey) in H0.
      discriminate.
    - rewrite (accumulate_missing topks _ _ _ k Hr Hin Ex) in H0. discriminate. }
  split; [exact Hh|]. split; [exact Hk|].
  destruct (get_metrics_with_OK metrics b topks Hs Hh Hk) as (m'' & Hm & Ha).
  rewrite H in Hm. injection Hm as <-. exact Ha.
Qed.

Lemma get_metrics_with_missing (metrics : per_metric (gmap nat (num * Z))) (b : batch)
    (topks : list nat) (k : nat) :
  scores_ok b = true ->
  Forall (fun k => hits_ok b k = true) topks ->
  k ∈ topks -> recall metrics !! k = None \/ ndcg metrics !! k = None ->
  get_metrics_with py_add kr kn metrics (grd_of b) (batch_pred b) topks = Raise KeyError.
Proof.
  intros Hs Hh Hin Hn. unfold get_metrics_with.
  destruct (tmp_fold_batch_ok kr kn b topks (PerMetric ∅ ∅) Hs Hh) as (t & Ht).
  rewrite Ht. destruct (tmp_fold_lookup b topks t Hs Ht) as (_ & Hr & Hn'). simpl.
  destruct (accumulate py_add (recall metrics) (recall t)) as [r|e] eqn:Er.
  - simpl. destruct Hn as [Hn|Hn].
    + rewrite (accumulate_missing topks _ _ _ k Hr Hin Hn) in Er. discriminate.
    + rewrite (accumulate_missing topks _ _ _ k Hn' Hin Hn). reflexivity.
  - unfold accumulate in Er. destruct (decide _); [discriminate|].
    injection Er as <-. reflexivity.
Qed.
End GetMetricsFacts.

(** X5: [get_metrics] adds the result of the batch to the entry of each K of
    [topks], once however often the K is listed, and leaves the other
    entries and the set of keys of the accumulator as they were. *)
Theorem get_metrics_adds_batch (metrics m' : per_metric (gmap nat (R * Z))) (b : batch)
    (topks : list nat) :
  scores_ok b = true ->
  get_metrics metrics (grd_of b) (batch_pred b) topks = OK m' ->
  added Rplus get_recall b topks (recall metrics) (recall m')
  /\ added Rplus get_ndcg b topks (ndcg metrics) (ndcg m')
  /\ dom (recall m') = dom (recall metrics) /\ dom (ndcg m') = dom (ndcg metrics).
Proof.
  intros Hs H. unfold get_metrics in H.
  apply get_metrics_with_OK_inv in H as (_ & _ & Hr & Hn); [|exact Hs].
  split; [exact Hr|]. split; [exact Hn|].
  split; apply set_eq; intros k; rewrite !elem_of_dom;
    [rewrite (Hr k)|rewrite (Hn k)];
    destruct (decide (k ∈ topks)); try reflexivity; apply fmap_is_Some.
Qed.

Lemma sample_batch_hits : Forall (fun k => hits_ok [sample_user 1 [0] []] k = true) [1; 2].
Proof. repeat constructor. Qed.

Lemma get_metrics_adds_batch_witness :
  let b := [sample_user 1 [0] []] in
  let metrics := PerMetric (init_tmp 0%R [1; 2; 3]) (init_tmp 0%R [1; 2; 3]) in
  exists m', get_metrics metrics (grd_of b) (batch_pred b) [1; 2] = OK m'
    /\ added Rplus get_recall b [1; 2] (recall metrics) (recall m')
    /\ added Rplus get_ndcg b [1; 2] (ndcg metrics) (ndcg m')
    /\ dom (recall m') = dom (recall metrics) /\ dom (ndcg m') = dom (ndcg metrics).
Proof.
  intros b metrics.
  destruct (get_metrics_with_OK Rplus get_recall get_ndcg metrics b [1; 2])
    as (m' & Hm & _).
  - reflexivity.
  - exact sample_batch_hits.
  - intros k Hk. unfold metrics. cbn [recall ndcg].
    rewrite (init_tmp_keyed 0%R [1; 2; 3] k).
    destruct (decide (k ∈ [1; 2; 3])) as [|Hn]; [eauto|].
    exfalso. apply Hn. list_mem Hk.
  - exists m'. split; [exact Hm|].
    exact (get_metrics_adds_batch metrics m' b [1; 2] eq_refl Hm).
Defined.

(** X6: an accumulator without an entry for a K of [topks] makes
    [get_metrics] raise a [KeyError], after the tensors of the batch were
    ranked and gathered without error. *)
Theorem get_metrics_key_error (metrics : per_metric (gmap nat (R * Z))) (b : batch)
    (topks : list nat) (k : nat) :
  scores_ok b = true ->
  Forall (fun k => hits_ok b k = true) topks ->
  k ∈ topks ->
  recall metrics !! k = None \/ ndcg metrics !! k = None ->
  get_metrics metrics (grd_of b) (batch_pred b) topks = Raise KeyError.
Proof. apply get_metrics_with_missing. Qed.

Lemma get_metrics_key_error_witness :
  get_metrics (PerMetric (init_tmp 0%R [1]) (init_tmp 0%R [1]))
    (grd_of [sample_user 1 [0] []]) (batch_pred [sample_user 1 [0] []]) [1; 2]
  = Raise KeyError.
Proof.
  apply (get_metrics_key_error _ [sample_user 1 [0] []] [1; 2] 2).
  - reflexivity.
  - exact sample_batch_hits.
  - repeat constructor.
  - left. reflexivity.
Defined.

(** X7: the result of [get_metrics] depends on which K are listed in
    [topks], not on their order or on how often one is listed. *)
Theorem get_metrics_topks_as_set (metrics m' : per_metric (gmap nat (R * Z))) (b : batch)
    (topks topks' : list nat) :
  scores_ok b = true ->
  (forall k, k ∈ topks <-> k ∈ topks') ->
  get_metrics metrics (grd_of b) (batch_pred b) topks = OK m' ->
  get_metrics metrics (grd_of b) (batch_pred b) topks' = OK m'.
Proof.
  intros Hs Hset H. unfold get_metrics in *.
  apply get_metrics_with_OK_inv in H as (Hh & Hk & Hr & Hn); [|exact Hs].
  destruct (get_metrics_with_OK Rplus get_recall get_ndcg metrics b topks')
    as (m'' & Hm & Hr' & Hn').
  - exact Hs.
  - apply Forall_forall. intros k Hin.
    exact (proj1 (Forall_forall _ _) Hh k (proj2 (Hset k) Hin)).
  - intros k Hin. apply Hk, Hset, Hin.
  - rewrite Hm. f_equal. apply per_metric_eq; intros k.
    + rewrite (Hr k), (Hr' k).
      destruct (decide (k ∈ topks)) as [e|n], (decide (k ∈ topks')) as [e'|n'];
        try reflexivity; exfalso; [apply n', Hset, e|apply n, Hset, e'].
    + rewrite (Hn k), (Hn' k).
      destruct (decide (k ∈ topks)) as [e|n], (decide (k ∈ topks')) as [e'|n'];
        try reflexivity; exfalso; [apply n', Hset, e|apply n, Hset, e'].
Qed.

Lemma get_metrics_topks_as_set_witness :
  let b := [sample_user 1 [0] []] in
  let metrics := PerMetric (init_tmp 0%R [1; 2]) (init_tmp 0%R [1; 2]) in
  exists m', get_metrics metrics (grd_of b) (batch_pred b) [1; 2] = OK m'
    /\ get_metrics metrics (grd_of b) (batch_pred b) [2; 1; 2] = OK m'.
Proof.
  intros b metrics.
  destruct (get_metrics_with_OK Rplus get_recall get_ndcg metrics b [1; 2])
    as (m' & Hm & _).
  - reflexivity.
  - exact sample_batch_hits.
  - intros k Hk. unfold metrics. cbn [recall ndcg].
    rewrite (init_tmp_keyed 0%R [1; 2] k), decide_True by exact Hk. eauto.
  - exists m'. split; [exact Hm|].
    refine (get_metrics_topks_as_set metrics m' b [1; 2] [2; 1; 2] eq_refl _ Hm).
    intros k. split; intros Hk; list_mem Hk.
Defined.
(** * Further properties of the model selection *)

Section SelectorTrace.
Context {model_state : Type}.
Variable c : conf.
Variable metrics : snapshot.
Variable log_path : string.

Lemma getitem_item (d : gmap nat R) (topk : nat) :
  is_Some (d !! topk) -> getitem d topk = OK (item d topk).
Proof. intros [v Hv]. unfold getitem, item. rewrite Hv. reflexivity. Qed.

Lemma getitem_None (d : gmap nat R) (topk : nat) :
  d !! topk = None -> getitem d topk = Raise KeyError.
Proof. intros Hv. unfold getitem. rewrite Hv. reflexivity. Qed.

Lemma getitem_cases (d : gmap nat R) (topk : nat) :
  (is_Some (d !! topk) /\ getitem d topk = OK (item d topk))
  \/ (d !! topk = None /\ getitem d topk = Raise KeyError).
Proof.
  destruct (d !! topk) as [v|] eqn:E.
  - left. split; [eauto|]. apply getitem_item. rewrite E. eauto.
  - right. split; [reflexivity|]. apply getitem_None, E.
Qed.

Lemma write_log_cases (topk : nat) (step : Z) :
  (has_topk metrics topk
   /\ write_log (model_state := model_state) log_path topk step metrics
      = OK (score_events log_path step metrics topk))
  \/ (~ has_topk metrics topk
      /\ write_log (model_state := model_state) log_path topk step metrics
         = Raise KeyError).
Proof.
  unfold write_log, has_topk.
  destruct (getitem_cases (recall (on_val metrics)) topk) as [[H1 ->]|[H1 ->]];
    [|right; split; [rewrite H1; intros ([? ?] & _); discriminate|reflexivity]].
  destruct (getitem_cases (recall (on_test metrics)) topk) as [[H2 ->]|[H2 ->]];
    [|right; split; [rewrite H2; intros (_ & _ & [? ?] & _); discriminate|reflexivity]].
  destruct (getitem_cases (ndcg (on_val metrics)) topk) as [[H3 ->]|[H3 ->]];
    [|right; split; [rewrite H3; intros (_ & [? ?] & _); discriminate|reflexivity]].
  destruct (getitem_cases (ndcg (on_test metrics)) topk) as [[H4 ->]|[H4 ->]];
    [|right; split; [rewrite H4; intros (_ & _ & _ & [? ?]); discriminate|reflexivity]].
  left. split; [tauto|reflexivity].
Qed.

Lemma write_logs_cases (topks : list nat) (step : Z) :
  (Forall (has_topk metrics) topks
   /\ mapM (fun topk => write_log (model_state := model_state) log_path topk step metrics)
        topks
      = OK (map (score_events log_path step metrics) topks))
  \/ (~ Forall (has_topk metrics) topks
      /\ mapM (fun topk => write_log (model_state := model_state) log_path topk step metrics)
           topks
         = Raise KeyError).
Proof.
  induction topks as [|k topks IH]; [left; split; [constructor|reflexivity]|].
  cbn [mapM].
  destruct (write_log_cases k step) as [[Hk ->]|[Hk ->]].
  - destruct IH as [[Hf ->]|[Hf ->]].
    + left. split; [constructor; assumption|reflexivity].
    + right. split; [|reflexivity]. intros H. apply Hf. inversion H; assumption.
  - right. split; [|reflexivity]. intros H. apply Hk. inversion H; assumption.
Qed.

Lemma improved_cases (topk_ : nat) (best_metrics : snapshot) :
  improved topk_ metrics best_metrics
  = match recall (on_val metrics) !! topk_, recall (on_val best_metrics) !! topk_ with
    | Some r, Some rb =>
        if Rgt_dec r rb then
          match ndcg (on_val metrics) !! topk_, ndcg (on_val best_metrics) !! topk_ with
          | Some n, Some nb => OK (if Rgt_dec n nb then true else false)
          | _, _ => Raise KeyError
          end
        else OK false
    | _, _ => Raise KeyError
    end.
Proof.
  unfold improved, getitem.
  destruct (recall (on_val metrics) !! topk_) as [r|]; [|reflexivity].
  destruct (recall (on_val best_metrics) !! topk_) as [rb|]; [|reflexivity].
  simpl. destruct (Rgt_dec r rb); [|reflexivity].
  destruct (ndcg (on_val metrics) !! topk_) as [n|]; [|reflexivity].
  destruct (ndcg (on_val best_metrics) !! topk_) as [nb|]; reflexivity.
Qed.

Lemma copy_topk_has (best_epoch : Z) (best_metrics : snapshot)
    (best_perform : per_split (gmap nat log_line)) (out : list (io_event model_state))
    (topk : nat) :
  has_topk metrics topk ->
  copy_topk log_path metrics best_epoch (best_metrics, best_perform, out) topk
  = OK (PerSplit
          (PerMetric (<[topk := item (recall (on_val metrics)) topk]>
                        (recall (on_val best_metrics)))
                     (<[topk := item (ndcg (on_val metrics)) topk]>
                        (ndcg (on_val best_metrics))))
          (PerMetric (<[topk := item (recall (on_test metrics)) topk]>
                        (recall (on_test best_metrics)))
                     (<[topk := item (ndcg (on_test metrics)) topk]>
                        (ndcg (on_test best_metrics)))),
        PerSplit (<[topk := best_perform_line Val metrics best_epoch topk]>
                    (on_val best_perform))
                 (<[topk := best_perform_line Test metrics best_epoch topk]>
                    (on_test best_perform)),
        out ++ best_events log_path metrics best_epoch topk).
Proof.
  intros (H1 & H2 & H3 & H4). unfold copy_topk.
  rewrite (getitem_item _ _ H1), (getitem_item _ _ H2),
    (getitem_item _ _ H3), (getitem_item _ _ H4).
  reflexivity.
Qed.

Lemma copy_fold_perform (best_epoch : Z) (topks : list nat) :
  forall st0 st : snapshot * per_split (gmap nat log_line) * list (io_event model_state),
  Forall (has_topk metrics) topks ->
  foldlM (copy_topk log_path metrics best_epoch) st0 topks = OK st ->
  snd st = snd st0 ++ flat_map (best_events log_path metrics best_epoch) topks
  /\ (forall k, on_val (snd (fst st)) !! k
        = if decide (k ∈ topks) then Some (best_perform_line Val metrics best_epoch k)
          else on_val (snd (fst st0)) !! k)
  /\ (forall k, on_test (snd (fst st)) !! k
        = if decide (k ∈ topks) then Some (best_perform_line Test metrics best_epoch k)
          else on_test (snd (fst st0)) !! k).
Proof.
  induction topks as [|a topks IH]; intros [[bm bp] out] st Hf H.
  - injection H as <-. cbn [flat_map snd fst]. rewrite app_nil_r.
    split; [reflexivity|]. split; intros k; rewrite decide_False; auto; inversion 1.
  - cbn [foldlM] in H. inversion Hf as [|? ? Ha Hf']; subst.
    rewrite (copy_topk_has best_epoch bm bp out a Ha) in H. simpl in H.
    apply IH in H as (Ho & Hv & Ht); [|exact Hf'].
    cbn [fst snd on_val on_test] in *. split; [|split].
    + rewrite Ho. cbn [flat_map]. rewrite <- !app_assoc. reflexivity.
    + intros k. rewrite Hv.
      destruct (decide (k ∈ topks)) as [e|n].
      * rewrite decide_True by (right; exact e). reflexivity.
      * destruct (decide (k = a)) as [->|Hka].
        -- rewrite decide_True by left. apply lookup_insert_eq.
        -- rewrite decide_False by (intros Hin; inversion Hin; subst; contradiction).
           apply lookup_insert_ne. congruence.
    + intros k. rewrite Ht.
      destruct (decide (k ∈ topks)) as [e|n].
      * rewrite decide_True by (right; exact e). reflexivity.
      * destruct (decide (k = a)) as [->|Hka].
        -- rewrite decide_True by left. apply lookup_insert_eq.
        -- rewrite decide_False by (intros Hin; inversion Hin; subst; contradiction).
           apply lookup_insert_ne. congruence.
Qed.

Lemma improved_raise (topk_ : nat) (best_metrics : snapshot) (e : PyError) :
  improved topk_ metrics best_metrics = Raise e -> e = KeyError.
Proof.
  rewrite improved_cases.
  destruct (recall (on_val metrics) !! topk_); [|congruence].
  destruct (recall (on_val best_metrics) !! topk_); [|congruence].
  destruct (Rgt_dec _ _); [|discriminate].
  destruct (ndcg (on_val metrics) !! topk_); [|congruence].
  destruct (ndcg (on_val best_metrics) !! topk_); [discriminate|congruence].
Qed.

Variable model : model_state.
Variables checkpoint_model_path checkpoint_conf_path : string.
Variables epoch batch_anchor : Z.
Variable best_metrics : snapshot.
Variable best_perform : per_split (gmap nat log_line).
Variable best_epoch : Z.
Variable user_list : list Z.
Variable bundle_list : matrix nat.
Variable score_list : matrix Q.

Lemma log_metrics_missing :
  ~ Forall (has_topk metrics) (conf_topk c) ->
  log_metrics c model metrics log_path checkpoint_model_path checkpoint_conf_path
    epoch batch_anchor best_metrics best_perform best_epoch
    user_list bundle_list score_list
  = Raise KeyError.
Proof.
  intros Hf. unfold log_metrics.
  destruct (write_logs_cases (conf_topk c) batch_anchor) as [[Hf' _]|[_ ->]];
    [contradiction|reflexivity].
Qed.

Lemma log_metrics_undecided (e : PyError) :
  Forall (has_topk metrics) (conf_topk c) ->
  improved (conf_topk_valid c) metrics best_metrics = Raise e ->
  log_metrics c model metrics log_path checkpoint_model_path checkpoint_conf_path
    epoch batch_anchor best_metrics best_perform best_epoch
    user_list bundle_list score_list
  = Raise e.
Proof.
  intros Hf Hi. unfold log_metrics.
  destruct (write_logs_cases (conf_topk c) batch_anchor) as [[_ ->]|[Hf' _]];
    [|contradiction].
  simpl. rewrite Hi. reflexivity.
Qed.

Lemma log_metrics_not_improved :
  Forall (has_topk metrics) (conf_topk c) ->
  improved (conf_topk_valid c) metrics best_metrics = OK false ->
  log_metrics c model metrics log_path checkpoint_model_path checkpoint_conf_path
    epoch batch_anchor best_metrics best_perform best_epoch
    user_list bundle_list score_list
  = OK (best_metrics, best_perform, best_epoch,
        flat_map (score_events log_path batch_anchor metrics) (conf_topk c)).
Proof.
  intros Hf Hi. unfold log_metrics.
  destruct (write_logs_cases (conf_topk c) batch_anchor) as [[_ ->]|[Hf' _]];
    [|contradiction].
  simpl. rewrite Hi. simpl. rewrite flat_map_concat_map. reflexivity.
Qed.

Lemma log_metrics_improved :
  Forall (has_topk metrics) (conf_topk c) ->
  improved (conf_topk_valid c) metrics best_metrics = OK true ->
  exists best_metrics' best_perform',
    log_metrics c model metrics log_path checkpoint_model_path checkpoint_conf_path
      epoch batch_anchor best_metrics best_perform best_epoch
      user_list bundle_list score_list
    = OK (best_metrics', best_perform', epoch,
          flat_map (score_events log_path batch_anchor metrics) (conf_topk c)
          ++ write_user_bundle_predict_list c user_list bundle_list score_list
          ++ [save_model checkpoint_model_path model;
              dump_conf checkpoint_conf_path (delete "device" (conf_dict c))]
          ++ flat_map (best_events log_path metrics epoch) (conf_topk c))
    /\ (forall k, k ∈ conf_topk c -> same_at best_metrics' metrics k)
    /\ (forall k, k ∉ conf_topk c -> same_at best_metrics' best_metrics k)
    /\ (forall k, on_val best_perform' !! k
          = if decide (k ∈ conf_topk c) then Some (best_perform_line Val metrics epoch k)
            else on_val best_perform !! k)
    /\ (forall k, on_test best_perform' !! k
          = if decide (k ∈ conf_topk c) then Some (best_perform_line Test metrics epoch k)
            else on_test best_perform !! k).
Proof.
  intros Hf Hi. unfold log_metrics.
  destruct (write_logs_cases (conf_topk c) batch_anchor) as [[_ ->]|[Hf' _]];
    [|contradiction].
  simpl. rewrite Hi. simpl.
  destruct (copy_fold metrics log_path epoch (conf_topk c)
              (best_metrics, best_perform, @nil (io_event model_state)))
    as (st & Hst & Hs & Ho & _).
  { intros k Hk. exact (proj1 (Forall_forall _ _) Hf k Hk). }
  destruct (copy_fold_perform epoch (conf_topk c) _ st Hf Hst) as (Hout & Hv & Ht).
  rewrite Hst. simpl. rewrite Hout. cbn [snd app].
  exists (fst (fst st)), (snd (fst st)).
  split; [rewrite !flat_map_concat_map; reflexivity|].
  split; [exact Hs|]. split; [exact Ho|]. split; [exact Hv|exact Ht].
Qed.
End SelectorTrace.

Lemma improved_OK_iff (topk_ : nat) (metrics best_metrics : snapshot) :
  is_ok (improved topk_ metrics best_metrics) = true
  <-> exists r rb, recall (on_val metrics) !! topk_ = Some r
        /\ recall (on_val best_metrics) !! topk_ = Some rb
        /\ ((r > rb)%R -> is_Some (ndcg (on_val metrics) !! topk_)
                          /\ is_Some (ndcg (on_val best_metrics) !! topk_)).
Proof.
  rewrite improved_cases.
  destruct (recall (on_val metrics) !! topk_) as [r|];
    [|split; [discriminate|intros (? & ? & ? & _); discriminate]].
  destruct (recall (on_val best_metrics) !! topk_) as [rb|];
    [|split; [discriminate|intros (? & ? & _ & ? & _); discriminate]].
  destruct (Rgt_dec r rb) as [Hgt|Hle].
  - destruct (ndcg (on_val metrics) !! topk_) as [n|].
    + destruct (ndcg (on_val best_metrics) !! topk_) as [nb|]; simpl.
      * split; [intros _; exists r, rb; eauto|reflexivity].
      * split; [discriminate|].
        intros (r' & rb' & [= <-] & [= <-] & H). destruct (H Hgt) as [_ [? ?]].
        discriminate.
    + split; [discriminate|].
      intros (r' & rb' & [= <-] & [= <-] & H). destruct (H Hgt) as [[? ?] _].
      discriminate.
  - split; [intros _; exists r, rb|reflexivity].
    split; [reflexivity|]. split; [reflexivity|]. intros Hgt. contradiction.
Qed.

Lemma improved_same (topk_ : nat) (metrics best_metrics : snapshot) :
  is_Some (recall (on_val metrics) !! topk_) ->
  recall (on_val best_metrics) !! topk_ = recall (on_val metrics) !! topk_ ->
  improved topk_ metrics best_metrics = OK false.
Proof.
  intros [r Hr] Hb. rewrite improved_cases, Hb, Hr.
  destruct (Rgt_dec r r) as [Hgt|_]; [|reflexivity].
  exfalso. exact (Rgt_irrefl r Hgt).
Qed.

Lemma score_events_not_persist {model_state : Type} (log_path : string) (step : Z)
    (metrics : snapshot) (topks : list nat) :
  List.filter is_persist
    (flat_map (score_events (model_state := model_state) log_path step metrics) topks)
  = [].
Proof. induction topks as [|k topks IH]; [reflexivity|exact IH]. Qed.

Lemma best_events_not_persist {model_state : Type} (log_path : string) (epoch : Z)
    (metrics : snapshot) (topks : list nat) :
  List.filter is_persist
    (flat_map (best_events (model_state := model_state) log_path metrics epoch) topks)
  = [].
Proof. induction topks as [|k topks IH]; [reflexivity|exact IH]. Qed.

(** X8: [log_metrics] returns exactly when the candidate has an entry for
    every configured K in its four dictionaries, candidate and best snapshot
    have a validation recall at [topk_valid] and, the candidate's being the
    larger, also a validation ndcg there, which [and] does not look up
    otherwise.  Any exception it raises is a [KeyError]. *)
Theorem log_metrics_returns_iff {model_state : Type} (c : conf) (model : model_state)
    (metrics : snapshot) (log_path checkpoint_model_path checkpoint_conf_path : string)
    (epoch batch_anchor : Z) (best_metrics : snapshot)
    (best_perform : per_split (gmap nat log_line)) (best_epoch : Z)
    (user_list : list Z) (bundle_list : matrix nat) (score_list : matrix Q) :
  let returned :=
    log_metrics c model metrics log_path checkpoint_model_path checkpoint_conf_path
      epoch batch_anchor best_metrics best_perform best_epoch
      user_list bundle_list score_list in
  (is_ok returned = true
   <-> Forall (has_topk metrics) (conf_topk c)
       /\ exists r rb,
            recall (on_val metrics) !! conf_topk_valid c = Some r
            /\ recall (on_val best_metrics) !! conf_topk_valid c = Some rb
            /\ ((r > rb)%R ->
                is_Some (ndcg (on_val metrics) !! conf_topk_valid c)
                /\ is_Some (ndcg (on_val best_metrics) !! conf_topk_valid c)))
  /\ forall e, returned = Raise e -> e = KeyError.
Proof.
  intros returned. subst returned. rewrite <- improved_OK_iff.
  destruct (write_logs_cases (model_state := model_state) metrics log_path
              (conf_topk c) batch_anchor) as [[Hf _]|[Hf _]].
  - destruct (improved (conf_topk_valid c) metrics best_metrics) as [[|]|e] eqn:Hi.
    + destruct (log_metrics_improved c metrics log_path model checkpoint_model_path
                  checkpoint_conf_path epoch batch_anchor best_metrics best_perform
                  best_epoch user_list bundle_list score_list Hf Hi)
        as (b' & p' & -> & _).
      split; [tauto|discriminate].
    + rewrite (log_metrics_not_improved c metrics log_path model checkpoint_model_path
                 checkpoint_conf_path epoch batch_anchor best_metrics best_perform
                 best_epoch user_list bundle_list score_list Hf Hi).
      split; [tauto|discriminate].
    + rewrite (log_metrics_undecided c metrics log_path model checkpoint_model_path
                 checkpoint_conf_path epoch batch_anchor best_metrics best_perform
                 best_epoch user_list bundle_list score_list e Hf Hi).
      split; [split; [discriminate|intros [_ H]; discriminate]|].
      intros e' [= <-]. exact (improved_raise metrics _ _ _ Hi).
  - rewrite (log_metrics_missing c metrics log_path model checkpoint_model_path
               checkpoint_conf_path epoch batch_anchor best_metrics best_perform
               best_epoch user_list bundle_list score_list Hf).
    split; [split; [discriminate|intros [H _]; contradiction]|].
    intros e [= <-]. reflexivity.
Qed.

(** X9: presenting a candidate again right after [log_metrics] returned on
    it never improves: the comparison is strict, so the second call leaves
    best snapshot, summary lines and best epoch as the first call left them
    and writes neither checkpoint nor export. *)
Theorem log_metrics_repeat {model_state : Type} (c : conf) (model model' : model_state)
    (metrics : snapshot) (log_path checkpoint_model_path checkpoint_conf_path : string)
    (epoch batch_anchor epoch' batch_anchor' : Z) (best_metrics : snapshot)
    (best_perform : per_split (gmap nat log_line)) (best_epoch : Z)
    (user_list user_list' : list Z) (bundle_list bundle_list' : matrix nat)
    (score_list score_list' : matrix Q)
    (best_metrics' : snapshot) (best_perform' : per_split (gmap nat log_line))
    (best_epoch' : Z) (out : list (io_event model_state)) :
  conf_topk_valid c ∈ conf_topk c ->
  log_metrics c model metrics log_path checkpoint_model_path checkpoint_conf_path
    epoch batch_anchor best_metrics best_perform best_epoch
    user_list bundle_list score_list
  = OK (best_metrics', best_perform', best_epoch', out) ->
  exists out',
    log_metrics c model' metrics log_path checkpoint_model_path checkpoint_conf_path
      epoch' batch_anchor' best_metrics' best_perform' best_epoch'
      user_list' bundle_list' score_list'
    = OK (best_metrics', best_perform', best_epoch', out')
    /\ List.filter is_persist out' = [].
Proof.
  intros Hv H.
  destruct (write_logs_cases (model_state := model_state) metrics log_path
              (conf_topk c) batch_anchor) as [[Hf _]|[Hf _]];
    [|rewrite log_metrics_missing in H by exact Hf; discriminate].
  assert (is_Some (recall (on_val metrics) !! conf_topk_valid c)) as Hr.
  { exact (proj1 (proj1 (Forall_forall _ _) Hf _ Hv)). }
  assert (improved (conf_topk_valid c) metrics best_metrics' = OK false) as Hi'.
  { destruct (improved (conf_topk_valid c) metrics best_metrics) as [[|]|e] eqn:Hi.
    - destruct (log_metrics_improved c metrics log_path model checkpoint_model_path
                  checkpoint_conf_path epoch batch_anchor best_metrics best_perform
                  best_epoch user_list bundle_list score_list Hf Hi)
        as (b' & p' & Hb & Hs & _).
      rewrite Hb in H. injection H as <- <- <- <-.
      apply improved_same; [exact Hr|]. exact (proj1 (Hs _ Hv)).
    - rewrite (log_metrics_not_improved c metrics log_path model checkpoint_model_path
                 checkpoint_conf_path epoch batch_anchor best_metrics best_perform
                 best_epoch user_list bundle_list score_list Hf Hi) in H.
      injection H as <- <- <- <-. exact Hi.
    - rewrite (log_metrics_undecided c metrics log_path model checkpoint_model_path
                 checkpoint_conf_path epoch batch_anchor best_metrics best_perform
                 best_epoch user_list bundle_list score_list e Hf Hi) in H.
      discriminate. }
  rewrite (log_metrics_not_improved c metrics log_path model' checkpoint_model_path
             checkpoint_conf_path epoch' batch_anchor' best_metrics' best_perform'
             best_epoch' user_list' bundle_list' score_list' Hf Hi').
  eexists. split; [reflexivity|]. apply score_events_not_persist.
Qed.

(** X10: the whole output of [log_metrics], in order: the four scalars, at
    step [batch_anchor], and the two score lines of every configured K,
    whatever the decision; on an improvement then the export, the
    checkpoint, the configuration and the two summary lines of every
    configured K.  On an improvement the summary lines kept hold, for every
    configured K, the candidate's scores and the epoch, those of other K
    stay, as do the entries of other K in the best snapshot. *)
Theorem log_metrics_trace {model_state : Type} (c : conf) (model : model_state)
    (metrics : snapshot) (log_path checkpoint_model_path checkpoint_conf_path : string)
    (epoch batch_anchor : Z) (best_metrics : snapshot)
    (best_perform : per_split (gmap nat log_line)) (best_epoch : Z)
    (user_list : list Z) (bundle_list : matrix nat) (score_list : matrix Q)
    (best_metrics' : snapshot) (best_perform' : per_split (gmap nat log_line))
    (best_epoch' : Z) (out : list (io_event model_state)) :
  log_metrics c model metrics log_path checkpoint_model_path checkpoint_conf_path
    epoch batch_anchor best_metrics best_perform best_epoch
    user_list bundle_list score_list
  = OK (best_metrics', best_perform', best_epoch', out) ->
  exists better,
    improved (conf_topk_valid c) metrics best_metrics = OK better
    /\ out = flat_map (score_events log_path batch_anchor metrics) (conf_topk c)
             ++ (if better
                 then write_user_bundle_predict_list c user_list bundle_list score_list
                      ++ [save_model checkpoint_model_path model;
                          dump_conf checkpoint_conf_path (delete "device" (conf_dict c))]
                      ++ flat_map (best_events log_path metrics epoch) (conf_topk c)
                 else [])
    /\ (better = true ->
        (forall k, on_val best_perform' !! k
           = if decide (k ∈ conf_topk c) then Some (best_perform_line Val metrics epoch k)
             else on_val best_perform !! k)
        /\ (forall k, on_test best_perform' !! k
           = if decide (k ∈ conf_topk c) then Some (best_perform_line Test metrics epoch k)
             else on_test best_perform !! k)
        /\ (forall k, k ∉ conf_topk c -> same_at best_metrics' best_metrics k)).
Proof.
  intros H.
  destruct (write_logs_cases (model_state := model_state) metrics log_path
              (conf_topk c) batch_anchor) as [[Hf _]|[Hf _]];
    [|rewrite log_metrics_missing in H by exact Hf; discriminate].
  destruct (improved (conf_topk_valid c) metrics best_metrics) as [[|]|e] eqn:Hi.
  - destruct (log_metrics_improved c metrics log_path model checkpoint_model_path
                checkpoint_conf_path epoch batch_anchor best_metrics best_perform
                best_epoch user_list bundle_list score_list Hf Hi)
      as (b' & p' & Hb & _ & Ho & Hpv & Hpt).
    rewrite Hb in H. injection H as <- <- <- <-.
    exists true. split; [reflexivity|]. split; [reflexivity|]. auto.
  - rewrite (log_metrics_not_improved c metrics log_path model checkpoint_model_path
               checkpoint_conf_path epoch batch_anchor best_metrics best_perform
               best_epoch user_list bundle_list score_list Hf Hi) in H.
    injection H as <- <- <- <-.
    exists false. split; [reflexivity|]. rewrite app_nil_r.
    split; [reflexivity|discriminate].
  - rewrite (log_metrics_undecided c metrics log_path model checkpoint_model_path
               checkpoint_conf_path epoch batch_anchor best_metrics best_perform
               best_epoch user_list bundle_list score_list e Hf Hi) in H.
    discriminate.
Qed.

Lemma sample_snapshot_keys (r n : R) : Forall (has_topk (sample_snapshot r n)) [20; 40; 80].
Proof. apply Forall_forall. intros k Hk. apply sample_snapshot_has_topk, Hk. Qed.

Lemma sample_improved :
  improved 20 (sample_snapshot (12 / 100) (9 / 100)) (sample_snapshot (10 / 100) (8 / 100))
  = OK true.
Proof.
  rewrite improved_cases.
  destruct (sample_snapshot_lookup (12 / 100) (9 / 100) 20 ltac:(repeat constructor))
    as (-> & -> & _).
  destruct (sample_snapshot_lookup (10 / 100) (8 / 100) 20 ltac:(repeat constructor))
    as (-> & -> & _).
  destruct (Rgt_dec (12 / 100) (10 / 100)) as [_|H]; [|exfalso; apply H; lra].
  destruct (Rgt_dec (9 / 100) (8 / 100)) as [_|H]; [reflexivity|exfalso; apply H; lra].
Qed.

Lemma log_metrics_repeat_witness :
  let c := sample_conf "ED" (1 # 4) 1 in
  let metrics := sample_snapshot (12 / 100) (9 / 100) in
  exists best' perform' out out',
    log_metrics c tt metrics "log" "model" "conf" 7 70
      (sample_snapshot (10 / 100) (8 / 100)) (PerSplit ∅ ∅) 0 [1%Z] [[3]] [[inject_Z 5]]
    = OK (best', perform', 7%Z, out)
    /\ log_metrics c tt metrics "log" "model" "conf" 8 80
         best' perform' 7 [1%Z] [[3]] [[inject_Z 5]]
       = OK (best', perform', 7%Z, out')
    /\ List.filter is_persist out' = [].
Proof.
  intros c metrics.
  destruct (log_metrics_improved c metrics "log" tt "model" "conf" 7 70
              (sample_snapshot (10 / 100) (8 / 100)) (PerSplit ∅ ∅) 0 [1%Z] [[3]]
              [[inject_Z 5]] (sample_snapshot_keys _ _) sample_improved)
    as (best' & perform' & Hb & _).
  destruct (log_metrics_repeat c tt tt metrics "log" "model" "conf" 7 70 8 80
              (sample_snapshot (10 / 100) (8 / 100)) (PerSplit ∅ ∅) 0
              [1%Z] [1%Z] [[3]] [[3]] [[inject_Z 5]] [[inject_Z 5]]
              best' perform' 7 _ ltac:(left) Hb) as (out' & H2 & H3).
  eauto 10.
Defined.

Lemma log_metrics_trace_witness :
  let c := sample_conf "ED" (1 # 4) 1 in
  let metrics := sample_snapshot (12 / 100) (9 / 100) in
  let best := sample_snapshot (10 / 100) (8 / 100) in
  exists best' perform' out,
    log_metrics c tt metrics "log" "model" "conf" 7 70 best (PerSplit ∅ ∅) 0
      [1%Z] [[3]] [[inject_Z 5]]
    = OK (best', perform', 7%Z, out)
    /\ exists better,
         improved 20 metrics best = OK better
         /\ out = flat_map (score_events "log" 70 metrics) [20; 40; 80]
                  ++ (if better
                      then write_user_bundle_predict_list c [1%Z] [[3]] [[inject_Z 5]]
                           ++ [save_model "model" tt;
                               dump_conf "conf" (delete "device" (conf_dict c))]
                           ++ flat_map (best_events "log" metrics 7) [20; 40; 80]
                      else [])
         /\ (better = true ->
             (forall k, on_val perform' !! k
                = if decide (k ∈ [20; 40; 80])
                  then Some (best_perform_line Val metrics 7 k)
                  else (∅ : gmap nat log_line) !! k)
             /\ (forall k, on_test perform' !! k
                = if decide (k ∈ [20; 40; 80])
                  then Some (best_perform_line Test metrics 7 k)
                  else (∅ : gmap nat log_line) !! k)
             /\ (forall k, k ∉ [20; 40; 80] -> same_at best' best k)).
Proof.
  intros c metrics best.
  destruct (log_metrics_improved c metrics "log" tt "model" "conf" 7 70
              best (PerSplit ∅ ∅) 0 [1%Z] [[3]]
              [[inject_Z 5]] (sample_snapshot_keys _ _) sample_improved)
    as (best' & perform' & Hb & _).
  eexists best', perform', _. split; [exact Hb|].
  exact (log_metrics_trace c tt metrics "log" "model" "conf" 7 70 best (PerSplit ∅ ∅) 0
           [1%Z] [[3]] [[inject_Z 5]] best' perform' 7 _ Hb).
Defined.

Lemma init_best_metrics_keys (c : conf) :
  Forall (has_topk (fst (init_best_metrics c))) (conf_topk c).
Proof.
  apply Forall_forall. intros k Hk.
  destruct (init_best_metrics_zero c k Hk) as (H1 & H2 & H3 & H4).
  unfold has_topk. rewrite H1, H2, H3, H4. eauto.
Qed.

(** X11: from the state [init_best_metrics] returns, the first evaluation
    writes a checkpoint exactly when the validation recall and the
    validation ndcg at [topk_valid] are both above 0; otherwise the best
    snapshot stays all 0, the best epoch stays 0 and nothing is saved. *)
Theorem first_evaluation_checkpoint {model_state : Type} (c : conf) (model : model_state)
    (metrics : snapshot) (log_path checkpoint_model_path checkpoint_conf_path : string)
    (epoch batch_anchor : Z)
    (user_list : list Z) (bundle_list : matrix nat) (score_list : matrix Q) :
  conf_topk_valid c ∈ conf_topk c ->
  Forall (has_topk metrics) (conf_topk c) ->
  let r := item (recall (on_val metrics)) (conf_topk_valid c) in
  let n := item (ndcg (on_val metrics)) (conf_topk_valid c) in
  exists best_metrics' best_perform' best_epoch' out,
    log_metrics c model metrics log_path checkpoint_model_path checkpoint_conf_path
      epoch batch_anchor (fst (init_best_metrics c)) (snd (init_best_metrics c)) 0
      user_list bundle_list score_list
    = OK (best_metrics', best_perform', best_epoch', out)
    /\ ((0 < r)%R /\ (0 < n)%R ->
        best_epoch' = epoch /\ save_model checkpoint_model_path model ∈ out
        /\ forall k, k ∈ conf_topk c -> same_at best_metrics' metrics k)
    /\ (~ ((0 < r)%R /\ (0 < n)%R) ->
        best_metrics' = fst (init_best_metrics c) /\ best_perform' = PerSplit ∅ ∅
        /\ best_epoch' = 0%Z /\ List.filter is_persist out = []).
Proof.
  intros Hv Hf r n.
  destruct (proj1 (Forall_forall _ _) Hf _ Hv) as ([r' Hr] & [n' Hn] & _).
  destruct (init_best_metrics_zero c _ Hv) as (Hrb & Hnb & _). cbn zeta in Hrb, Hnb.
  assert (r = r') as Er by (unfold r, item; rewrite Hr; reflexivity).
  assert (n = n') as En by (unfold n, item; rewrite Hn; reflexivity).
  pose proof (improved_cases metrics (conf_topk_valid c) (fst (init_best_metrics c))) as Hi.
  rewrite Hr, Hrb, Hn, Hnb in Hi.
  destruct (Rgt_dec r' 0) as [Hr0|Hr0]; [destruct (Rgt_dec n' 0) as [Hn0|Hn0]|].
  - destruct (log_metrics_improved c metrics log_path model checkpoint_model_path
                checkpoint_conf_path epoch batch_anchor (fst (init_best_metrics c))
                (snd (init_best_metrics c)) 0 user_list bundle_list score_list Hf Hi)
      as (b' & p' & Hb & Hs & _).
    eexists b', p', _, _. split; [exact Hb|]. split.
    + intros _. split; [reflexivity|]. split; [|exact Hs].
      apply elem_of_app. right. apply elem_of_app. right. left.
    + intros H. exfalso. apply H. rewrite Er, En. split; assumption.
  - rewrite (log_metrics_not_improved c metrics log_path model checkpoint_model_path
               checkpoint_conf_path epoch batch_anchor (fst (init_best_metrics c))
               (snd (init_best_metrics c)) 0 user_list bundle_list score_list Hf Hi).
    eexists _, _, _, _. split; [reflexivity|]. split.
    + intros [_ H]. rewrite En in H. contradiction.
    + intros _. repeat split. apply score_events_not_persist.
  - rewrite (log_metrics_not_improved c metrics log_path model checkpoint_model_path
               checkpoint_conf_path epoch batch_anchor (fst (init_best_metrics c))
               (snd (init_best_metrics c)) 0 user_list bundle_list score_list Hf Hi).
    eexists _, _, _, _. split; [reflexivity|]. split.
    + intros [H _]. rewrite Er in H. contradiction.
    + intros _. repeat split. apply score_events_not_persist.
Qed.

Lemma first_evaluation_checkpoint_witness :
  let c := sample_conf "ED" (1 # 4) 1 in
  let metrics := sample_snapshot 0 (9 / 100) in
  let r := item (recall (on_val metrics)) 20 in
  let n := item (ndcg (on_val metrics)) 20 in
  exists best' perform' epoch' out,
    log_metrics c tt metrics "log" "model" "conf" 0 9
      (fst (init_best_metrics c)) (snd (init_best_metrics c)) 0 [1%Z] [[3]] [[inject_Z 5]]
    = OK (best', perform', epoch', out)
    /\ ((0 < r)%R /\ (0 < n)%R ->
        epoch' = 0%Z /\ save_model "model" tt ∈ out
        /\ forall k, k ∈ [20; 40; 80] -> same_at best' metrics k)
    /\ (~ ((0 < r)%R /\ (0 < n)%R) ->
        best' = fst (init_best_metrics c) /\ perform' = PerSplit ∅ ∅
        /\ epoch' = 0%Z /\ List.filter is_persist out = []).
Proof.
  intros c metrics.
  exact (first_evaluation_checkpoint c tt metrics "log" "model" "conf" 0 9
           [1%Z] [[3]] [[inject_Z 5]] ltac:(left) (sample_snapshot_keys _ _)).
Defined.

(** * The evaluations of a run *)

Lemma test_keys (dl : list batch) (topks : list nat) (m : per_metric (gmap nat R))
    (users : list Z) (bundles : matrix nat) (scores : matrix Q) (k : nat) :
  test dl topks = OK (m, users, bundles, scores) -> k ∈ topks ->
  is_Some (recall m !! k) /\ is_Some (ndcg m !! k).
Proof.
  intros H Hk. unfold test in H.
  apply test_with_OK_inv in H as (_ & (Hr & Hn) & _).
  rewrite (Hr k), (Hn k), !decide_True by exact Hk. eauto.
Qed.

Lemma evaluation_metrics_keys {model_state : Type} (c : conf)
    (ev : evaluation model_state) (m : snapshot) :
  evaluation_metrics c ev = OK m -> Forall (has_topk m) (conf_topk c).
Proof.
  unfold evaluation_metrics. intros H.
  destruct (test (ev_val ev) (conf_topk c)) as [[[[mv uv] bv] sv]|e] eqn:Ev; [|discriminate].
  destruct (test (ev_test ev) (conf_topk c)) as [[[[mt ut] bt] st]|e] eqn:Et; [|discriminate].
  injection H as <-. apply Forall_forall. intros k Hk.
  destruct (test_keys _ _ _ _ _ _ k Ev Hk). destruct (test_keys _ _ _ _ _ _ k Et Hk).
  unfold has_topk. cbn. tauto.
Qed.

Lemma improved_beats (topk_ : nat) (metrics best_metrics : snapshot) :
  has_topk metrics topk_ -> has_topk best_metrics topk_ ->
  exists better, improved topk_ metrics best_metrics = OK better
    /\ (better = true <-> beats topk_ metrics best_metrics).
Proof.
  intros ([r Hr] & [n Hn] & _) ([rb Hrb] & [nb Hnb] & _).
  rewrite improved_cases. unfold beats, item. rewrite Hr, Hn, Hrb, Hnb. cbn.
  destruct (Rgt_dec r rb) as [H1|H1]; [destruct (Rgt_dec n nb) as [H2|H2]|];
    eexists; (split; [reflexivity|]); split; try tauto; try discriminate.
Qed.

Lemma same_at_item (a b : snapshot) (k : nat) :
  same_at a b k ->
  item (recall (on_val a)) k = item (recall (on_val b)) k
  /\ item (ndcg (on_val a)) k = item (ndcg (on_val b)) k.
Proof. intros (H1 & H2 & _). unfold item. rewrite H1, H2. auto. Qed.

Lemma same_at_has_topk (a b : snapshot) (k : nat) :
  same_at a b k -> has_topk b k -> has_topk a k.
Proof. intros (H1 & H2 & H3 & H4). unfold has_topk. rewrite H1, H2, H3, H4. auto. Qed.

Section EvaluationFacts.
Context {model_state : Type}.
Variable c : conf.
Variables log_path checkpoint_model_path checkpoint_conf_path : string.

Lemma evaluation_step_OK_inv (best_metrics : snapshot)
    (best_perform : per_split (gmap nat log_line)) (best_epoch : Z)
    (out : list (io_event model_state)) (ev : evaluation model_state)
    (st' : selection model_state) :
  evaluation_step c log_path checkpoint_model_path checkpoint_conf_path
    (best_metrics, best_perform, best_epoch, out) ev = OK st' ->
  exists m users bundles scores best_metrics' best_perform' best_epoch' out',
    evaluation_metrics c ev = OK m
    /\ log_metrics c (ev_model ev) m log_path checkpoint_model_path checkpoint_conf_path
         (ev_epoch ev) (ev_anchor ev) best_metrics best_perform best_epoch
         users bundles scores
       = OK (best_metrics', best_perform', best_epoch', out')
    /\ st' = (best_metrics', best_perform', best_epoch', out ++ out').
Proof.
  unfold evaluation_step, evaluate_epoch, evaluation_metrics. intros H.
  destruct (test (ev_val ev) (conf_topk c)) as [[[[mv uv] bv] sv]|e]; [|discriminate].
  destruct (test (ev_test ev) (conf_topk c)) as [[[[mt ut] bt] st]|e]; [|discriminate].
  cbn in H. cbn.
  destruct (log_metrics _ _ _ _ _ _ _ _ _ _ _ _ _ _) as [[[[b' p'] e'] o']|e] eqn:El;
    [|discriminate].
  cbn in H. injection H as <-. exists (PerSplit mv mt), ut, bt, st, b', p', e', o'. auto.
Qed.

Lemma evaluation_step_raise (st : selection model_state) (ev : evaluation model_state)
    (e : PyError) :
  evaluation_metrics c ev = Raise e ->
  evaluation_step c log_path checkpoint_model_path checkpoint_conf_path st ev = Raise e.
Proof.
  destruct st as [[[b p] be] out].
  unfold evaluation_step, evaluate_epoch, evaluation_metrics.
  destruct (test (ev_val ev) (conf_topk c)) as [[[[mv uv] bv] sv]|e1]; cbn;
    [|intros [= <-]; reflexivity].
  destruct (test (ev_test ev) (conf_topk c)) as [[[[mt ut] bt] st]|e1]; cbn;
    [discriminate|intros [= <-]; reflexivity].
Qed.

Lemma evaluation_step_log_metrics (best_metrics : snapshot)
    (best_perform : per_split (gmap nat log_line)) (best_epoch : Z)
    (out : list (io_event model_state)) (ev : evaluation model_state) (m : snapshot) :
  evaluation_metrics c ev = OK m ->
  exists users bundles scores,
    evaluation_step c log_path checkpoint_model_path checkpoint_conf_path
      (best_metrics, best_perform, best_epoch, out) ev
    = (r ← log_metrics c (ev_model ev) m log_path checkpoint_model_path
             checkpoint_conf_path (ev_epoch ev) (ev_anchor ev)
             best_metrics best_perform best_epoch users bundles scores;
       OK (fst (fst (fst r)), snd (fst (fst r)), snd (fst r), out ++ snd r)).
Proof.
  unfold evaluation_step, evaluate_epoch, evaluation_metrics.
  destruct (test (ev_val ev) (conf_topk c)) as [[[[mv uv] bv] sv]|e]; [|discriminate].
  destruct (test (ev_test ev) (conf_topk c)) as [[[[mt ut] bt] st]|e]; [|discriminate].
  cbn. intros [= <-]. exists ut, bt, st.
  destruct (log_metrics _ _ _ _ _ _ _ _ _ _ _ _ _ _) as [[[[b' p'] e'] o']|e]; reflexivity.
Qed.

Hypothesis Hvalid : conf_topk_valid c ∈ conf_topk c.

Lemma step_selected (done : list (evaluation model_state))
    (st st' : selection model_state) (ev : evaluation model_state) :
  selected_from c checkpoint_model_path checkpoint_conf_path done st ->
  evaluation_step c log_path checkpoint_model_path checkpoint_conf_path st ev = OK st' ->
  selected_from c checkpoint_model_path checkpoint_conf_path (done ++ [ev]) st'.
Proof.
  destruct st as [[[best perform] be] out]. intros (Hk & Hund & Hsel) H.
  apply evaluation_step_OK_inv in H
    as (m & users & bundles & scores & b' & p' & e' & o' & Hm & Hl & ->).
  pose proof (evaluation_metrics_keys c ev m Hm) as Hkm.
  destruct (improved_beats (conf_topk_valid c) m best) as (better & Hi & Hb).
  { exact (proj1 (Forall_forall _ _) Hkm _ Hvalid). }
  { exact (proj1 (Forall_forall _ _) Hk _ Hvalid). }
  destruct better.
  - destruct (log_metrics_improved c m log_path (ev_model ev) checkpoint_model_path
                checkpoint_conf_path (ev_epoch ev) (ev_anchor ev) best perform be
                users bundles scores Hkm Hi) as (b'' & p'' & Hl' & Hs & _).
    rewrite Hl in Hl'. injection Hl' as <- <- -> ->.
    destruct (same_at_item _ _ _ (Hs _ Hvalid)) as [Er En].
    assert (beats (conf_topk_valid c) m best) as [Hr Hn] by (apply Hb; reflexivity).
    split; [|split].
    + apply Forall_forall. intros k Hin.
      exact (same_at_has_topk _ _ _ (Hs k Hin) (proj1 (Forall_forall _ _) Hkm k Hin)).
    + intros ev0 m0 Hin Hm0 [H1 H2]. rewrite Er in H1. rewrite En in H2.
      apply elem_of_app in Hin as [Hin|Hin].
      * apply (Hund ev0 m0 Hin Hm0). split; lra.
      * apply list_elem_of_singleton in Hin as ->.
        rewrite Hm in Hm0. injection Hm0 as <-. lra.
    + right. exists ev, m.
      exists (out ++ flat_map (score_events log_path (ev_anchor ev) m) (conf_topk c)
                  ++ write_user_bundle_predict_list c users bundles scores),
             (flat_map (best_events log_path m (ev_epoch ev)) (conf_topk c)).
      split; [apply elem_of_app; right; left|]. split; [exact Hm|].
      split; [reflexivity|]. split; [exact Hs|]. split.
      * rewrite <- !app_assoc. reflexivity.
      * apply best_events_not_persist.
  - rewrite (log_metrics_not_improved c m log_path (ev_model ev) checkpoint_model_path
               checkpoint_conf_path (ev_epoch ev) (ev_anchor ev) best perform be
               users bundles scores Hkm Hi) in Hl.
    injection Hl as <- <- <- <-.
    split; [exact Hk|split].
    + intros ev0 m0 Hin Hm0. apply elem_of_app in Hin as [Hin|Hin].
      * exact (Hund ev0 m0 Hin Hm0).
      * apply list_elem_of_singleton in Hin as ->.
        rewrite Hm in Hm0. injection Hm0 as <-. intros Hbt. apply Hb in Hbt. discriminate.
    + destruct Hsel as [(-> & -> & Hp)|(ev0 & m0 & o1 & o2 & Hin & Hm0 & -> & Hs & -> & Hp)].
      * left. split; [reflexivity|]. split; [reflexivity|].
        rewrite List.filter_app, Hp. apply score_events_not_persist.
      * right. exists ev0, m0, o1,
          (o2 ++ flat_map (score_events log_path (ev_anchor ev) m) (conf_topk c)).
        split; [apply elem_of_app; left; exact Hin|]. split; [exact Hm0|].
        split; [reflexivity|]. split; [exact Hs|]. split.
        -- rewrite <- !app_assoc. reflexivity.
        -- rewrite List.filter_app, Hp. apply score_events_not_persist.
Qed.

Lemma fold_selected (evs : list (evaluation model_state)) :
  forall (done : list (evaluation model_state)) (st st' : selection model_state),
  selected_from c checkpoint_model_path checkpoint_conf_path done st ->
  foldlM (evaluation_step c log_path checkpoint_model_path checkpoint_conf_path) st evs
  = OK st' ->
  selected_from c checkpoint_model_path checkpoint_conf_path (done ++ evs) st'.
Proof.
  induction evs as [|ev evs IH]; intros done st st' Hs H.
  - injection H as <-. rewrite app_nil_r. exact Hs.
  - cbn [foldlM] in H.
    destruct (evaluation_step _ _ _ _ st ev) as [st1|e] eqn:E1; [|discriminate].
    cbn in H. replace (done ++ ev :: evs) with ((done ++ [ev]) ++ evs)
      by (rewrite <- app_assoc; reflexivity).
    apply (IH _ st1); [|exact H]. exact (step_selected done st st1 ev Hs E1).
Qed.
End EvaluationFacts.

Lemma evaluation_metrics_raise {model_state : Type} (c : conf)
    (ev : evaluation model_state) (e : PyError) :
  evaluation_metrics c ev = Raise e ->
  test (ev_val ev) (conf_topk c) = Raise e \/ test (ev_test ev) (conf_topk c) = Raise e.
Proof.
  unfold evaluation_metrics.
  destruct (test (ev_val ev) (conf_topk c)) as [r|e1]; cbn; [|intros [= <-]; auto].
  destruct (test (ev_test ev) (conf_topk c)) as [r'|e1]; cbn;
    [discriminate|intros [= <-]; auto].
Qed.

Lemma evaluation_metrics_is_ok {model_state : Type} (c : conf)
    (ev : evaluation model_state) :
  is_ok (evaluation_metrics c ev) = true
  <-> is_ok (test (ev_val ev) (conf_topk c)) = true
      /\ is_ok (test (ev_test ev) (conf_topk c)) = true.
Proof.
  unfold evaluation_metrics.
  destruct (test (ev_val ev) (conf_topk c)) as [r|e1]; cbn; [|split; [|intros []]; discriminate].
  destruct (test (ev_test ev) (conf_topk c)) as [r'|e1]; cbn; [tauto|].
  split; [|intros []]; discriminate.
Qed.

Section EvaluationsReturn.
Context {model_state : Type}.
Variable c : conf.
Variables log_path checkpoint_model_path checkpoint_conf_path : string.
Hypothesis Hvalid : conf_topk_valid c ∈ conf_topk c.

Lemma evaluation_step_OK (best_metrics : snapshot)
    (best_perform : per_split (gmap nat log_line)) (best_epoch : Z)
    (out : list (io_event model_state)) (ev : evaluation model_state) (m : snapshot) :
  Forall (has_topk best_metrics) (conf_topk c) ->
  evaluation_metrics c ev = OK m ->
  exists st', evaluation_step c log_path checkpoint_model_path checkpoint_conf_path
                (best_metrics, best_perform, best_epoch, out) ev = OK st'.
Proof.
  intros Hk Hm.
  destruct (evaluation_step_log_metrics c log_path checkpoint_model_path
              checkpoint_conf_path best_metrics best_perform best_epoch out ev m Hm)
    as (users & bundles & scores & ->).
  pose proof (evaluation_metrics_keys c ev m Hm) as Hkm.
  destruct (improved_beats (conf_topk_valid c) m best_metrics) as (better & Hi & _).
  { exact (proj1 (Forall_forall _ _) Hkm _ Hvalid). }
  { exact (proj1 (Forall_forall _ _) Hk _ Hvalid). }
  destruct better.
  - destruct (log_metrics_improved c m log_path (ev_model ev) checkpoint_model_path
                checkpoint_conf_path (ev_epoch ev) (ev_anchor ev) best_metrics
                best_perform best_epoch users bundles scores Hkm Hi)
      as (b' & p' & -> & _).
    cbn. eauto.
  - rewrite (log_metrics_not_improved c m log_path (ev_model ev) checkpoint_model_path
               checkpoint_conf_path (ev_epoch ev) (ev_anchor ev) best_metrics
               best_perform best_epoch users bundles scores Hkm Hi).
    cbn. eauto.
Qed.

Lemma fold_evaluations (evs : list (evaluation model_state)) :
  forall (done : list (evaluation model_state)) (st : selection model_state),
  selected_from c checkpoint_model_path checkpoint_conf_path done st ->
  (Forall (fun ev => is_ok (evaluation_metrics c ev) = true) evs ->
   exists st',
     foldlM (evaluation_step c log_path checkpoint_model_path checkpoint_conf_path) st evs
     = OK st')
  /\ (is_ok (foldlM (evaluation_step c log_path checkpoint_model_path checkpoint_conf_path)
               st evs) = true ->
      Forall (fun ev => is_ok (evaluation_metrics c ev) = true) evs)
  /\ (forall e,
        foldlM (evaluation_step c log_path checkpoint_model_path checkpoint_conf_path) st evs
        = Raise e ->
        exists ev, ev ∈ evs /\ evaluation_metrics c ev = Raise e).
Proof.
  induction evs as [|ev evs IH]; intros done st Hs.
  - split; [eauto|]. split; [constructor|discriminate].
  - cbn [foldlM].
    destruct (evaluation_metrics c ev) as [m|e] eqn:Em.
    + destruct st as [[[best perform] be] out].
      destruct (evaluation_step_OK best perform be out ev m (proj1 Hs) Em) as (st1 & E1).
      rewrite E1. cbn.
      destruct (IH (done ++ [ev]) st1) as (Hok & Hinv & Hraise).
      { exact (step_selected c log_path checkpoint_model_path checkpoint_conf_path
                 Hvalid done _ st1 ev Hs E1). }
      split; [|split].
      * intros Hf. apply Hok. inversion Hf; assumption.
      * intros H. constructor; [rewrite Em; reflexivity|apply Hinv, H].
      * intros e H. destruct (Hraise e H) as (ev' & Hin & He).
        exists ev'. split; [right; exact Hin|exact He].
    + rewrite (evaluation_step_raise c log_path checkpoint_model_path
                 checkpoint_conf_path st ev e Em). cbn.
      split; [|split].
      * intros Hf. inversion Hf as [|? ? H1 _]; subst. rewrite Em in H1. discriminate.
      * discriminate.
      * intros e' [= <-]. exists ev. split; [left|exact Em].
Qed.

Lemma selected_from_init :
  selected_from c checkpoint_model_path checkpoint_conf_path []
    (fst (init_best_metrics c), snd (init_best_metrics c), 0%Z,
     @nil (io_event model_state)).
Proof.
  split; [apply init_best_metrics_keys|]. split; [intros ev m Hin; inversion Hin|].
  left. auto.
Qed.
End EvaluationsReturn.

(** X12: with [topk_valid] among the configured K, the evaluations of a run
    return exactly when every call of [test] returns, and an exception that
    ends them is one that [test] raised: [log_metrics] raises no [KeyError]
    on the metrics [test] returns and the best snapshot [main] carries. *)
Theorem evaluations_raise_as_test {model_state : Type} (c : conf)
    (log_path checkpoint_model_path checkpoint_conf_path : string)
    (evs : list (evaluation model_state)) :
  conf_topk_valid c ∈ conf_topk c ->
  (is_ok (evaluations c log_path checkpoint_model_path checkpoint_conf_path evs) = true
   <-> Forall (fun ev => is_ok (test (ev_val ev) (conf_topk c)) = true
                         /\ is_ok (test (ev_test ev) (conf_topk c)) = true) evs)
  /\ forall e,
       evaluations c log_path checkpoint_model_path checkpoint_conf_path evs = Raise e ->
       exists ev, ev ∈ evs
         /\ (test (ev_val ev) (conf_topk c) = Raise e
             \/ test (ev_test ev) (conf_topk c) = Raise e).
Proof.
  intros Hv. unfold evaluations.
  destruct (fold_evaluations c log_path checkpoint_model_path checkpoint_conf_path Hv
              evs [] _ (selected_from_init c checkpoint_model_path checkpoint_conf_path))
    as (Hok & Hinv & Hraise).
  split; [split|].
  - intros H. apply Hinv in H. eapply Forall_impl; [exact H|].
    intros ev. apply evaluation_metrics_is_ok.
  - intros H. destruct Hok as (st' & ->); [|reflexivity].
    eapply Forall_impl; [exact H|]. intros ev. apply evaluation_metrics_is_ok.
  - intros e H. destruct (Hraise e H) as (ev & Hin & He).
    exists ev. split; [exact Hin|]. apply evaluation_metrics_raise, He.
Qed.

(** X13: after the evaluations of a run no candidate evaluated is above the
    best snapshot both in validation recall and in validation ndcg at
    [topk_valid]; and either nothing was saved, best snapshot and best epoch
    being the initial ones, or best snapshot and best epoch are those of one
    of the evaluations, whose checkpoint is the last file written. *)
Theorem evaluations_select {model_state : Type} (c : conf)
    (log_path checkpoint_model_path checkpoint_conf_path : string)
    (evs : list (evaluation model_state))
    (best_metrics : snapshot) (best_perform : per_split (gmap nat log_line))
    (best_epoch : Z) (out : list (io_event model_state)) :
  conf_topk_valid c ∈ conf_topk c ->
  evaluations c log_path checkpoint_model_path checkpoint_conf_path evs
  = OK (best_metrics, best_perform, best_epoch, out) ->
  (forall ev m, ev ∈ evs -> evaluation_metrics c ev = OK m ->
     ~ beats (conf_topk_valid c) m best_metrics)
  /\ ((best_metrics = fst (init_best_metrics c) /\ best_epoch = 0%Z
       /\ List.filter is_persist out = [])
      \/ exists ev m out1 out2,
           ev ∈ evs /\ evaluation_metrics c ev = OK m /\ best_epoch = ev_epoch ev
           /\ (forall k, k ∈ conf_topk c -> same_at best_metrics m k)
           /\ out = out1 ++ [save_model checkpoint_model_path (ev_model ev);
                             dump_conf checkpoint_conf_path (delete "device" (conf_dict c))]
                         ++ out2
           /\ List.filter is_persist out2 = []).
Proof.
  intros Hv H. unfold evaluations in H.
  pose proof (fold_selected c log_path checkpoint_model_path checkpoint_conf_path Hv
                evs [] _ _
                (selected_from_init c checkpoint_model_path checkpoint_conf_path) H)
    as (_ & Hund & Hsel).
  rewrite app_nil_l in Hund, Hsel. split; [exact Hund|exact Hsel].
Qed.

Lemma sample_evaluation_metrics :
  is_ok (evaluation_metrics small_conf (Evaluation 0 9 tt sample_loader sample_loader)) = true.
Proof.
  apply evaluation_metrics_is_ok.
  destruct sample_test_returns as (m & users & bundles & scores & H).
  split; cbn [ev_val ev_test];
    change (conf_topk small_conf) with [1; 2]; unfold sample_loader; rewrite H; reflexivity.
Qed.

Lemma sample_evaluations_return :
  exists best perform epoch out,
    evaluations small_conf "log" "model" "conf"
      [Evaluation 0 9 tt sample_loader sample_loader]
    = OK (best, perform, epoch, out).
Proof.
  destruct (fold_evaluations small_conf "log" "model" "conf" (list_elem_of_here 1 [2])
              [Evaluation 0 9 tt sample_loader sample_loader] [] _
              (selected_from_init small_conf "model" "conf")) as (Hok & _).
  destruct Hok as ([[[b p] e] o] & H).
  - constructor; [exact sample_evaluation_metrics|constructor].
  - exists b, p, e, o. exact H.
Qed.

Lemma evaluations_raise_as_test_witness :
  let evs := [Evaluation 0 9 tt sample_loader sample_loader] in
  (is_ok (evaluations small_conf "log" "model" "conf" evs) = true
   <-> Forall (fun ev => is_ok (test (ev_val ev) (conf_topk small_conf)) = true
                         /\ is_ok (test (ev_test ev) (conf_topk small_conf)) = true) evs)
  /\ forall e,
       evaluations small_conf "log" "model" "conf" evs = Raise e ->
       exists ev, ev ∈ evs
         /\ (test (ev_val ev) (conf_topk small_conf) = Raise e
             \/ test (ev_test ev) (conf_topk small_conf) = Raise e).
Proof.
  intros evs.
  exact (evaluations_raise_as_test small_conf "log" "model" "conf" evs
           (list_elem_of_here 1 [2])).
Defined.

Lemma evaluations_select_witness :
  let c := small_conf in
  let evs := [Evaluation 0 9 tt sample_loader sample_loader] in
  exists best perform epoch out,
    evaluations c "log" "model" "conf" evs = OK (best, perform, epoch, out)
    /\ (forall ev m, ev ∈ evs -> evaluation_metrics c ev = OK m ->
          ~ beats (conf_topk_valid c) m best)
    /\ ((best = fst (init_best_metrics c) /\ epoch = 0%Z
         /\ List.filter is_persist out = [])
        \/ exists ev m out1 out2,
             ev ∈ evs /\ evaluation_metrics c ev = OK m /\ epoch = ev_epoch ev
             /\ (forall k, k ∈ conf_topk c -> same_at best m k)
             /\ out = out1 ++ [save_model "model" (ev_model ev);
                               dump_conf "conf" (delete "device" (conf_dict c))]
                           ++ out2
             /\ List.filter is_persist out2 = []).
Proof.
  intros c evs.
  destruct sample_evaluations_return as (b & p & e & o & H).
  exists b, p, e, o. split; [exact H|].
  exact (evaluations_select small_conf "log" "model" "conf" evs b p e o
           (list_elem_of_here 1 [2]) H).
Defined.

(** * Further properties of the training loop *)

Lemma run_seq_ok {A} (f : A -> run) (l : list A) :
  (forall x, x ∈ l -> snd (f x) = None) ->
  run_seq f l = (flat_map (fun x => fst (f x)) l, None).
Proof.
  induction l as [|a l IH]; intros H; [reflexivity|].
  cbn [run_seq flat_map]. pose proof (H a ltac:(left)) as Ha.
  destruct (f a) as [tr [e|]]; [discriminate|].
  rewrite IH by (intros x Hx; apply H; right; exact Hx). reflexivity.
Qed.

Lemma run_seq_raise {A} (f : A -> run) (l1 l2 : list A) (x : A) (e : PyError) :
  (forall y, y ∈ l1 -> snd (f y) = None) -> snd (f x) = Some e ->
  run_seq f (l1 ++ x :: l2) = (flat_map (fun y => fst (f y)) l1 ++ fst (f x), Some e).
Proof.
  induction l1 as [|a l1 IH]; intros H Hx.
  - cbn [app run_seq flat_map]. destruct (f x) as [tr [e'|]]; [|discriminate].
    cbn in Hx. injection Hx as ->. reflexivity.
  - cbn [app run_seq flat_map]. pose proof (H a ltac:(left)) as Ha.
    destruct (f a) as [tr [e'|]]; [discriminate|].
    rewrite IH by (try exact Hx; intros y Hy; apply H; right; exact Hy).
    cbn [fst snd]. rewrite app_assoc. reflexivity.
Qed.

Lemma flat_map_singleton {A B} (g : A -> B) (l : list A) :
  flat_map (fun x => [g x]) l = map g l.
Proof. induction l as [|a l IH]; [reflexivity|]. cbn. rewrite IH. reflexivity. Qed.

Lemma train_epoch_no_interval_bs (c : conf) (batch_cnt : nat) (epoch : nat) :
  conf_aug_type c = "ED" -> 0 < batch_cnt ->
  train_epoch c batch_cnt 0 epoch = ([], Some ZeroDivisionError).
Proof.
  intros H Hb. unfold train_epoch.
  destruct batch_cnt as [|k]; [lia|]. cbn [seq run_seq].
  unfold train_batch at 1. unfold ED_drop. rewrite decide_True by exact H.
  reflexivity.
Qed.

Section TrainFacts.
Variable c : conf.
Variable batch_cnt : nat.
Let n : Z := ed_interval_bs batch_cnt c.

Lemma ED_drop_returns (t : Z) :
  (conf_aug_type c = "ED" -> n ≠ 0%Z) -> exists d, ED_drop c n t = OK d.
Proof.
  intros H. unfold ED_drop.
  destruct (decide (conf_aug_type c = "ED")) as [E|E]; [|eauto].
  rewrite py_mod_nonzero by (apply H, E). cbn. eauto.
Qed.

Lemma train_batches_ok (epoch_anchor : Z) (k : nat) :
  (conf_aug_type c = "ED" -> n ≠ 0%Z) ->
  run_seq (train_batch c n epoch_anchor) (seq 0 k)
  = (map (fun i => forward (epoch_anchor + Z.of_nat i)
                     (from_ok false (ED_drop c n (epoch_anchor + Z.of_nat i))))
         (seq 0 k), None).
Proof.
  intros H. rewrite run_seq_ok.
  - f_equal. rewrite <- flat_map_singleton. apply flat_map_ext. intros i.
    unfold train_batch. destruct (ED_drop_returns (epoch_anchor + Z.of_nat i) H) as [d ->].
    reflexivity.
  - intros i _. unfold train_batch.
    destruct (ED_drop_returns (epoch_anchor + Z.of_nat i) H) as [d ->]. reflexivity.
Qed.

Lemma train_epoch_ok (epoch : nat) :
  (conf_aug_type c = "ED" -> n ≠ 0%Z) -> conf_test_interval c ≠ 0%Z ->
  train_epoch c batch_cnt n epoch = (epoch_events c batch_cnt epoch, None).
Proof.
  intros H Ht. unfold train_epoch. rewrite (train_batches_ok _ _ H).
  rewrite py_mod_nonzero by exact Ht. unfold epoch_events. fold n.
  destruct (Z.of_nat epoch mod conf_test_interval c =? 0)%Z;
    [reflexivity|rewrite app_nil_r; reflexivity].
Qed.

Lemma train_epoch_no_interval (epoch : nat) :
  (conf_aug_type c = "ED" -> n ≠ 0%Z) -> conf_test_interval c = 0%Z ->
  train_epoch c batch_cnt n epoch
  = (map (fun i =>
            let t := (Z.of_nat epoch * Z.of_nat batch_cnt + Z.of_nat i)%Z in
            forward t (from_ok false (ED_drop c n t)))
         (seq 0 batch_cnt), Some ZeroDivisionError).
Proof.
  intros H Ht. unfold train_epoch. rewrite (train_batches_ok _ _ H).
  unfold py_mod. rewrite decide_True by exact Ht. reflexivity.
Qed.

Lemma train_ok :
  (conf_aug_type c = "ED" -> n ≠ 0%Z) -> conf_test_interval c ≠ 0%Z ->
  train c batch_cnt = (flat_map (epoch_events c batch_cnt) (seq 0 (conf_epochs c)), None).
Proof.
  intros H Ht. unfold train. fold n. rewrite run_seq_ok.
  - f_equal. apply flat_map_ext. intros e. rewrite train_epoch_ok by assumption. reflexivity.
  - intros e _. rewrite train_epoch_ok by assumption. reflexivity.
Qed.
End TrainFacts.

(** X14: with at least one batch per epoch and a finite product
    [batch_cnt * conf["ed_interval"]] in binary64, the loop over the epochs
    ends without an exception of its own arithmetic exactly when there is no
    epoch, or [test_interval] is not 0 and, under the augmentation "ED",
    [ed_interval_bs] is not 0; the exception otherwise is a
    [ZeroDivisionError]. *)
Theorem train_completes_iff (c : conf) (batch_cnt : nat) :
  0 < batch_cnt ->
  is_finite (ed_interval_float batch_cnt c) = true ->
  (snd (train c batch_cnt) = None
   <-> conf_epochs c = 0
       \/ ((conf_aug_type c = "ED" -> ed_interval_bs batch_cnt c ≠ 0%Z)
           /\ conf_test_interval c ≠ 0%Z))
  /\ (forall e, snd (train c batch_cnt) = Some e -> e = ZeroDivisionError).
Proof.
  intros Hb _.
  destruct (decide (conf_aug_type c = "ED" /\ ed_interval_bs batch_cnt c = 0%Z))
    as [[Ha Hn]|Hs].
  - unfold train. rewrite Hn. destruct (conf_epochs c) as [|E]; cbn [seq run_seq].
    + split; [tauto|discriminate].
    + rewrite (train_epoch_no_interval_bs c batch_cnt 0 Ha Hb). cbn [snd].
      split; [|intros e [= <-]; reflexivity].
      split; [discriminate|]. intros [H|[H _]]; [discriminate|]. exfalso. exact (H Ha eq_refl).
  - assert (conf_aug_type c = "ED" -> ed_interval_bs batch_cnt c ≠ 0%Z) as Hok.
    { intros Ha Hn. apply Hs. split; assumption. }
    destruct (decide (conf_test_interval c = 0%Z)) as [Ht|Ht].
    + unfold train. destruct (conf_epochs c) as [|E]; cbn [seq run_seq].
      * split; [tauto|discriminate].
      * rewrite (train_epoch_no_interval c batch_cnt 0 Hok Ht). cbn [snd].
        split; [|intros e [= <-]; reflexivity].
        split; [discriminate|]. intros [H|[_ H]]; [discriminate|contradiction].
    + rewrite (train_ok c batch_cnt Hok Ht). cbn [snd].
      split; [tauto|discriminate].
Qed.

Lemma train_completes_iff_witness :
  (snd (train (sample_conf "ED" (1 # 4) 3) 10) = None
   <-> conf_epochs (sample_conf "ED" (1 # 4) 3) = 0
       \/ ((conf_aug_type (sample_conf "ED" (1 # 4) 3) = "ED" ->
            ed_interval_bs 10 (sample_conf "ED" (1 # 4) 3) ≠ 0%Z)
           /\ conf_test_interval (sample_conf "ED" (1 # 4) 3) ≠ 0%Z))
  /\ (forall e, snd (train (sample_conf "ED" (1 # 4) 3) 10) = Some e ->
        e = ZeroDivisionError).
Proof.
  apply (train_completes_iff (sample_conf "ED" (1 # 4) 3) 10); [lia|reflexivity].
Defined.

Lemma forward_anchors_app (l1 l2 : list train_event) :
  forward_anchors (l1 ++ l2) = forward_anchors l1 ++ forward_anchors l2.
Proof. apply flat_map_app. Qed.

Lemma evaluated_epochs_app (l1 l2 : list train_event) :
  evaluated_epochs (l1 ++ l2) = evaluated_epochs l1 ++ evaluated_epochs l2.
Proof. apply flat_map_app. Qed.

Lemma flat_map_flat_map {A B C} (f : A -> list B) (g : B -> list C) (l : list A) :
  flat_map g (flat_map f l) = flat_map (fun x => flat_map g (f x)) l.
Proof.
  induction l as [|a l IH]; [reflexivity|]. cbn [flat_map].
  rewrite flat_map_app, IH. reflexivity.
Qed.

Lemma forward_anchors_epoch (c : conf) (batch_cnt epoch : nat) :
  forward_anchors (epoch_events c batch_cnt epoch)
  = map (fun i => (Z.of_nat epoch * Z.of_nat batch_cnt + Z.of_nat i)%Z) (seq 0 batch_cnt).
Proof.
  unfold epoch_events. rewrite forward_anchors_app.
  replace (forward_anchors (if (Z.of_nat epoch mod conf_test_interval c =? 0)%Z
                            then [evaluate (Z.of_nat epoch)] else [])) with (@nil Z)
    by (destruct (_ =? _)%Z; reflexivity).
  rewrite app_nil_r. unfold forward_anchors.
  induction (seq 0 batch_cnt) as [|i l IH]; [reflexivity|]. cbn. f_equal. exact IH.
Qed.

Lemma evaluated_epochs_epoch (c : conf) (batch_cnt epoch : nat) :
  evaluated_epochs (epoch_events c batch_cnt epoch)
  = if (Z.of_nat epoch mod conf_test_interval c =? 0)%Z then [Z.of_nat epoch] else [].
Proof.
  unfold epoch_events. rewrite evaluated_epochs_app.
  replace (evaluated_epochs (map _ (seq 0 batch_cnt))) with (@nil Z).
  - destruct (_ =? _)%Z; reflexivity.
  - unfold evaluated_epochs. induction (seq 0 batch_cnt) as [|i l IH]; [reflexivity|].
    cbn. exact IH.
Qed.

Lemma anchors_seq (batch_cnt epochs : nat) :
  flat_map (fun e => map (fun i => (Z.of_nat e * Z.of_nat batch_cnt + Z.of_nat i)%Z)
                         (seq 0 batch_cnt)) (seq 0 epochs)
  = map Z.of_nat (seq 0 (epochs * batch_cnt)).
Proof.
  induction epochs as [|E IH]; [reflexivity|].
  rewrite seq_S, flat_map_app, IH. cbn [flat_map]. rewrite app_nil_r.
  replace (S E * batch_cnt) with (E * batch_cnt + batch_cnt) by lia.
  rewrite seq_app, map_app. f_equal. cbn [Nat.add].
  pose proof (fmap_add_seq (E * batch_cnt) 0 batch_cnt) as Hseq.
  rewrite Nat.add_0_r in Hseq. rewrite <- Hseq.
  rewrite <- list_fmap_compose. apply map_ext. intros i. cbn. lia.
Qed.

(** X15: in a run that completes, the [batch_anchor] of the calls of the
    model are 0, 1, 2, ... up to the number of epochs times the number of
    batches, in this order: the counter goes on from one epoch to the
    next. *)
Theorem train_forward_anchors (c : conf) (batch_cnt : nat) :
  snd (train c batch_cnt) = None ->
  0 < batch_cnt ->
  forward_anchors (fst (train c batch_cnt))
  = map Z.of_nat (seq 0 (conf_epochs c * batch_cnt)).
Proof.
  intros Hnone Hb.
  destruct (decide (conf_epochs c = 0)) as [E0|E0].
  { unfold train. rewrite E0. reflexivity. }
  destruct (decide (conf_aug_type c = "ED" /\ ed_interval_bs batch_cnt c = 0%Z))
    as [[Ha Hn]|Hs].
  { exfalso. unfold train in Hnone. rewrite Hn in Hnone.
    destruct (conf_epochs c) as [|E]; [congruence|]. cbn [seq run_seq] in Hnone.
    rewrite (train_epoch_no_interval_bs c batch_cnt 0 Ha Hb) in Hnone. discriminate. }
  assert (conf_aug_type c = "ED" -> ed_interval_bs batch_cnt c ≠ 0%Z) as Hok.
  { intros Ha Hn. apply Hs. split; assumption. }
  destruct (decide (conf_test_interval c = 0%Z)) as [Ht|Ht].
  { exfalso. unfold train in Hnone.
    destruct (conf_epochs c) as [|E]; [congruence|]. cbn [seq run_seq] in Hnone.
    rewrite (train_epoch_no_interval c batch_cnt 0 Hok Ht) in Hnone. discriminate. }
  rewrite (train_ok c batch_cnt Hok Ht). cbn [fst].
  unfold forward_anchors at 1. rewrite flat_map_flat_map.
  rewrite <- anchors_seq. apply flat_map_ext. intros e.
  apply forward_anchors_epoch.
Qed.

Lemma train_forward_anchors_witness :
  forward_anchors (fst (train (sample_conf "ED" (1 # 4) 3) 10))
  = map Z.of_nat (seq 0 (3 * 10)).
Proof.
  apply (train_forward_anchors (sample_conf "ED" (1 # 4) 3) 10); [reflexivity|lia].
Defined.

Lemma train_completes (c : conf) (batch_cnt : nat) :
  snd (train c batch_cnt) = None -> 0 < batch_cnt -> 0 < conf_epochs c ->
  (conf_aug_type c = "ED" -> ed_interval_bs batch_cnt c ≠ 0%Z)
  /\ conf_test_interval c ≠ 0%Z.
Proof.
  intros Hnone Hb He.
  destruct (decide (conf_aug_type c = "ED" /\ ed_interval_bs batch_cnt c = 0%Z))
    as [[Ha Hn]|Hs].
  { exfalso. unfold train in Hnone. rewrite Hn in Hnone.
    destruct (conf_epochs c) as [|E]; [lia|]. cbn [seq run_seq] in Hnone.
    rewrite (train_epoch_no_interval_bs c batch_cnt 0 Ha Hb) in Hnone. discriminate. }
  assert (conf_aug_type c = "ED" -> ed_interval_bs batch_cnt c ≠ 0%Z) as Hok.
  { intros Ha Hn. apply Hs. split; assumption. }
  split; [exact Hok|]. intros Ht. unfold train in Hnone.
  destruct (conf_epochs c) as [|E]; [lia|]. cbn [seq run_seq] in Hnone.
  rewrite (train_epoch_no_interval c batch_cnt 0 Hok Ht) in Hnone. discriminate.
Qed.

Lemma flat_map_filter_Z (p : Z -> bool) (l : list nat) :
  flat_map (fun e => if p (Z.of_nat e) then [Z.of_nat e] else []) l
  = List.filter p (map Z.of_nat l).
Proof.
  induction l as [|a l IH]; [reflexivity|]. cbn [flat_map map List.filter].
  rewrite IH. destruct (p (Z.of_nat a)); reflexivity.
Qed.

(** X16: in a run that completes, the epochs evaluated are, in their order,
    the epochs of [range(conf['epochs'])] that [test_interval] divides;
    epoch 0 is always among them. *)
Theorem train_evaluated_epochs (c : conf) (batch_cnt : nat) :
  snd (train c batch_cnt) = None ->
  0 < batch_cnt ->
  0 < conf_epochs c ->
  evaluated_epochs (fst (train c batch_cnt))
  = List.filter (fun e => (e mod conf_test_interval c =? 0)%Z)
                (map Z.of_nat (seq 0 (conf_epochs c)))
  /\ 0%Z ∈ evaluated_epochs (fst (train c batch_cnt)).
Proof.
  intros Hnone Hb He.
  destruct (train_completes c batch_cnt Hnone Hb He) as [Hok Ht].
  assert (evaluated_epochs (fst (train c batch_cnt))
          = List.filter (fun e => (e mod conf_test_interval c =? 0)%Z)
                        (map Z.of_nat (seq 0 (conf_epochs c)))) as Heq.
  { rewrite (train_ok c batch_cnt Hok Ht). cbn [fst].
    unfold evaluated_epochs at 1. rewrite flat_map_flat_map.
    rewrite <- flat_map_filter_Z. apply flat_map_ext. intros e.
    apply evaluated_epochs_epoch. }
  split; [exact Heq|]. rewrite Heq.
  apply list_elem_of_In, List.filter_In. split; [|reflexivity].
  apply list_elem_of_In. destruct (conf_epochs c) as [|E]; [lia|]. left.
Qed.

Lemma train_evaluated_epochs_witness :
  let c := Conf [20] 20 "Youshu" "BunCa" "cuda:0" "ED" (1 # 4) 5 2 ∅ in
  evaluated_epochs (fst (train c 10))
  = List.filter (fun e => (e mod 2 =? 0)%Z) (map Z.of_nat (seq 0 5))
  /\ 0%Z ∈ evaluated_epochs (fst (train c 10)).
Proof.
  intros c. apply (train_evaluated_epochs c 10); [reflexivity|lia|cbn; lia].
Defined.

(** X17: a [test_interval] of 0 lets the first epoch train all its batches
    and then raises a [ZeroDivisionError] at [epoch % test_interval], before
    any evaluation. *)
Theorem train_without_test_interval (c : conf) (batch_cnt : nat) :
  conf_test_interval c = 0%Z ->
  0 < conf_epochs c ->
  (conf_aug_type c = "ED" -> ed_interval_bs batch_cnt c ≠ 0%Z) ->
  snd (train c batch_cnt) = Some ZeroDivisionError
  /\ forward_anchors (fst (train c batch_cnt)) = map Z.of_nat (seq 0 batch_cnt)
  /\ evaluated_epochs (fst (train c batch_cnt)) = [].
Proof.
  intros Ht He Hok. unfold train.
  destruct (conf_epochs c) as [|E]; [lia|]. cbn [seq run_seq].
  rewrite (train_epoch_no_interval c batch_cnt 0 Hok Ht). cbn [fst snd].
  split; [reflexivity|]. split.
  - unfold forward_anchors. induction (seq 0 batch_cnt) as [|i l IH]; [reflexivity|].
    cbn. f_equal. exact IH.
  - unfold evaluated_epochs. induction (seq 0 batch_cnt) as [|i l IH]; [reflexivity|].
    cbn. exact IH.
Qed.

Lemma train_without_test_interval_witness :
  let c := Conf [20] 20 "Youshu" "BunCa" "cuda:0" "ED" (1 # 4) 5 0 ∅ in
  snd (train c 10) = Some ZeroDivisionError
  /\ forward_anchors (fst (train c 10)) = map Z.of_nat (seq 0 10)
  /\ evaluated_epochs (fst (train c 10)) = [].
Proof.
  intros c. apply (train_without_test_interval c 10); [reflexivity|cbn; lia|].
  intros _. vm_compute. discriminate.
Defined.

Lemma div_succ (N n : Z) :
  (0 <= N)%Z -> (0 < n)%Z ->
  ((N + 1) / n = N / n + (if (N + 1) mod n =? 0 then 1 else 0))%Z.
Proof.
  intros HN Hn.
  pose proof (Z.div_mod N n ltac:(lia)) as H1.
  pose proof (Z.mod_pos_bound N n Hn) as H2.
  pose proof (Z.div_mod (N + 1) n ltac:(lia)) as H3.
  pose proof (Z.mod_pos_bound (N + 1) n Hn) as H4.
  destruct (Z.eqb_spec ((N + 1) mod n) 0) as [E|E]; nia.
Qed.

Lemma count_multiples (n : Z) (N : nat) :
  (0 < n)%Z ->
  Z.of_nat (length (List.filter (fun t => ((t + 1) mod n =? 0)%Z)
                                (map Z.of_nat (seq 0 N))))
  = (Z.of_nat N / n)%Z.
Proof.
  intros Hn. induction N as [|N IH]; [rewrite Z.div_0_l by lia; reflexivity|].
  rewrite seq_S, map_app, List.filter_app, length_app, Nat2Z.inj_add, IH.
  rewrite Nat2Z.inj_succ, <- Z.add_1_r, (div_succ _ n) by lia.
  cbn [Nat.add map List.filter].
  destruct ((Z.of_nat N + 1) mod n =? 0)%Z; reflexivity.
Qed.

Lemma dropped_anchors_app (l1 l2 : list train_event) :
  dropped_anchors (l1 ++ l2) = dropped_anchors l1 ++ dropped_anchors l2.
Proof. apply flat_map_app. Qed.

Lemma filter_flat_map {A B} (p : B -> bool) (f : A -> list B) (l : list A) :
  List.filter p (flat_map f l) = flat_map (fun x => List.filter p (f x)) l.
Proof.
  induction l as [|a l IH]; [reflexivity|]. cbn [flat_map].
  rewrite List.filter_app, IH. reflexivity.
Qed.

Lemma ED_drop_flag (c : conf) (n t : Z) :
  conf_aug_type c = "ED" -> n ≠ 0%Z ->
  from_ok false (ED_drop c n t) = ((t + 1) mod n =? 0)%Z.
Proof.
  intros Ha Hn. unfold ED_drop. rewrite decide_True by exact Ha.
  rewrite py_mod_nonzero by exact Hn. reflexivity.
Qed.

Lemma dropped_anchors_epoch (c : conf) (batch_cnt epoch : nat) :
  conf_aug_type c = "ED" -> ed_interval_bs batch_cnt c ≠ 0%Z ->
  dropped_anchors (epoch_events c batch_cnt epoch)
  = List.filter (fun t => ((t + 1) mod ed_interval_bs batch_cnt c =? 0)%Z)
      (map (fun i => (Z.of_nat epoch * Z.of_nat batch_cnt + Z.of_nat i)%Z)
           (seq 0 batch_cnt)).
Proof.
  intros Ha Hn. unfold epoch_events. rewrite dropped_anchors_app.
  replace (dropped_anchors (if (Z.of_nat epoch mod conf_test_interval c =? 0)%Z
                            then [evaluate (Z.of_nat epoch)] else [])) with (@nil Z)
    by (destruct (_ =? _)%Z; reflexivity).
  rewrite app_nil_r. unfold dropped_anchors.
  induction (seq 0 batch_cnt) as [|i l IH]; [reflexivity|].
  cbn [map flat_map List.filter]. rewrite IH, (ED_drop_flag c _ _ Ha Hn).
  destruct (_ =? _)%Z; reflexivity.
Qed.

(** X18: under the augmentation "ED", in a run that completes, the calls of
    the model with [ED_drop=True] are those whose [batch_anchor + 1] is a
    multiple of [ed_interval_bs], and their number is the number of batches
    of the run divided by [ed_interval_bs], rounded down. *)
Theorem train_ED_drops (c : conf) (batch_cnt : nat) :
  conf_aug_type c = "ED" ->
  (0 < ed_interval_bs batch_cnt c)%Z ->
  conf_test_interval c ≠ 0%Z ->
  dropped_anchors (fst (train c batch_cnt))
  = List.filter (fun t => ((t + 1) mod ed_interval_bs batch_cnt c =? 0)%Z)
                (map Z.of_nat (seq 0 (conf_epochs c * batch_cnt)))
  /\ Z.of_nat (length (dropped_anchors (fst (train c batch_cnt))))
     = (Z.of_nat (conf_epochs c * batch_cnt) / ed_interval_bs batch_cnt c)%Z.
Proof.
  intros Ha Hn Ht.
  assert (ed_interval_bs batch_cnt c ≠ 0%Z) as Hn0 by lia.
  assert (dropped_anchors (fst (train c batch_cnt))
          = List.filter (fun t => ((t + 1) mod ed_interval_bs batch_cnt c =? 0)%Z)
                        (map Z.of_nat (seq 0 (conf_epochs c * batch_cnt)))) as Heq.
  { rewrite (train_ok c batch_cnt (fun _ => Hn0) Ht). cbn [fst].
    unfold dropped_anchors at 1. rewrite flat_map_flat_map.
    rewrite <- anchors_seq, filter_flat_map. apply flat_map_ext. intros e.
    apply (dropped_anchors_epoch c batch_cnt e Ha Hn0). }
  split; [exact Heq|]. rewrite Heq. apply count_multiples, Hn.
Qed.

Lemma train_ED_drops_witness :
  let c := sample_conf "ED" (3 # 10) 3 in
  dropped_anchors (fst (train c 10))
  = List.filter (fun t => ((t + 1) mod ed_interval_bs 10 c =? 0)%Z)
                (map Z.of_nat (seq 0 (conf_epochs c * 10)))
  /\ Z.of_nat (length (dropped_anchors (fst (train c 10))))
     = (Z.of_nat (conf_epochs c * 10) / ed_interval_bs 10 c)%Z.
Proof.
  intros c. apply (train_ED_drops c 10); [reflexivity|reflexivity|discriminate].
Defined.

Lemma run_seq_ext {A} (f g : A -> run) (l : list A) :
  (forall x, f x = g x) -> run_seq f l = run_seq g l.
Proof.
  intros H. induction l as [|a l IH]; [reflexivity|].
  cbn [run_seq]. rewrite H, IH. reflexivity.
Qed.

Lemma dropped_anchors_nil (tr : list train_event) :
  (forall t d, forward t d ∈ tr -> d = false) -> dropped_anchors tr = [].
Proof.
  induction tr as [|ev tr IH]; intros H; [reflexivity|].
  unfold dropped_anchors. cbn [flat_map]. fold (dropped_anchors tr).
  rewrite IH by (intros t d Hin; apply (H t d); right; exact Hin).
  destruct ev as [t [|]|e]; try reflexivity.
  specialize (H t true ltac:(left)). discriminate.
Qed.

(** X19: under an augmentation other than "ED" no call of the model has
    [ED_drop=True], and the run is the same whatever [ed_interval_bs] is,
    0 included: the modulo is not evaluated. *)
Theorem train_without_ED (c : conf) (batch_cnt : nat) (interval_bs : Z) :
  conf_aug_type c ≠ "ED" ->
  dropped_anchors (fst (train c batch_cnt)) = []
  /\ train c batch_cnt
     = run_seq (train_epoch c batch_cnt interval_bs) (seq 0 (conf_epochs c)).
Proof.
  intros Ha. split.
  - apply dropped_anchors_nil. intros t d Hin.
    apply run_seq_events in Hin as (e & _ & Hin).
    apply train_epoch_forward in Hin.
    rewrite (ED_drop_other c batch_cnt t Ha) in Hin. congruence.
  - unfold train. apply run_seq_ext. intros e. unfold train_epoch.
    rewrite (run_seq_ext (train_batch c (ed_interval_bs batch_cnt c) _)
               (train_batch c interval_bs (Z.of_nat e * Z.of_nat batch_cnt))).
    + reflexivity.
    + intros i. unfold train_batch, ED_drop. rewrite !decide_False by exact Ha.
      reflexivity.
Qed.

Lemma train_without_ED_witness :
  dropped_anchors (fst (train (sample_conf "OP" 0 3) 10)) = []
  /\ train (sample_conf "OP" 0 3) 10
     = run_seq (train_epoch (sample_conf "OP" 0 3) 10 7) (seq 0 3).
Proof. apply (train_without_ED (sample_conf "OP" 0 3) 10 7). discriminate. Defined.

(** * Further properties of the recall path *)

Lemma filter_take_le {A} (p : A -> bool) (l : list A) (k k' : nat) :
  k <= k' -> length (List.filter p (take k l)) <= length (List.filter p (take k' l)).
Proof.
  intros Hk. rewrite <- (take_drop k (take k' l)).
  rewrite take_take, Nat.min_l by exact Hk.
  rewrite List.filter_app, length_app. lia.
Qed.

Lemma hits_count (u : user_row) (k : nat) (hits : list bool) :
  row_hits u k = OK hits ->
  exists s, row_scores u = OK s
    /\ row_sum hits
       = length (List.filter (fun c => nth c (grd_row u) false)
                             (take k (map fst (ranking s)))).
Proof.
  intros H. apply row_hits_inv in H as (cols & Hc & Hg).
  apply row_top_inv in Hc as (s & Hs & _ & ->).
  exists s. split; [exact Hs|]. rewrite (row_sum_gather _ _ _ Hg), firstn_map.
  reflexivity.
Qed.

Lemma hits_mono (u : user_row) (k k' : nat) :
  k <= k' -> is_ok (row_hits u k) = true -> is_ok (row_hits u k') = true ->
  row_sum (from_ok [] (row_hits u k)) <= row_sum (from_ok [] (row_hits u k')).
Proof.
  intros Hk H1 H2.
  destruct (row_hits u k) as [h|] eqn:E1; [|discriminate].
  destruct (row_hits u k') as [h'|] eqn:E2; [|discriminate]. cbn [from_ok].
  apply hits_count in E1 as (s & Hs & ->). apply hits_count in E2 as (s' & Hs' & ->).
  rewrite Hs in Hs'. injection Hs' as <-. apply filter_take_le, Hk.
Qed.

Lemma user_recall_mono (u : user_row) (k k' : nat) :
  k <= k' -> is_ok (row_hits u k) = true -> is_ok (row_hits u k') = true ->
  (user_recall u k <= user_recall u k')%R.
Proof.
  intros Hk H1 H2. unfold user_recall.
  pose proof (hits_mono u k k' Hk H1 H2) as Hh. apply le_INR in Hh.
  pose proof epsilon_pos as He. pose proof (pos_INR (num_pos_of u)) as Hp.
  apply Rmult_le_compat_r; [|exact Hh].
  left. apply Rinv_0_lt_compat. lra.
Qed.

Lemma Rsum_map_le {A} (f g : A -> R) (l : list A) :
  (forall x, x ∈ l -> (f x <= g x)%R) -> (Rsum (map f l) <= Rsum (map g l))%R.
Proof.
  induction l as [|a l IH]; intros H; [simpl; lra|].
  cbn [map]. rewrite !Rsum_cons.
  pose proof (H a ltac:(left)). specialize (IH (fun x Hx => H x ltac:(right; exact Hx))).
  lra.
Qed.

(** X20: the recall [test] returns does not decrease with K where the top
    K is cut without a tie: for two configured K, the masked score at rank K
    of every user being above the score at rank K + 1, the larger K has the
    larger or the same recall.  The bundles of the top K are then those that
    score above the rank K + 1, in any order of the equal scores, and every
    top K' holds them. *)
Theorem test_recall_monotone (topks : list nat) (dl : list batch)
    (m : per_metric (gmap nat R)) (users : list Z) (bundles : matrix nat) (scores : matrix Q)
    (k k' : nat) (v v' : R) :
  test dl topks = OK (m, users, bundles, scores) ->
  k <= k' ->
  Forall (fun u => clear_cut (from_ok [] (row_scores u)) k = true) (concat dl) ->
  recall m !! k = Some v -> recall m !! k' = Some v' ->
  (v <= v')%R.
Proof.
  intros H Hk _ Hv Hv'. unfold test in H.
  apply test_with_OK_inv in H as ((Hok & _ & Hzr & _) & (Hlr & _) & _).
  pose proof (Hlr k) as H1. pose proof (Hlr k') as H2. rewrite Hv in H1. rewrite Hv' in H2.
  destruct (decide (k ∈ topks)) as [Hin|]; [|discriminate].
  destruct (decide (k' ∈ topks)) as [Hin'|]; [|discriminate].
  specialize (Hzr k Hin). rewrite entry_after_recall in *. cbn [fst snd] in *.
  injection H1 as ->. injection H2 as ->. unfold Rdiv_int.
  rewrite <- INR_IZR_INZ.
  assert (0 < INR (count_pos (concat dl)))%R as Hp by (apply lt_0_INR; lia).
  apply Rmult_le_compat_r; [left; apply Rinv_0_lt_compat, Hp|].
  apply Rsum_map_le. intros u Hu.
  apply batches_ok_rows in Hok.
  pose proof (proj1 (Forall_forall _ _) Hok u Hu) as Hrow. cbn beta in Hrow.
  apply user_recall_mono; [exact Hk| |]; eapply row_ok_hits; eassumption.
Qed.

Lemma test_recall_monotone_witness :
  exists m users bundles scores v v',
    test [[sample_user 1 [0] []]; [sample_user 2 [0; 5] [1]; sample_user 7 [] [3]]] [1; 2]
    = OK (m, users, bundles, scores)
    /\ recall m !! 1 = Some v /\ recall m !! 2 = Some v' /\ (v <= v')%R.
Proof.
  destruct sample_test_returns as (m & users & bundles & scores & H).
  destruct (test_keys _ _ _ _ _ _ 1 H ltac:(repeat constructor)) as [[v Hv] _].
  destruct (test_keys _ _ _ _ _ _ 2 H ltac:(repeat constructor)) as [[v' Hv'] _].
  exists m, users, bundles, scores, v, v'.
  split; [exact H|]. split; [exact Hv|]. split; [exact Hv'|].
  refine (test_recall_monotone _ _ _ _ _ _ 1 2 v v' H ltac:(lia) _ Hv Hv').
  repeat (constructor; [vm_compute; reflexivity|]). constructor.
Defined.

(** X21: in binary32 the epsilon of [get_recall] changes the recall of no
    user: with at least one positive (and fewer than 2^24) the sum
    [num_pos + epsilon] rounds to [num_pos], so the quotient is that of
    [hit_cnt] by [num_pos]; without a positive the quotient of 0 by epsilon
    is +0. *)
Theorem recall_user_epsilon_absorbed (hit_cnt num_pos : nat) :
  (Z.of_nat num_pos < 2 ^ 24)%Z ->
  (0 < num_pos ->
   Binary32.recall_user hit_cnt num_pos
   = Binary32.f32_div (Binary32.f32_of_nat hit_cnt) (Binary32.f32_of_nat num_pos))
  /\ Binary32.recall_user 0 num_pos = S754_zero false.
Proof.
  intros Hlt. split.
  - intros Hp. unfold Binary32.recall_user.
    rewrite (f32_add_eps_absorbed _ (f32_of_nat_normal num_pos Hp Hlt)). reflexivity.
  - unfold Binary32.recall_user. destruct num_pos as [|P]; [reflexivity|].
    rewrite (f32_add_eps_absorbed _ (f32_of_nat_normal (S P) ltac:(lia) Hlt)).
    destruct (f32_of_nat_normal (S P) ltac:(lia) Hlt) as (m & e & -> & _).
    reflexivity.
Qed.

Lemma recall_user_epsilon_absorbed_witness :
  (0 < 3 ->
   Binary32.recall_user 2 3
   = Binary32.f32_div (Binary32.f32_of_nat 2) (Binary32.f32_of_nat 3))
  /\ Binary32.recall_user 0 3 = S754_zero false.
Proof. apply (recall_user_epsilon_absorbed 2 3). reflexivity. Defined.

(** ** Recall and ndcg vanish together *)

Lemma dcg_at_pos_iff (hit : list bool) : forall r, 2 <= r ->
  (0 < dcg_at r hit)%R <-> 0 < row_sum hit.
Proof.
  induction hit as [|h hit IH]; intros r Hr; cbn [dcg_at row_sum foldr].
  - split; [lra|lia].
  - fold (row_sum hit). pose proof (weight_pos r Hr) as Hw.
    pose proof (dcg_at_nonneg hit (S r) ltac:(lia)) as Hd.
    specialize (IH (S r) ltac:(lia)).
    destruct h; cbn [b2r].
    + split; [lia|]. intros _. unfold Rdiv. lra.
    + unfold Rdiv. rewrite Rmult_0_l, Rplus_0_l. exact IH.
Qed.

Lemma user_recall_pos_iff (u : user_row) (k : nat) :
  (0 < user_recall u k)%R <-> 0 < row_sum (from_ok [] (row_hits u k)).
Proof.
  unfold user_recall. pose proof epsilon_pos as He.
  pose proof (pos_INR (num_pos_of u)) as Hp.
  assert (0 < / (INR (num_pos_of u) + epsilon))%R as Hi
    by (apply Rinv_0_lt_compat; lra).
  split.
  - intros H. destruct (row_sum (from_ok [] (row_hits u k))) as [|h]; [|lia].
    cbn in H. unfold Rdiv in H. lra.
  - intros H. apply lt_INR in H. cbn in H. apply Rmult_lt_0_compat; assumption.
Qed.

Lemma user_ndcg_pos_iff (u : user_row) (k : nat) :
  (0 < user_ndcg u k)%R <-> 0 < row_sum (from_ok [] (row_hits u k)).
Proof.
  rewrite user_ndcg_dcg_at, <- (dcg_at_pos_iff _ 2 ltac:(lia)).
  pose proof (IDCGs_clamp_pos k (num_pos_of u)) as Hi.
  apply Rinv_0_lt_compat in Hi.
  pose proof (dcg_at_nonneg (from_ok [] (row_hits u k)) 2 ltac:(lia)) as Hd.
  unfold Rdiv. split; intros H.
  - destruct Hd as [Hd|Hd]; [exact Hd|]. rewrite <- Hd in H. lra.
  - apply Rmult_lt_0_compat; assumption.
Qed.

Lemma Rsum_pos_iff {A} (f : A -> R) (l : list A) :
  (forall x, (0 <= f x)%R) ->
  (0 < Rsum (map f l))%R <-> exists x, x ∈ l /\ (0 < f x)%R.
Proof.
  intros Hf. induction l as [|a l IH]; cbn [map].
  - change (Rsum []) with 0%R. split; [lra|]. intros (x & Hx & _). inversion Hx.
  - rewrite Rsum_cons. pose proof (Hf a) as Ha.
    assert (0 <= Rsum (map f l))%R as Hs.
    { apply Rsum_nonneg, Forall_forall. intros y Hy.
      apply list_elem_of_fmap in Hy as (x & -> & _). apply Hf. }
    split.
    + intros H. destruct Ha as [Ha|Ha].
      * exists a. split; [left|exact Ha].
      * destruct IH as [IH _]. destruct IH as (x & Hx & Hp); [lra|].
        exists x. split; [right; exact Hx|exact Hp].
    + intros (x & Hx & Hp). apply elem_of_cons in Hx as [->|Hx]; [lra|].
      destruct IH as [_ IH]. specialize (IH (ex_intro _ x (conj Hx Hp))). lra.
Qed.

Lemma test_metric_pos_iff (topks : list nat) (dl : list batch)
    (m : per_metric (gmap nat R)) (users : list Z) (bundles : matrix nat) (scores : matrix Q)
    (k : nat) :
  test dl topks = OK (m, users, bundles, scores) ->
  (forall v, recall m !! k = Some v ->
     (0 < v)%R <-> exists u, u ∈ concat dl /\ 0 < row_sum (from_ok [] (row_hits u k)))
  /\ (forall v, ndcg m !! k = Some v ->
     (0 < v)%R <-> exists u, u ∈ concat dl /\ 0 < row_sum (from_ok [] (row_hits u k))).
Proof.
  intros H. unfold test in H.
  apply test_with_OK_inv in H as ((_ & _ & Hzr & Hzn) & (Hlr & Hln) & _).
  specialize (Hlr k). specialize (Hln k).
  assert (forall s d : R, (0 < d)%R -> (0 <= s)%R -> (0 < s / d)%R <-> (0 < s)%R) as Hdiv.
  { intros s d Hd Hs. unfold Rdiv. split; intros Hx.
    - destruct Hs as [Hs|Hs]; [exact Hs|]. rewrite <- Hs in Hx. lra.
    - apply Rmult_lt_0_compat; [exact Hx|apply Rinv_0_lt_compat, Hd]. }
  destruct (decide (k ∈ topks)) as [Hin|];
    [|split; intros v Hv; rewrite Hv in *; discriminate].
  specialize (Hzr k Hin). specialize (Hzn k Hin).
  rewrite entry_after_recall in *. rewrite entry_after_ndcg in *. cbn [fst snd] in *.
  split; intros v Hv; rewrite Hv in *.
  - injection Hlr as ->. unfold Rdiv_int. rewrite <- INR_IZR_INZ.
    rewrite Hdiv.
    + rewrite (Rsum_pos_iff (fun u => user_recall u k) (concat dl)
                 (fun u => user_recall_nonneg u k)).
      split; intros (u & Hu & Hx); exists u; (split; [exact Hu|]);
        apply user_recall_pos_iff, Hx.
    + apply lt_0_INR. lia.
    + apply Rsum_nonneg, Forall_forall. intros y Hy.
      apply list_elem_of_fmap in Hy as (x & -> & _). apply user_recall_nonneg.
  - injection Hln as ->. unfold Rdiv_int. rewrite <- INR_IZR_INZ.
    rewrite Hdiv.
    + rewrite (Rsum_pos_iff (fun u => user_ndcg u k) (concat dl)
                 (fun u => user_ndcg_nonneg u k)).
      split; intros (u & Hu & Hx); exists u; (split; [exact Hu|]);
        apply user_ndcg_pos_iff, Hx.
    + apply lt_0_INR. lia.
    + apply Rsum_nonneg, Forall_forall. intros y Hy.
      apply list_elem_of_fmap in Hy as (x & -> & _). apply user_ndcg_nonneg.
Qed.

(** X23: for every K, the recall [test] returns is 0 exactly when its ndcg
    is 0: both are above 0 exactly when some user has a positive among the
    top K. *)
Theorem test_recall_ndcg_vanish_together (topks : list nat) (dl : list batch)
    (m : per_metric (gmap nat R)) (users : list Z) (bundles : matrix nat) (scores : matrix Q)
    (k : nat) (v v' : R) :
  test dl topks = OK (m, users, bundles, scores) ->
  recall m !! k = Some v -> ndcg m !! k = Some v' ->
  ((0 < v)%R <-> exists u, u ∈ concat dl /\ 0 < row_sum (from_ok [] (row_hits u k)))
  /\ ((0 < v)%R <-> (0 < v')%R).
Proof.
  intros H Hv Hv'.
  destruct (test_metric_pos_iff topks dl m users bundles scores k H) as [Hr Hn].
  specialize (Hr v Hv). specialize (Hn v' Hv').
  split; [exact Hr|]. rewrite Hr, Hn. reflexivity.
Qed.

Lemma test_recall_ndcg_vanish_together_witness :
  let dl := [[sample_user 1 [0] []]; [sample_user 2 [0; 5] [1]; sample_user 7 [] [3]]] in
  exists m users bundles scores v v',
    test dl [1; 2] = OK (m, users, bundles, scores)
    /\ recall m !! 1 = Some v /\ ndcg m !! 1 = Some v'
    /\ ((0 < v)%R
        <-> exists u, u ∈ concat dl /\ 0 < row_sum (from_ok [] (row_hits u 1)))
    /\ ((0 < v)%R <-> (0 < v')%R).
Proof.
  intros dl. destruct sample_test_returns as (m & users & bundles & scores & H).
  destruct (test_keys _ _ _ _ _ _ 1 H ltac:(repeat constructor)) as [[v Hv] [v' Hv']].
  exists m, users, bundles, scores, v, v'.
  split; [exact H|]. split; [exact Hv|]. split; [exact Hv'|].
  exact (test_recall_ndcg_vanish_together _ _ _ _ _ _ 1 v v' H Hv Hv').
Defined.

Lemma not_persist_not_in {model_state : Type} (e : io_event model_state)
    (l : list (io_event model_state)) :
  List.filter is_persist l = [] -> is_persist e = true -> e ∉ l.
Proof.
  intros Hl He Hin. apply list_elem_of_In in Hin.
  assert (List.In e (List.filter is_persist l)) as H by (apply List.filter_In; auto).
  rewrite Hl in H. destruct H.
Qed.

(** X24: the first evaluation of a run writes a checkpoint exactly when the
    validation recall at [topk_valid] is above 0: the ndcg of [test] is above
    0 with it, so that the second half of the test of [log_metrics] decides
    nothing then. *)
Theorem first_epoch_checkpoint {model_state : Type} (c : conf) (model : model_state)
    (val_loader test_loader : list batch)
    (log_path checkpoint_model_path checkpoint_conf_path : string) (epoch batch_anchor : Z)
    (metrics_val : per_metric (gmap nat R)) (users : list Z) (bundles : matrix nat)
    (scores : matrix Q) :
  conf_topk_valid c ∈ conf_topk c ->
  test val_loader (conf_topk c) = OK (metrics_val, users, bundles, scores) ->
  is_ok (test test_loader (conf_topk c)) = true ->
  exists best_metrics' best_perform' best_epoch' out,
    evaluate_epoch c model val_loader test_loader
      log_path checkpoint_model_path checkpoint_conf_path epoch batch_anchor
      (fst (init_best_metrics c)) (snd (init_best_metrics c)) 0
    = OK (best_metrics', best_perform', best_epoch', out)
    /\ (save_model checkpoint_model_path model ∈ out
        <-> (0 < item (recall metrics_val) (conf_topk_valid c))%R)
    /\ (best_epoch' = epoch \/ best_epoch' = 0%Z).
Proof.
  intros Hv Hval Htest.
  destruct (test test_loader (conf_topk c)) as [[[[mt ut] bt] st]|e] eqn:Et;
    [|discriminate].
  unfold evaluate_epoch. rewrite Hval, Et. cbn [mbind result_bind fst].
  set (metrics := PerSplit metrics_val mt).
  assert (Forall (has_topk metrics) (conf_topk c)) as Hk.
  { apply Forall_forall. intros k Hin.
    destruct (test_keys _ _ _ _ _ _ k Hval Hin). destruct (test_keys _ _ _ _ _ _ k Et Hin).
    unfold has_topk. cbn. tauto. }
  destruct (test_keys _ _ _ _ _ _ _ Hval Hv) as [[r Hr] [n Hn]].
  destruct (test_metric_pos_iff _ _ _ _ _ _ (conf_topk_valid c) Hval) as [Hrp Hnp].
  specialize (Hrp r Hr). specialize (Hnp n Hn).
  assert (item (recall metrics_val) (conf_topk_valid c) = r) as ->
    by (unfold item; rewrite Hr; reflexivity).
  destruct (init_best_metrics_zero c _ Hv) as (Hrb & Hnb & _). cbn zeta in Hrb, Hnb.
  pose proof (improved_cases metrics (conf_topk_valid c) (fst (init_best_metrics c))) as Hi.
  cbn [metrics on_val] in Hi. rewrite Hr, Hrb, Hn, Hnb in Hi.
  destruct (Rgt_dec r 0) as [Hr0|Hr0].
  - destruct (Rgt_dec n 0) as [Hn0|Hn0]; [|exfalso; apply Hn0, Hnp, Hrp, Hr0].
    destruct (log_metrics_improved c metrics log_path model checkpoint_model_path
                checkpoint_conf_path epoch batch_anchor (fst (init_best_metrics c))
                (snd (init_best_metrics c)) 0 ut bt st Hk Hi)
      as (b' & p' & Hb & _).
    eexists b', p', _, _. split; [exact Hb|]. split; [|left; reflexivity].
    split; [intros _; exact Hr0|]. intros _.
    apply elem_of_app. right. apply elem_of_app. right. left.
  - rewrite (log_metrics_not_improved c metrics log_path model checkpoint_model_path
               checkpoint_conf_path epoch batch_anchor (fst (init_best_metrics c))
               (snd (init_best_metrics c)) 0 ut bt st Hk Hi).
    eexists _, _, _, _. split; [reflexivity|]. split; [|right; reflexivity].
    split; [|intros H; contradiction]. intros Hin. exfalso.
    exact (not_persist_not_in (save_model checkpoint_model_path model) _
             (score_events_not_persist _ _ _ _) eq_refl Hin).
Qed.

Lemma first_epoch_checkpoint_witness :
  exists metrics_val best' perform' epoch' out,
    evaluate_epoch small_conf tt sample_loader sample_loader "log" "model" "conf" 3 39
      (fst (init_best_metrics small_conf)) (snd (init_best_metrics small_conf)) 0
    = OK (best', perform', epoch', out)
    /\ (save_model "model" tt ∈ out
        <-> (0 < item (recall metrics_val) (conf_topk_valid small_conf))%R)
    /\ (epoch' = 3%Z \/ epoch' = 0%Z).
Proof.
  destruct sample_test_returns as (m & users & bundles & scores & H).
  destruct (first_epoch_checkpoint small_conf tt sample_loader sample_loader
              "log" "model" "conf" 3 39 m users bundles scores
              (list_elem_of_here 1 [2]) H) as (b' & p' & e' & o & Hres).
  - change (conf_topk small_conf) with [1; 2]. unfold sample_loader.
    rewrite H. reflexivity.
  - exists m, b', p', e', o. exact Hres.
Defined.
